(** * Currency Converter Pro: the price-detection engine of content.js

    A shallow embedding of the detection and conversion functions of
    [content.js] (with the tables and patterns it imports from
    [lib/regex.js] and [lib/patterns.js]), and the properties of the
    specification that they decide.

    - JavaScript strings are lists of UTF-16 code units ([list N]).
    - JavaScript numbers are IEEE 754 binary64 values ([PrimFloat.float]).
    - Regular expressions are parsed from their source text and run by a
      backtracking matcher that follows the ECMAScript semantics
      (leftmost match, greedy quantifiers, ordered alternatives, capture
      groups).
    - The DOM is a store of nodes with parent and child links; the layout
      engine's answers (computed style, bounding box) are fields of an
      element. *)

From Stdlib Require Import ZArith NArith List String Ascii Bool Lia.
From Stdlib Require Import PrimFloat SpecFloat FloatOps FloatAxioms.
From stdpp Require Import gmap.
Import ListNotations.

Local Open Scope N_scope.

(* ===================================================================== *)
(** * JavaScript strings *)
(* ===================================================================== *)

Module JsString.

(** A string is its sequence of UTF-16 code units. *)
Abbreviation jsstring := (list N).

(** Code points of a UTF-8 byte sequence, as UTF-16 code units (a code
    point above U+FFFF gives a surrogate pair).  Used to write string
    literals of the source in the text of this file. *)
Definition cont (b : N) : N := N.land b 63.

Definition units_of_cp (cp : N) : list N :=
  if cp <? 65536 then [cp]
  else let v := cp - 65536 in [55296 + N.shiftr v 10; 56320 + N.land v 1023].

Fixpoint utf8_decode (bs : list N) : list N :=
  match bs with
  | [] => []
  | b1 :: t1 =>
    if b1 <? 128 then b1 :: utf8_decode t1
    else match t1 with
    | [] => [65533]
    | b2 :: t2 =>
      if b1 <? 224 then
        units_of_cp (N.shiftl (N.land b1 31) 6 + cont b2) ++ utf8_decode t2
      else match t2 with
      | [] => [65533]
      | b3 :: t3 =>
        if b1 <? 240 then
          units_of_cp (N.shiftl (N.land b1 15) 12 + N.shiftl (cont b2) 6 + cont b3)
            ++ utf8_decode t3
        else match t3 with
        | [] => [65533]
        | b4 :: t4 =>
          units_of_cp (N.shiftl (N.land b1 7) 18 + N.shiftl (cont b2) 12
                       + N.shiftl (cont b3) 6 + cont b4) ++ utf8_decode t4
        end
      end
    end
  end.

Fixpoint bytes_of_string (s : string) : list N :=
  match s with
  | EmptyString => []
  | String a r => N_of_ascii a :: bytes_of_string r
  end.

Definition js (s : string) : list N := utf8_decode (bytes_of_string s).
Arguments js s%_string.

Definition eqb (a b : list N) : bool := if decide (a = b) then true else false.

(** ** Character classes of the language *)

Definition in_range (c lo hi : N) : bool := (lo <=? c) && (c <=? hi).

(** WhiteSpace and LineTerminator of ECMAScript: what [\s] matches and
    what [trim] removes. *)
Definition whitespace_ranges : list (N * N) :=
  [(9, 13); (32, 32); (160, 160); (5760, 5760); (8192, 8202); (8232, 8233);
   (8239, 8239); (8287, 8287); (12288, 12288); (65279, 65279)].

Definition in_ranges (rs : list (N * N)) (c : N) : bool :=
  existsb (fun r => in_range c (fst r) (snd r)) rs.

Definition is_space (c : N) : bool := in_ranges whitespace_ranges c.
Definition is_digit (c : N) : bool := in_range c 48 57.
Definition is_upper (c : N) : bool := in_range c 65 90.
Definition is_lower (c : N) : bool := in_range c 97 122.
Definition is_word (c : N) : bool :=
  is_digit c || is_upper c || is_lower c || (c =? 95).

(** ** String.prototype operations *)

(** [toLowerCase] and [toUpperCase].  The Basic Latin letters are mapped;
    two code units outside it lower to Basic Latin ones and are mapped
    too (U+212A KELVIN SIGN to k, U+0130 to i followed by U+0307).  The
    other case pairs of Unicode relate code units outside Basic Latin to
    each other; they are left unchanged here, no pattern or keyword of
    the program contains a cased letter outside Basic Latin that is
    compared after case mapping. *)
Definition lower_unit (c : N) : list N :=
  if is_upper c then [c + 32]
  else if c =? 8490 then [107]
  else if c =? 304 then [105; 775]
  else [c].

Definition upper_unit (c : N) : list N :=
  if is_lower c then [c - 32] else [c].

Definition toLowerCase (s : list N) : list N := flat_map lower_unit s.
Definition toUpperCase (s : list N) : list N := flat_map upper_unit s.

Fixpoint trimStart (s : list N) : list N :=
  match s with
  | c :: r => if is_space c then trimStart r else s
  | [] => []
  end.

Definition trimEnd (s : list N) : list N := rev (trimStart (rev s)).
Definition trim (s : list N) : list N := trimEnd (trimStart s).

Fixpoint startsWith (s p : list N) : bool :=
  match p, s with
  | [], _ => true
  | a :: p', b :: s' => (a =? b) && startsWith s' p'
  | _ :: _, [] => false
  end.

Definition endsWith (s p : list N) : bool := startsWith (rev s) (rev p).

(** [s.indexOf(p)] from position 0; [None] stands for -1. *)
Fixpoint indexOf_from (s p : list N) (i : nat) : option nat :=
  if startsWith s p then Some i
  else match s with
       | [] => None
       | _ :: r => indexOf_from r p (S i)
       end.

Definition indexOf (s p : list N) : option nat := indexOf_from s p 0.

Definition includes (s p : list N) : bool :=
  match indexOf s p with Some _ => true | None => false end.

(** [s.lastIndexOf(p)]: the last position where [p] starts. *)
Fixpoint lastIndexOf_from (s p : list N) (i : nat) (found : option nat) : option nat :=
  let found' := if startsWith s p then Some i else found in
  match s with
  | [] => found'
  | _ :: r => lastIndexOf_from r p (S i) found'
  end.

Definition lastIndexOf (s p : list N) : option nat := lastIndexOf_from s p 0 None.

(** [s.slice(a)] and [s.slice(0, b)] for non-negative bounds. *)
Definition slice_from (s : list N) (a : nat) : list N := skipn a s.
Definition slice_to (s : list N) (b : nat) : list N := firstn b s.
Definition substr (s : list N) (a b : nat) : list N := firstn (b - a) (skipn a s).

(** [s.replace(p, r)] with a string pattern: the first occurrence only. *)
Definition replace_first (s p r : list N) : list N :=
  match indexOf s p with
  | Some i => firstn i s ++ r ++ skipn (i + length p) s
  | None => s
  end.

(** A string is falsy exactly when it is empty. *)
Definition truthy (s : list N) : bool := match s with [] => false | _ => true end.

(** [a || b] on values that are a string or null/undefined. *)
Definition or_str (a b : option (list N)) : option (list N) :=
  match a with
  | Some s => if truthy s then a else b
  | None => b
  end.

Definition truthy_opt (a : option (list N)) : bool :=
  match a with Some s => truthy s | None => false end.

End JsString.
Import JsString.

(* ===================================================================== *)
(** * Regular expressions *)
(* ===================================================================== *)

Module Regex.

(** Abstract syntax of the patterns the program uses.  A literal
    character is a one-element class. *)
Inductive regex : Type :=
| Empty
| Never
| Class (neg : bool) (rs : list (N * N))
| Seq (a b : regex)
| Alt (a b : regex)
| Repeat (min : nat) (max : option nat) (greedy : bool) (r : regex)
| Group (i : nat) (r : regex)
| LineStart
| LineEnd
| WordBoundary (neg : bool)
| Lookahead (neg : bool) (r : regex).

Definition Chr (c : N) : regex := Class false [(c, c)].

(** A regular expression object: pattern, the [i] and [g] flags, and
    the number of capture groups. *)
Record RegExp := mkRegExp {
  pattern : regex;
  ignoreCase : bool;
  global : bool;
  ngroups : nat
}.

(** ** Matching *)

(** A position in the subject: index, the code unit before it (for
    [\b]) and the code units from it on. *)
Record pos := mkPos { idx : nat; before : option N; rest : list N }.

Definition caps := list (option (nat * nat)).
Definition cont := pos -> caps -> option (pos * caps).

Fixpoint set_cap (i : nat) (v : option (nat * nat)) (c : caps) : caps :=
  match c, i with
  | [], _ => []
  | _ :: t, O => v :: t
  | h :: t, S j => h :: set_cap j v t
  end.

Fixpoint groups_of (r : regex) : list nat :=
  match r with
  | Seq a b | Alt a b => groups_of a ++ groups_of b
  | Repeat _ _ _ a | Lookahead _ a => groups_of a
  | Group i a => i :: groups_of a
  | _ => []
  end.

Definition clear (gs : list nat) (c : caps) : caps :=
  fold_left (fun d i => set_cap i None d) gs c.

(** Pairs (lower, upper) of cased code units outside Basic Latin: the
    ones that occur in a pattern of the program (l with stroke and c
    with caron, in the currency test of lib/regex.js). *)
Definition case_pairs : list (N * N) := [(322, 321); (269, 268)].

(** The other code units with the same canonical (upper-case) form. *)
Definition case_variants (c : N) : list N :=
  if is_lower c then [c - 32]
  else if is_upper c then [c + 32]
  else flat_map (fun p => if c =? fst p then [snd p]
                          else if c =? snd p then [fst p] else []) case_pairs.

(** Membership of a code unit in a class; under the [i] flag two code
    units match when their canonical forms agree. *)
Definition class_has (ic : bool) (rs : list (N * N)) (c : N) : bool :=
  in_ranges rs c || (ic && existsb (in_ranges rs) (case_variants c)).

Definition word_before (x : pos) : bool :=
  match before x with Some c => is_word c | None => false end.
Definition word_after (x : pos) : bool :=
  match rest x with c :: _ => is_word c | [] => false end.

Definition max_reached (max : option nat) (count : nat) : bool :=
  match max with Some m => (m <=? count)%nat | None => false end.

(** The matcher of ECMAScript 15.10.2, in continuation-passing style:
    [rmatch ic len r x c k] matches [r] at [x] and then calls [k]; a
    failure of [k] backtracks into [r].  An iteration of a quantifier
    that consumes nothing once [min] is reached is rejected, so [len]
    (the length of the subject) plus [min] bounds the iterations. *)
Fixpoint rmatch (ic : bool) (len : nat) (r : regex) (x : pos) (c : caps) (k : cont)
  {struct r} : option (pos * caps) :=
  match r with
  | Empty => k x c
  | Never => None
  | Class neg rs =>
    match rest x with
    | ch :: tl =>
      if xorb neg (class_has ic rs ch)
      then k (mkPos (S (idx x)) (Some ch) tl) c else None
    | [] => None
    end
  | Seq a b => rmatch ic len a x c (fun y d => rmatch ic len b y d k)
  | Alt a b =>
    match rmatch ic len a x c k with
    | Some res => Some res
    | None => rmatch ic len b x c k
    end
  | Group i a =>
    rmatch ic len a x c (fun y d => k y (set_cap i (Some (idx x, idx y)) d))
  | LineStart => match idx x with O => k x c | S _ => None end
  | LineEnd => match rest x with [] => k x c | _ :: _ => None end
  | WordBoundary neg =>
    if xorb neg (xorb (word_before x) (word_after x)) then k x c else None
  | Lookahead neg a =>
    match rmatch ic len a x c (fun y d => Some (y, d)) with
    | Some (_, d) => if neg then None else k x d
    | None => if neg then k x c else None
    end
  | Repeat min max greedy a =>
    let gs := groups_of a in
    (fix loop (fuel count : nat) (x : pos) (c : caps) (k : cont) {struct fuel}
       : option (pos * caps) :=
       match fuel with
       | O => None
       | S fuel' =>
         let iterate (_ : unit) :=
           if max_reached max count then None
           else rmatch ic len a x (clear gs c)
                  (fun y d =>
                     if (min <=? count)%nat && (idx y =? idx x)%nat then None
                     else loop fuel' (S count) y d k) in
         let stop (_ : unit) := if (min <=? count)%nat then k x c else None in
         if greedy then
           match iterate tt with Some res => Some res | None => stop tt end
         else
           match stop tt with Some res => Some res | None => iterate tt end
       end) (len + min + 2)%nat O x c k
  end.

(** The result of [exec]: where the match starts and ends, and the
    substrings of the groups (index 0 is the whole match; [None] is
    [undefined]). *)
Record MatchResult := mkMatch {
  m_index : nat;
  m_end : nat;
  m_groups : list (option (list N))
}.

Definition span_text (s : list N) (sp : option (nat * nat)) : option (list N) :=
  match sp with
  | Some (a, b) => Some (substr s a b)
  | None => None
  end.

(** Leftmost match at or after a position. *)
Fixpoint exec_from (re : RegExp) (s : list N) (i : nat) (bf : option N) (rs : list N)
  : option MatchResult :=
  match rmatch (ignoreCase re) (length s) (pattern re) (mkPos i bf rs)
          (repeat None (ngroups re)) (fun y d => Some (y, d)) with
  | Some (y, d) =>
    Some (mkMatch i (idx y) (Some (substr s i (idx y)) :: map (span_text s) d))
  | None =>
    match rs with
    | [] => None
    | ch :: tl => exec_from re s (S i) (Some ch) tl
    end
  end.

(** [re.exec(s)] of a fresh expression, which is also [s.match(re)]
    without the [g] flag. *)
Definition exec (re : RegExp) (s : list N) : option MatchResult :=
  exec_from re s O None s.

(** [re.test(s)]. *)
Definition test (re : RegExp) (s : list N) : bool :=
  match exec re s with Some _ => true | None => false end.

(** [match[i]]. *)
Definition group (m : MatchResult) (i : nat) : option (list N) :=
  nth i (m_groups m) None.

(** All matches of a global expression, left to right; after an empty
    match the search resumes one code unit further. *)
Fixpoint matches_from (re : RegExp) (s : list N) (fuel i : nat) (bf : option N)
  (rs : list N) : list MatchResult :=
  match fuel with
  | O => []
  | S fuel' =>
    match exec_from re s i bf rs with
    | None => []
    | Some m =>
      let e := m_end m in
      if (e =? m_index m)%nat then
        match skipn (e - i) rs with
        | [] => [m]
        | ch :: tl => m :: matches_from re s fuel' (S e) (Some ch) tl
        end
      else
        m :: matches_from re s fuel' e (nth_error s (e - 1)) (skipn (e - i) rs)
    end
  end.

Definition matchAll (re : RegExp) (s : list N) : list MatchResult :=
  matches_from re s (S (length s)) O None s.

(** [s.replace(re, r)] for a replacement text [r] without [$] patterns:
    every match with the [g] flag, the first one without it. *)
Fixpoint splice (s : list N) (at_ : nat) (ms : list MatchResult) (r : list N) : list N :=
  match ms with
  | [] => skipn at_ s
  | m :: ms' => substr s at_ (m_index m) ++ r ++ splice s (m_end m) ms' r
  end.

Definition replace (re : RegExp) (s r : list N) : list N :=
  if global re then splice s O (matchAll re s) r
  else match exec re s with
       | Some m => splice s O [m] r
       | None => s
       end.

(** ** Reading a regular-expression literal *)

(** The code unit of a one-character literal. *)
Definition ch (s : string) : N := hd 0 (js s).
Arguments ch s%_string.

Definition digit_ranges : list (N * N) := [(48, 57)].
Definition nondigit_ranges : list (N * N) := [(0, 47); (58, 65535)].
Definition word_ranges : list (N * N) := [(48, 57); (65, 90); (95, 95); (97, 122)].
Definition nonword_ranges : list (N * N) :=
  [(0, 47); (58, 64); (91, 94); (96, 96); (123, 65535)].
Definition nonspace_ranges : list (N * N) :=
  [(0, 8); (14, 31); (33, 159); (161, 5759); (5761, 8191); (8203, 8231);
   (8234, 8238); (8240, 8286); (8288, 12287); (12289, 65278); (65280, 65535)].
Definition line_terminators : list (N * N) := [(10, 10); (13, 13); (8232, 8233)].

Definition hex_value (c : N) : option N :=
  if is_digit c then Some (c - 48)
  else if in_range c 97 102 then Some (c - 87)
  else if in_range c 65 70 then Some (c - 55)
  else None.

Fixpoint parse_hex (n : nat) (inp : list N) (acc : N) : option (N * list N) :=
  match n with
  | O => Some (acc, inp)
  | S n' =>
    match inp with
    | c :: r =>
      match hex_value c with
      | Some v => parse_hex n' r (acc * 16 + v)
      | None => None
      end
    | [] => None
    end
  end.

Fixpoint parse_nat (inp : list N) (acc : nat) (seen : bool) : option (nat * list N) :=
  match inp with
  | c :: r =>
    if is_digit c then parse_nat r (acc * 10 + N.to_nat (c - 48))%nat true
    else if seen then Some (acc, inp) else None
  | [] => if seen then Some (acc, []) else None
  end.

(** An escape that denotes a set: [\d \D \s \S \w \W]. *)
Definition set_escape (c : N) : option (list (N * N)) :=
  if c =? ch "d" then Some digit_ranges
  else if c =? ch "D" then Some nondigit_ranges
  else if c =? ch "s" then Some whitespace_ranges
  else if c =? ch "S" then Some nonspace_ranges
  else if c =? ch "w" then Some word_ranges
  else if c =? ch "W" then Some nonword_ranges
  else None.

(** An escape that denotes one code unit; the input starts after the
    backslash.  Back-references are not read. *)
Definition char_escape (inp : list N) : option (N * list N) :=
  match inp with
  | [] => None
  | c :: r =>
    if c =? ch "t" then Some (9, r)
    else if c =? ch "n" then Some (10, r)
    else if c =? ch "v" then Some (11, r)
    else if c =? ch "f" then Some (12, r)
    else if c =? ch "r" then Some (13, r)
    else if c =? ch "0" then Some (0, r)
    else if c =? ch "u" then parse_hex 4 r 0
    else if c =? ch "x" then parse_hex 2 r 0
    else if is_digit c then None
    else Some (c, r)
  end.

(** One member of a bracketed class: a set, or a single code unit. *)
Definition class_atom (inp : list N) : option (list (N * N) * option N * list N) :=
  match inp with
  | [] => None
  | c :: r =>
    if c =? ch "\" then
      match r with
      | [] => None
      | e :: r' =>
        match set_escape e with
        | Some rs => Some (rs, None, r')
        | None =>
          if e =? ch "b" then Some ([(8, 8)], Some 8, r')
          else match char_escape r with
               | Some (v, r'') => Some ([(v, v)], Some v, r'')
               | None => None
               end
        end
      end
    else Some ([(c, c)], Some c, r)
  end.

(** The members of a class up to the closing bracket. *)
Fixpoint class_items (fuel : nat) (inp : list N) (acc : list (N * N))
  : option (list (N * N) * list N) :=
  match fuel with
  | O => None
  | S fuel' =>
    match inp with
    | [] => None
    | c :: r =>
      if c =? ch "]" then Some (acc, r)
      else
        match class_atom inp with
        | None => None
        | Some (rs, single, r1) =>
          match single, r1 with
          | Some lo, d :: ((e :: _) as r2) =>
            if (d =? ch "-") && negb (e =? ch "]") then
              match class_atom r2 with
              | Some (_, Some hi, r3) => class_items fuel' r3 (acc ++ [(lo, hi)])
              | Some (rs2, None, r3) =>
                class_items fuel' r3 (acc ++ rs ++ [(ch "-", ch "-")] ++ rs2)
              | None => None
              end
            else class_items fuel' r1 (acc ++ rs)
          | _, _ => class_items fuel' r1 (acc ++ rs)
          end
        end
    end
  end.

Definition parse_class (inp : list N) : option (regex * list N) :=
  match inp with
  | c :: r =>
    if c =? ch "^" then
      match class_items (S (length r)) r [] with
      | Some (rs, r') => Some (Class true rs, r')
      | None => None
      end
    else
      match class_items (S (length inp)) inp [] with
      | Some (rs, r') => Some (Class false rs, r')
      | None => None
      end
  | [] => None
  end.

(** A quantifier, when the input starts with one: bounds and what
    follows. *)
Definition parse_bounds (inp : list N) : option (nat * option nat * list N) :=
  match inp with
  | [] => None
  | c :: r =>
    if c =? ch "*" then Some (O, None, r)
    else if c =? ch "+" then Some (1%nat, None, r)
    else if c =? ch "?" then Some (O, Some 1%nat, r)
    else if c =? ch "{" then
      match parse_nat r O false with
      | Some (m, d :: r2) =>
        if d =? ch "}" then Some (m, Some m, r2)
        else if d =? ch "," then
          match r2 with
          | e :: r3 =>
            if e =? ch "}" then Some (m, None, r3)
            else match parse_nat r2 O false with
                 | Some (n, f :: r5) =>
                   if f =? ch "}" then Some (m, Some n, r5) else None
                 | _ => None
                 end
          | [] => None
          end
        else None
      | _ => None
      end
    else None
  end.

Definition quantified (a : regex) (inp : list N) : regex * list N :=
  match parse_bounds inp with
  | Some (mn, mx, r) =>
    match r with
    | q :: r' =>
      if q =? ch "?" then (Repeat mn mx false a, r') else (Repeat mn mx true a, r)
    | [] => (Repeat mn mx true a, r)
    end
  | None => (a, inp)
  end.

(** Result of reading a piece: the expression, what is left of the
    input, and the index of the next capture group. *)
Definition parsed := option (regex * list N * nat).

Definition expect_close (p : parsed) (wrap : regex -> regex) : parsed :=
  match p with
  | Some (a, c :: r, g) => if c =? ch ")" then Some (wrap a, r, g) else None
  | _ => None
  end.

(** One term of an alternative; [disj] reads a parenthesised
    disjunction.  [None] inside the result means that the alternative
    ends here. *)
Definition parse_term (disj : list N -> nat -> parsed) (inp : list N) (g : nat)
  : option (option regex * list N * nat) :=
  let quant (p : parsed) :=
    match p with
    | Some (a, r, g') => let '(q, r') := quantified a r in Some (Some q, r', g')
    | None => None
    end in
  match inp with
  | [] => Some (None, inp, g)
  | c :: r =>
    if (c =? ch "|") || (c =? ch ")") then Some (None, inp, g)
    else if c =? ch "^" then Some (Some LineStart, r, g)
    else if c =? ch "$" then Some (Some LineEnd, r, g)
    else if c =? ch "." then quant (Some (Class true line_terminators, r, g))
    else if c =? ch "[" then
      match parse_class r with
      | Some (a, r') => quant (Some (a, r', g))
      | None => None
      end
    else if c =? ch "(" then
      match r with
      | q :: k :: r' =>
        if (q =? ch "?") && (k =? ch ":") then quant (expect_close (disj r' g) id)
        else if (q =? ch "?") && (k =? ch "=") then
          quant (expect_close (disj r' g) (Lookahead false))
        else if (q =? ch "?") && (k =? ch "!") then
          quant (expect_close (disj r' g) (Lookahead true))
        else quant (expect_close (disj r (S g)) (Group g))
      | _ => quant (expect_close (disj r (S g)) (Group g))
      end
    else if c =? ch "\" then
      match r with
      | [] => None
      | e :: r' =>
        if e =? ch "b" then Some (Some (WordBoundary false), r', g)
        else if e =? ch "B" then Some (Some (WordBoundary true), r', g)
        else match set_escape e with
             | Some rs => quant (Some (Class false rs, r', g))
             | None =>
               match char_escape r with
               | Some (v, r'') => quant (Some (Chr v, r'', g))
               | None => None
               end
             end
      end
    else if (c =? ch "*") || (c =? ch "+") || (c =? ch "?") then None
    else quant (Some (Chr c, r, g))
  end.

(** The terms of an alternative, in sequence. *)
Fixpoint parse_alt (disj : list N -> nat -> parsed) (fuel : nat) (inp : list N) (g : nat)
  : parsed :=
  match fuel with
  | O => None
  | S fuel' =>
    match parse_term disj inp g with
    | None => None
    | Some (None, r, g') => Some (Empty, r, g')
    | Some (Some a, r, g') =>
      match parse_alt disj fuel' r g' with
      | Some (Empty, r', g'') => Some (a, r', g'')
      | Some (b, r', g'') => Some (Seq a b, r', g'')
      | None => None
      end
    end
  end.

(** Alternatives separated by [|]. *)
Fixpoint parse_disj (fuel : nat) (inp : list N) (g : nat) : parsed :=
  match fuel with
  | O => None
  | S fuel' =>
    match parse_alt (parse_disj fuel') (S (length inp)) inp g with
    | Some (a, c :: r, g') =>
      if c =? ch "|" then
        match parse_disj fuel' r g' with
        | Some (b, r', g'') => Some (Alt a b, r', g'')
        | None => None
        end
      else Some (a, c :: r, g')
    | other => other
    end
  end.

(** Position of the last [/] of a literal. *)
Definition last_slash (s : list N) : option nat := lastIndexOf s [ch "/"].

(** The expression object of a literal [/pattern/flags]; a text that
    is not a literal of the fragment read here gives an expression that
    matches nothing. *)
Definition regexp_of (lit : list N) : RegExp :=
  match lit, last_slash lit with
  | c :: body, Some (S n) =>
    let src := firstn n body in
    let flags := skipn (S n) body in
    let ic := includes flags [ch "i"] in
    let gl := includes flags [ch "g"] in
    if c =? ch "/" then
      match parse_disj (S (length src)) src O with
      | Some (a, [], g) => mkRegExp a ic gl g
      | _ => mkRegExp Never ic gl O
      end
    else mkRegExp Never ic gl O
  | _, _ => mkRegExp Never false false O
  end.

Definition RE (lit : string) : RegExp := regexp_of (js lit).
Arguments RE lit%_string.

(** The literal was read: its pattern is not the one that matches
    nothing. *)
Definition well_read (re : RegExp) : bool :=
  match pattern re with Never => false | _ => true end.

End Regex.
Import Regex.

(* ===================================================================== *)
(** * JavaScript numbers *)
(* ===================================================================== *)

Module JsNumber.

Local Open Scope Z_scope.

(** The binary64 value nearest to [n / d] (ties to even), for positive
    [n] and [d]: the rounding that reading a decimal literal performs. *)
Definition round_ratio (neg : bool) (n d : positive) : float :=
  SF2Prim (SFdiv prec emax (S754_finite neg n 0) (S754_finite false d 0)).

(** The binary64 value nearest to [m * 10^e]. *)
Definition of_decimal (neg : bool) (m : Z) (e : Z) : float :=
  match m with
  | Zpos p =>
    if 0 <=? e then round_ratio neg (p * Z.to_pos (10 ^ e)) 1
    else round_ratio neg p (Z.to_pos (10 ^ (- e)))
  | _ => if neg then neg_zero else zero
  end.

Definition of_Z (z : Z) : float :=
  match z with
  | Zneg p => of_decimal true (Zpos p) 0
  | _ => of_decimal false z 0
  end.

(** A run of decimal digits: its value, how many there are, the rest. *)
Fixpoint digits (inp : list N) (acc : Z) (n : Z) : Z * Z * list N :=
  match inp with
  | c :: r => if is_digit c then digits r (acc * 10 + Z.of_N (c - 48)) (n + 1)
              else (acc, n, inp)
  | [] => (acc, n, [])
  end.

Definition sign_prefix (t : list N) : bool * list N :=
  match t with
  | c :: r => if (c =? ch "-")%N then (true, r)
              else if (c =? ch "+")%N then (false, r) else (false, t)
  | [] => (false, t)
  end.

(** The exponent part [e±ddd] when the input starts with one. *)
Definition exponent (inp : list N) : Z :=
  match inp with
  | c :: r =>
    if (c =? ch "e")%N || (c =? ch "E")%N then
      let '(neg, r') := sign_prefix r in
      let '(v, n, _) := digits r' 0 0 in
      if n =? 0 then 0 else if neg then - v else v
    else 0
  | [] => 0
  end.

(** [parseFloat(s)]: leading white space is skipped and the longest
    prefix that is a decimal literal is read; NaN when there is none. *)
Definition parseFloat (s : list N) : float :=
  let '(neg, t1) := sign_prefix (trimStart s) in
  if startsWith t1 (js "Infinity") then (if neg then neg_infinity else infinity)
  else
    let '(ip, ni, t2) := digits t1 0 0 in
    let '(fp, nf, t3) :=
      match t2 with
      | c :: r => if (c =? ch ".")%N then digits r 0 0 else (0, 0, t2)
      | [] => (0, 0, t2)
      end in
    if (ni =? 0) && (nf =? 0) then nan
    else of_decimal neg (ip * 10 ^ nf + fp) (exponent t3 - nf).

(** [parseInt(s)] in radix 10; [None] is NaN. *)
Definition parseInt (s : list N) : option Z :=
  let '(neg, t1) := sign_prefix (trimStart s) in
  let '(v, n, _) := digits t1 0 0 in
  if n =? 0 then None else Some (if neg then - v else v).

(** A numeric literal of the source text. *)
Definition num (lit : string) : float := parseFloat (js lit).
Arguments num lit%_string.

Definition isNaN (x : float) : bool := is_nan x.
Definition isFinite (x : float) : bool := is_finite x.

(** Truthiness of a number: false for 0, -0 and NaN. *)
Definition truthy_num (x : float) : bool := negb (is_zero x || is_nan x).

(** Decimal digits of a non-negative integer. *)
Fixpoint dec_digits (fuel : nat) (n : Z) (acc : list N) : list N :=
  match fuel with
  | O => acc
  | S f =>
    let acc' := (Z.to_N (n mod 10) + 48)%N :: acc in
    if n <? 10 then acc' else dec_digits f (n / 10) acc'
  end.

Definition Z_to_string (n : Z) : list N :=
  dec_digits (S (Z.to_nat (Z.log2 (Z.abs n)))) (Z.abs n) [].

(** The exact value of a finite non-zero number is [m * 2^e]. *)
Definition decompose (x : float) : option (Z * Z) :=
  match Prim2SF x with
  | S754_finite _ m e => Some (Zpos m, e)
  | _ => None
  end.

(** [floor (m * 2^e * 10^f + 1/2)]: the integer nearest to the scaled
    value, the larger one on a tie. *)
Definition scaled_round (m e : Z) (f : Z) : Z :=
  if 0 <=? e then m * 2 ^ e * 10 ^ f
  else (2 * m * 10 ^ f + 2 ^ (- e)) / (2 * 2 ^ (- e)).

Definition reads_back (x : float) (s : Z) (e10 : Z) : bool :=
  PrimFloat.eqb (of_decimal false s e10) x.

(** [n] with [10^(n-1) <= nm / dn < 10^n], searched from [n]. *)
Fixpoint magnitude_search (fuel : nat) (nm dn : Z) (n : Z) : Z :=
  match fuel with
  | O => n
  | S f =>
    let below := if 0 <=? n - 1 then nm <? dn * 10 ^ (n - 1)
                 else nm * 10 ^ (1 - n) <? dn in
    let above := if 0 <=? n then dn * 10 ^ n <=? nm
                 else dn <=? nm * 10 ^ (- n) in
    if below then magnitude_search f nm dn (n - 1)
    else if above then magnitude_search f nm dn (n + 1)
    else n
  end.

Definition magnitude (m e : Z) : Z :=
  let nm := if 0 <=? e then m * 2 ^ e else m in
  let dn := if 0 <=? e then 1 else 2 ^ (- e) in
  magnitude_search 700 nm dn 1.

(** Number::toString, steps 5: the least [k] and the digits [s]
    ([10^(k-1) <= s < 10^k]) with [s * 10^(n-k)] reading back as [x],
    the nearest such [s] when there are two, and the even one when
    both are as near. *)
Fixpoint shortest (fuel : nat) (x : float) (m e n : Z) (k : Z) : Z * Z * Z :=
  match fuel with
  | O => (m, 1, 1)
  | S f =>
    let p := n - k in
    let nm := (if 0 <=? e then m * 2 ^ e else m) * (if p <? 0 then 10 ^ (- p) else 1) in
    let dn := (if 0 <=? e then 1 else 2 ^ (- e)) * (if 0 <=? p then 10 ^ p else 1) in
    let lo := nm / dn in
    let hi := lo + 1 in
    let lo_ok := (10 ^ (k - 1) <=? lo) && reads_back x lo p in
    let hi_ok := reads_back x hi p in
    let twice := 2 * nm - 2 * lo * dn in
    let lo_closer := (twice <? dn) || ((twice =? dn) && Z.even lo) in
    if lo_ok && (negb hi_ok || lo_closer) then (lo, n, k)
    else if hi_ok then
      (if hi =? 10 ^ k then (10 ^ (k - 1), n + 1, k) else (hi, n, k))
    else shortest f x m e n (k + 1)
  end.

Definition zeros (n : Z) : list N := repeat 48%N (Z.to_nat n).

Definition positive_to_string (x : float) : list N :=
  match decompose x with
  | None => js "Infinity"
  | Some (m, e) =>
    let '(s, n, k) := shortest 20 x m e (magnitude m e) 1 in
    let ds := Z_to_string s in
    if (k <=? n) && (n <=? 21) then ds ++ zeros (n - k)
    else if (0 <? n) && (n <=? 21) then
      firstn (Z.to_nat n) ds ++ js "." ++ skipn (Z.to_nat n) ds
    else if (-6 <? n) && (n <=? 0) then js "0." ++ zeros (- n) ++ ds
    else
      let ex := n - 1 in
      let es := (if 0 <=? ex then js "+" else js "-") ++ Z_to_string (Z.abs ex) in
      match ds with
      | d :: (_ :: _) as r => d :: js "." ++ r ++ js "e" ++ es
      | _ => ds ++ js "e" ++ es
      end
  end.

(** [String(x)], the conversion that string concatenation and DOM
    string attributes apply to a number. *)
Definition toString (x : float) : list N :=
  if is_nan x then js "NaN"
  else if is_zero x then js "0"
  else if PrimFloat.ltb x zero then js "-" ++ positive_to_string (PrimFloat.opp x)
  else positive_to_string x.

(** [x.toFixed(f)] for [0 <= f <= 100]. *)
Definition toFixed (x : float) (f : Z) : list N :=
  if is_nan x then js "NaN"
  else if PrimFloat.leb (num "1e21") (PrimFloat.abs x) then toString x
  else
    let sign := if PrimFloat.ltb x zero then js "-" else [] in
    let n := match decompose (PrimFloat.abs x) with
             | Some (m, e) => scaled_round m e f
             | None => 0
             end in
    let ds := Z_to_string n in
    if f =? 0 then sign ++ ds
    else
      let ds' := zeros (f + 1 - Z.of_nat (length ds)) ++ ds in
      let k := (length ds' - Z.to_nat f)%nat in
      sign ++ firstn k ds' ++ js "." ++ skipn k ds'.

(** [Math.round(x)]: the integer nearest to [x], the larger one on a
    tie, as an integer. *)
Definition round_Z (x : float) : Z :=
  match Prim2SF x with
  | S754_finite s m e =>
    let v := if s then Zneg m else Zpos m in
    if 0 <=? e then v * 2 ^ e
    else (2 * v + 2 ^ (- e)) / (2 * 2 ^ (- e))
  | _ => 0
  end.

End JsNumber.
Import JsNumber.

(* ===================================================================== *)
(** * The document *)
(* ===================================================================== *)

Module Dom.

(** The properties of [getComputedStyle(element)] that the program
    reads, as the strings the browser returns. *)
Record ComputedStyle := mkStyle {
  cs_display : list N;
  cs_visibility : list N;
  cs_opacity : list N;
  cs_fontSize : list N;
  cs_fontWeight : list N;
  cs_color : list N;
  cs_textDecoration : list N;
  cs_textDecorationLine : list N;
  cs_fontFamily : list N;
  cs_lineHeight : list N;
  cs_letterSpacing : list N;
  cs_textTransform : list N
}.

(** [element.getBoundingClientRect()]. *)
Record DOMRect := mkRect {
  r_width : float;
  r_height : float;
  r_top : float;
  r_left : float
}.

(** An element: tag name (upper case, as HTML documents report it),
    content attributes (this is where [dataset], [title], [className]
    and [id] live), the answers of the layout engine, the assignments
    made to [element.style], and the number of [contextmenu] listeners
    added to it. *)
Record Element := mkElement {
  tagName : list N;
  attributes : list (list N * list N);
  computedStyle : ComputedStyle;
  boundingRect : DOMRect;
  styleWrites : list (list N * list N);
  contextMenuListeners : nat
}.

Inductive Content :=
| TextNode (data : list N)
| ElementNode (e : Element) (children : list nat).

Record Node := mkNode { parent : option nat; content : Content }.

(** Nodes are identified by a number; a node that was detached stays
    in the store, as a removed node stays reachable from the references
    the script holds. *)
Abbreviation Document := (gmap nat Node).

Definition element_at (doc : Document) (id : nat) : option Element :=
  match doc !! id with
  | Some (mkNode _ (ElementNode e _)) => Some e
  | _ => None
  end.

Definition childNodes (doc : Document) (id : nat) : list nat :=
  match doc !! id with
  | Some (mkNode _ (ElementNode _ kids)) => kids
  | _ => []
  end.

Definition is_element (doc : Document) (id : nat) : bool :=
  match element_at doc id with Some _ => true | None => false end.

(** [element.children]: the child nodes that are elements. *)
Definition children (doc : Document) (id : nat) : list nat :=
  List.filter (is_element doc) (childNodes doc id).

(** [node.parentElement]. *)
Definition parentElement (doc : Document) (id : nat) : option nat :=
  match doc !! id with
  | Some (mkNode (Some p) _) => if is_element doc p then Some p else None
  | _ => None
  end.

(** [node.textContent]: the text of the descendants in document order.
    The depth of a tree is at most its number of nodes, which is the
    fuel given by [textContent]. *)
Fixpoint textContent_upto (fuel : nat) (doc : Document) (id : nat) : list N :=
  match fuel with
  | O => []
  | S f =>
    match doc !! id with
    | Some (mkNode _ (TextNode d)) => d
    | Some (mkNode _ (ElementNode _ kids)) => flat_map (textContent_upto f doc) kids
    | None => []
    end
  end.

Definition textContent (doc : Document) (id : nat) : list N :=
  textContent_upto (S (size doc)) doc id.

(** The descendants of a node that are elements, in document order. *)
Fixpoint descendants_upto (fuel : nat) (doc : Document) (id : nat) : list nat :=
  match fuel with
  | O => []
  | S f =>
    flat_map (fun k => if is_element doc k then k :: descendants_upto f doc k else [])
             (childNodes doc id)
  end.

Definition descendants (doc : Document) (id : nat) : list nat :=
  descendants_upto (S (size doc)) doc id.

Definition getAttribute (e : Element) (name : list N) : option (list N) :=
  snd <$> List.find (fun kv => JsString.eqb (fst kv) name) (attributes e).

Definition setAttribute (e : Element) (name value : list N) : Element :=
  mkElement (tagName e)
    (if existsb (fun kv => JsString.eqb (fst kv) name) (attributes e)
     then map (fun kv => if JsString.eqb (fst kv) name then (name, value) else kv)
              (attributes e)
     else attributes e ++ [(name, value)])
    (computedStyle e) (boundingRect e) (styleWrites e) (contextMenuListeners e).

(** [element.style.prop = value]. *)
Definition setStyle (e : Element) (prop value : list N) : Element :=
  mkElement (tagName e) (attributes e) (computedStyle e) (boundingRect e)
    (styleWrites e ++ [(prop, value)]) (contextMenuListeners e).

Definition addContextMenuListener (e : Element) : Element :=
  mkElement (tagName e) (attributes e) (computedStyle e) (boundingRect e)
    (styleWrites e) (S (contextMenuListeners e)).

(** [element.className] and [element.id]: the attribute, or the empty
    string. *)
Definition className (e : Element) : list N := default [] (getAttribute e (js "class")).
Definition elementId (e : Element) : list N := default [] (getAttribute e (js "id")).

(** The tokens of a class attribute (separated by ASCII white space). *)
Definition ascii_space (c : N) : bool :=
  (c =? 32) || (c =? 9) || (c =? 10) || (c =? 12) || (c =? 13).

Fixpoint tokens (s : list N) (cur : list N) : list (list N) :=
  match s with
  | [] => match cur with [] => [] | _ => [rev cur] end
  | c :: r =>
    if ascii_space c then
      match cur with [] => tokens r [] | _ => rev cur :: tokens r [] end
    else tokens r (c :: cur)
  end.

(** [element.classList.contains(c)]. *)
Definition classList_contains (e : Element) (c : list N) : bool :=
  existsb (JsString.eqb c) (tokens (className e) []).

(** Tag name test of a type selector (HTML: case-insensitive). *)
Definition has_tag (tags : list (list N)) (e : Element) : bool :=
  existsb (JsString.eqb (toLowerCase (tagName e))) tags.

(** [element.querySelectorAll] for a list of type selectors. *)
Definition querySelectorAll_tags (doc : Document) (id : nat) (tags : list (list N))
  : list nat :=
  List.filter (fun k => match element_at doc k with
                   | Some e => has_tag tags e
                   | None => false
                   end) (descendants doc id).

(** [element.querySelector] for a list of class selectors: is there a
    descendant with one of the classes. *)
Definition querySelector_classes (doc : Document) (id : nat) (classes : list (list N))
  : option nat :=
  List.find (fun k => match element_at doc k with
                 | Some e => existsb (classList_contains e) classes
                 | None => false
                 end) (descendants doc id).

(** Replace the element stored at [id]. *)
Definition update_element (doc : Document) (id : nat) (f : Element -> Element) : Document :=
  match doc !! id with
  | Some (mkNode p (ElementNode e kids)) => <[id := mkNode p (ElementNode (f e) kids)]> doc
  | _ => doc
  end.

(** A node identifier that is not in use. *)
Definition fresh (doc : Document) : nat :=
  S (map_fold (fun k _ m => Nat.max k m) O doc).

Definition detach (doc : Document) (id : nat) : Document :=
  match doc !! id with
  | Some (mkNode _ c) => <[id := mkNode None c]> doc
  | None => doc
  end.

(** [element.textContent = s]: the children are removed and, when [s]
    is not empty, one text node takes their place. *)
Definition set_textContent (doc : Document) (id : nat) (s : list N) : Document :=
  match doc !! id with
  | Some (mkNode p (ElementNode e kids)) =>
    let doc1 := fold_left detach kids doc in
    match s with
    | [] => <[id := mkNode p (ElementNode e [])]> doc1
    | _ =>
      let t := fresh doc in
      <[t := mkNode (Some id) (TextNode s)]>
        (<[id := mkNode p (ElementNode e [t])]> doc1)
    end
  | _ => doc
  end.

End Dom.
Import Dom.

(* ===================================================================== *)
(** * content.js: module state *)
(* ===================================================================== *)

(** The settings object, with the fields the detection engine reads.
    [decimalPlaces] is [None] while the property is undefined. *)
Record Settings := mkSettings {
  defaultTargetCurrency : list N;
  highlightPrices : bool;
  showInlineConversion : bool;
  replacePrice : bool;
  decimalPlaces : option (list N);
  useThousandSeparator : bool
}.

(** What the functions read and never write during a scan: the rate
    table (a property that is absent reads as undefined), the settings,
    the cached page currency, the theme and the height of the viewport. *)
Record Globals := mkGlobals {
  exchangeRates : gmap (list N) float;
  settings : Settings;
  pageCurrency : option (list N);
  currentTheme : list N;
  innerHeight : float
}.

(** [!exchangeRates[code]]: the property is absent, or is 0 or NaN. *)
Definition no_rate (r : option float) : bool :=
  match r with
  | Some x => negb (truthy_num x)
  | None => true
  end.

(** ** calculateConversion *)

Definition calculateConversion (g : Globals) (amount : float)
  (sourceCurrency targetCurrency : list N) : option float :=
  if no_rate (exchangeRates g !! sourceCurrency)
     || no_rate (exchangeRates g !! targetCurrency)
  then None
  else
    match exchangeRates g !! sourceCurrency, exchangeRates g !! targetCurrency with
    | Some rs, Some rt =>
      let usdAmount := PrimFloat.div amount rs in
      let convertedAmount := PrimFloat.mul usdAmount rt in
      if isNaN convertedAmount || negb (isFinite convertedAmount)
      then None else Some convertedAmount
    | _, _ => None
    end.

(* ===================================================================== *)
(** * content.js: currency detection *)
(* ===================================================================== *)

Definition currencyCodePattern : RegExp :=
  RE "/\b(USD|EUR|GBP|JPY|INR|ILS|CAD|AUD|CHF|CNY|BRL|RUB|KRW|THB|TRY|ZAR|SEK|NOK|DKK|PLN|CZK|HUF|MXN|NZD|SGD|HKD|TWD|AED|SAR|PHP|VND|UAH|RON|ISK|KWD|QAR|EGP)\b/i".

Definition currencyNames : list (list N * list N) :=
  [(js "dollar", js "USD");
   (js "dollars", js "USD");
   (js "euro", js "EUR");
   (js "euros", js "EUR");
   (js "pound", js "GBP");
   (js "pounds", js "GBP");
   (js "yen", js "JPY");
   (js "yuan", js "CNY");
   (js "rupee", js "INR");
   (js "rupees", js "INR");
   (js "shekel", js "ILS");
   (js "shekels", js "ILS");
   (js "ruble", js "RUB");
   (js "rubles", js "RUB");
   (js "franc", js "CHF");
   (js "francs", js "CHF");
   (js "peso", js "MXN");
   (js "pesos", js "MXN");
   (js "won", js "KRW");
   (js "baht", js "THB");
   (js "lira", js "TRY");
   (js "rand", js "ZAR");
   (js "krona", js "SEK");
   (js "krone", js "NOK");
   (js "zloty", js "PLN");
   (js "koruna", js "CZK")].

(** The symbol tests of Method 4 that come before the context-aware
    ones, in the order of the source: the first entry one of whose
    texts occurs decides. *)
Definition currencySymbols : list (list (list N) * list N) :=
  [([js "US $"; js "US$"], js "USD");
   ([js "AU $"; js "AU$"], js "AUD");
   ([js "C$"; js "CAD$"], js "CAD");
   ([js "A$"], js "AUD");
   ([js "NZ$"; js "NZ $"], js "NZD");
   ([js "HK$"; js "HK $"], js "HKD");
   ([js "S$"; js "SG$"], js "SGD");
   ([js "R$"], js "BRL");
   ([js "NT$"; js "TW$"], js "TWD");
   ([js "MX$"], js "MXN");
   ([js "د.إ"; js "AED"], js "AED");
   ([js "د.ك"; js "KWD"], js "KWD");
   ([js "₣"; js "CHF"], js "CHF");
   ([js "€"], js "EUR");
   ([js "£"], js "GBP");
   ([js "₹"], js "INR");
   ([js "₪"], js "ILS");
   ([js "₽"], js "RUB");
   ([js "₩"], js "KRW");
   ([js "฿"], js "THB");
   ([js "₺"], js "TRY");
   ([js "zł"], js "PLN");
   ([js "Kč"], js "CZK");
   ([js "Ft"], js "HUF");
   ([js "lei"], js "RON");
   ([js "﷼"], js "SAR");
   ([js "₱"], js "PHP");
   ([js "₫"], js "VND");
   ([js "₴"], js "UAH")].

Definition dollarCurrencies : list (list N) :=
  [js "USD"; js "CAD"; js "AUD"; js "NZD"; js "HKD"; js "SGD"; js "TWD"; js "MXN"].

(** Method 1: a data attribute of the element, or of one of its first
    three ancestors. *)
Definition ownDataCurrency (e : Element) : option (list N) :=
  or_str (getAttribute e (js "data-currency"))
    (or_str (getAttribute e (js "data-currency-code"))
       (or_str (getAttribute e (js "data-price-currency"))
          (or_str (getAttribute e (js "data-currency"))
             (getAttribute e (js "data-currency-code"))))).

Definition parentDataCurrency (e : Element) : option (list N) :=
  or_str (getAttribute e (js "data-currency"))
    (or_str (getAttribute e (js "data-currency-code"))
       (getAttribute e (js "data-currency"))).

Fixpoint ancestorCurrency (doc : Document) (parent : option nat) (levels : nat)
  : option (list N) :=
  match levels, parent with
  | S n, Some p =>
    match element_at doc p with
    | Some e =>
      if truthy_opt (parentDataCurrency e) then toUpperCase <$> parentDataCurrency e
      else ancestorCurrency doc (parentElement doc p) n
    | None => None
    end
  | _, _ => None
  end.

Definition dataAttributeCurrency (doc : Document) (element : option nat)
  : option (list N) :=
  match element with
  | Some id =>
    match element_at doc id with
    | Some e =>
      if truthy_opt (ownDataCurrency e) then toUpperCase <$> ownDataCurrency e
      else ancestorCurrency doc (parentElement doc id) 3
    | None => None
    end
  | None => None
  end.

(** The normalisation of the text: [text.replace(/\s+/g, ' ').trim()]. *)
Definition collapseSpaces (text : list N) : list N :=
  trim (Regex.replace (RE "/\s+/g") text (js " ")).

(** Method 2: a currency code in the text. *)
Definition codeInText (text : list N) : option (list N) :=
  match exec currencyCodePattern text with
  | Some m =>
    if truthy_opt (group m 1) then toUpperCase <$> group m 1
    else if includes (default [] (group m 0)) (js "US $")
            || includes (default [] (group m 0)) (js "US$")
         then Some (js "USD") else None
  | None => None
  end.

(** Method 3: a currency name in the lower-cased text. *)
Definition nameInText (lowerText : list N) : option (list N) :=
  snd <$> List.find (fun nc => includes lowerText (fst nc)) currencyNames.

(** Method 4, up to the hryvnia sign. *)
Definition symbolInText (text : list N) : option (list N) :=
  snd <$> List.find (fun sc => existsb (includes text) (fst sc)) currencySymbols.

Definition yenCurrency (lowerText : list N) : list N :=
  if includes lowerText (js "yuan") || includes lowerText (js "cny")
     || includes lowerText (js "china")
  then js "CNY" else js "JPY".

Definition krCurrency (lowerText : list N) : list N :=
  if includes lowerText (js "denmark") || includes lowerText (js "dkk") then js "DKK"
  else if includes lowerText (js "norway") || includes lowerText (js "nok") then js "NOK"
  else if includes lowerText (js "iceland") || includes lowerText (js "isk") then js "ISK"
  else js "SEK".

(** The bare dollar sign: the page currency when it is a dollar
    currency, otherwise USD. *)
Definition dollarCurrency (g : Globals) : list N :=
  match pageCurrency g with
  | Some pc =>
    if truthy pc && existsb (JsString.eqb pc) dollarCurrencies then pc else js "USD"
  | None => js "USD"
  end.

(** Method 5: the page currency. *)
Definition pageFallback (g : Globals) : option (list N) :=
  match pageCurrency g with
  | Some pc => if truthy pc then Some pc else None
  | None => None
  end.

(** ** detectCurrency *)
Definition detectCurrency (g : Globals) (doc : Document) (text : list N)
  (element : option nat) : option (list N) :=
  match dataAttributeCurrency doc element with
  | Some c => Some c
  | None =>
    let text := collapseSpaces text in
    match codeInText text with
    | Some c => Some c
    | None =>
      let lowerText := toLowerCase text in
      match nameInText lowerText with
      | Some c => Some c
      | None =>
        match symbolInText text with
        | Some c => Some c
        | None =>
          if includes text (js "¥") then Some (yenCurrency lowerText)
          else if includes text (js "kr") then Some (krCurrency lowerText)
          else if includes text (js "$") then Some (dollarCurrency g)
          else pageFallback g
        end
      end
    end
  end.

(* ===================================================================== *)
(** * content.js: textual validation *)
(* ===================================================================== *)

(** The object that [isProbablyPrice] returns. *)
Record Validation := mkValidation {
  isPrice : bool;
  confidence : Z;
  reason : list N
}.

Definition phoneNumberPattern : RegExp := RE "/^\+?\d{1,3}[\s.-]?\(?\d{3}\)?[\s.-]?\d{3}[\s.-]?\d{4}$/".
Definition yearPattern : RegExp := RE "/\b(19|20)\d{2}\b/".
Definition percentPattern : RegExp := RE "/%/".
Definition percentCurrencyPattern : RegExp := RE "/\$|€|£|¥|usd|eur|gbp/i".
Definition productCodePattern : RegExp := RE "/^[A-Z0-9]+-[A-Z0-9]+-[A-Z0-9]+$/i".
Definition dimensionPattern : RegExp := RE "/\d+\s*[x×]\s*\d+/i".
Definition hasCurrencyPattern : RegExp :=
  RE "/[\$€£¥₹₪₽₩฿₺₣₱₫₴]|(?:usd|eur|gbp|jpy|cny|inr|ils|cad|aud|chf|brl|rub|krw|thb|try|zar|sek|nok|dkk|pln|czk|huf|mxn|nzd|sgd|hkd|twd|aed|sar|php|vnd|uah|ron|isk|kwd|qar|egp)\b/i".
Definition codeAmountPattern : RegExp :=
  RE "/\b(USD|EUR|GBP|JPY|CNY|INR|ILS|CAD|AUD|CHF|BRL|RUB|KRW|THB|TRY|ZAR|SEK|NOK|DKK|PLN|CZK|HUF|MXN|NZD|SGD|HKD|TWD|AED|SAR|PHP|VND|UAH|RON|ISK|KWD|QAR|EGP)\s+\d/i".
Definition priceClassPattern : RegExp := RE "/price|cost|amount|total|subtotal|payment|pay/".
Definition priceContextKeywords : RegExp :=
  RE "/buy|cart|checkout|purchase|order|add to|price|cost|total|pay|sale|discount|save|offer/".
Definition numberPattern : RegExp := RE "/(\d[\d,.\s]*\d|\d)/".
Definition commaSpacePattern : RegExp := RE "/[,\s]/g".
Definition decimalPattern : RegExp := RE "/\d+[.,]\d{2}/".
Definition perfectPricePattern : RegExp := RE "/^[\$€£¥₹₪₽₩]\s*\d+([.,]\d{2})?$/".

(** [(element.className + ' ' + element.id)]. *)
Definition classAndId (e : Element) : list N := className e ++ js " " ++ elementId e.

(** [element.parentElement ? element.parentElement.textContent : ''] *)
Definition parentTextContent (doc : Document) (id : nat) : list N :=
  match parentElement doc id with
  | Some p => textContent doc p
  | None => []
  end.

(** The four patterns whose match ends [isProbablyPrice] at once, on
    the lower-cased and trimmed text, in the order of the source. *)
Definition hardReject (text : list N) : option (list N) :=
  if test phoneNumberPattern text then Some (js "phone_number")
  else if test percentPattern text && negb (test percentCurrencyPattern text)
  then Some (js "percentage")
  else if test productCodePattern text then Some (js "product_code")
  else if test dimensionPattern text then Some (js "dimension")
  else None.

(** The penalty for a year in a short text, applied after the phone
    test and before the other three. *)
Definition yearPenalty (text : list N) : Z :=
  if test yearPattern text && (length text <? 10)%nat then (-30)%Z else 0%Z.

(** The bonus for a number in the range 0.01 to 999,999,999.99. *)
Definition rangeBonus (text : list N) : Z :=
  match exec numberPattern text with
  | Some m =>
    let numStr := Regex.replace commaSpacePattern (default [] (group m 0)) [] in
    let n := parseFloat numStr in
    if PrimFloat.leb (num "0.01") n && PrimFloat.leb n (num "999999999.99")
    then 10%Z else (-20)%Z
  | None => 0%Z
  end.

Definition bonus (b : bool) (points : Z) : Z := if b then points else 0%Z.

(** ** isProbablyPrice *)
Definition isProbablyPrice (doc : Document) (text : list N) (element : nat) : Validation :=
  if negb (truthy text) then mkValidation false 0 []
  else
    let text := trim (toLowerCase text) in
    match element_at doc element with
    | None => mkValidation false 0 []
    | Some e =>
      if test phoneNumberPattern text then mkValidation false 0 (js "phone_number")
      else
        let c0 := (50 + yearPenalty text)%Z in
        if test percentPattern text && negb (test percentCurrencyPattern text)
        then mkValidation false 0 (js "percentage")
        else if test productCodePattern text then mkValidation false 0 (js "product_code")
        else if test dimensionPattern text then mkValidation false 0 (js "dimension")
        else
          let c1 := (c0 + bonus (test hasCurrencyPattern text) 40)%Z in
          let c2 := (c1 + bonus (test codeAmountPattern text) 30)%Z in
          let c3 := (c2 + bonus (test priceClassPattern (toLowerCase (classAndId e))) 20)%Z in
          let parentText := toLowerCase (parentTextContent doc element) in
          let c4 := (c3 + bonus (test priceContextKeywords (slice_to parentText 500)) 15)%Z in
          let c5 := (c4 + rangeBonus text)%Z in
          let c6 := (c5 + bonus (test decimalPattern text) 15)%Z in
          let c7 := (c6 + bonus (test perfectPricePattern text) 20)%Z in
          mkValidation (60 <=? c7)%Z (Z.min 100 (Z.max 0 c7))
            (if (60 <=? c7)%Z then js "validated" else js "low_confidence")
    end.

(* ===================================================================== *)
(** * content.js: price ranges *)
(* ===================================================================== *)

(** lib/regex.js *)
Definition PRICE_RANGE_REGEX : RegExp :=
  RE "/(?:(?:US|C|A|NZ|HK|S|R|NT)\s*)?([$€£¥₹₪₽₩฿₺₣₱₫₴])\s*(\d+(?:[.,]\d+)?)\s*[-–—~]\s*(?:(?:US|C|A|NZ|HK|S|R|NT)\s*)?([$€£¥₹₪₽₩฿₺₣₱₫₴])?\s*(\d+(?:[.,]\d+)?)|(?:([A-Z]{3})\s+)?(\d+(?:[.,]\d+)?)\s*[-–—~]\s*(\d+(?:[.,]\d+)?)\s*([A-Z]{3})?/i".
Definition PRICE_RANGE_TO_REGEX : RegExp :=
  RE "/(?:(?:US|C|A|NZ|HK|S|R|NT)\s*)?([$€£¥₹₪₽₩฿₺₣₱₫₴])\s*(\d+(?:[.,]\d+)?)\s+to\s+(?:(?:US|C|A|NZ|HK|S|R|NT)\s*)?([$€£¥₹₪₽₩฿₺₣₱₫₴])?\s*(\d+(?:[.,]\d+)?)|(?:([A-Z]{3})\s+)?(\d+(?:[.,]\d+)?)\s+to\s+(\d+(?:[.,]\d+)?)\s*([A-Z]{3})?/i".

(** The object that [detectPriceRange] returns when [isRange] is true. *)
Record RangeData := mkRange {
  minPrice : float;
  maxPrice : float;
  rangeCurrency : list N;
  currencySymbol : list N;
  currencyCode : list N;
  separator : list N;
  fullMatch : list N;
  originalText : list N
}.

(** How [detectPriceRange] reads the groups of a match: code, symbol,
    lower and upper price texts. *)
Definition rangeGroups (m : MatchResult)
  : option (list N) * option (list N) * option (list N) * option (list N) :=
  if truthy_opt (group m 2) then
    (or_str (group m 1) (group m 4), or_str (group m 2) (group m 5),
     group m 3, group m 6)
  else if truthy_opt (group m 8) then
    (or_str (group m 7) (group m 10), Some [], group m 8, group m 9)
  else
    (or_str (group m 1) (or_str (group m 4) (group m 7)),
     or_str (group m 2) (group m 5), group m 3, group m 6).

(** ** detectPriceRange; [None] is the object with [isRange: false]. *)
Definition detectPriceRange (g : Globals) (doc : Document) (text : list N)
  : option RangeData :=
  if negb (truthy text) then None
  else
    let '(m, sep) :=
      match exec PRICE_RANGE_REGEX text with
      | Some m => (Some m, js "-")
      | None => (exec PRICE_RANGE_TO_REGEX text, js "to")
      end in
    match m with
    | None => None
    | Some m =>
      let '(code, symbol, minText, maxText) := rangeGroups m in
      if negb (truthy_opt minText) || negb (truthy_opt maxText) then None
      else
        let code' := default [] code in
        let symbol' := default [] symbol in
        let currencyText :=
          if truthy code' && truthy symbol' then code' ++ symbol'
          else if truthy code' then code'
          else if truthy symbol' then symbol'
          else [] in
        if negb (truthy currencyText) then None
        else
          match detectCurrency g doc currencyText None with
          | None => None
          | Some detectedCurrency =>
            if negb (truthy detectedCurrency) then None
            else
              Some (mkRange
                      (parseFloat (replace_first (default [] minText) (js ",") (js ".")))
                      (parseFloat (replace_first (default [] maxText) (js ",") (js ".")))
                      detectedCurrency symbol' code' sep
                      (default [] (group m 0)) text)
          end
    end.

(** lib/patterns.js: getCurrencySymbol. *)
Definition currencySymbolTable : list (list N * list N) :=
  [(js "USD", js "$"); (js "EUR", js "€"); (js "GBP", js "£"); (js "JPY", js "¥");
   (js "INR", js "₹"); (js "ILS", js "₪"); (js "RUB", js "₽"); (js "KRW", js "₩");
   (js "THB", js "฿"); (js "TRY", js "₺"); (js "CAD", js "C$"); (js "AUD", js "A$");
   (js "NZD", js "NZ$"); (js "HKD", js "HK$"); (js "SGD", js "S$"); (js "BRL", js "R$");
   (js "ZAR", js "R"); (js "SEK", js "kr"); (js "NOK", js "kr"); (js "DKK", js "kr");
   (js "PLN", js "zł"); (js "CZK", js "Kč"); (js "HUF", js "Ft"); (js "RON", js "lei");
   (js "TWD", js "NT$"); (js "AED", js "د.إ"); (js "SAR", js "﷼"); (js "PHP", js "₱");
   (js "VND", js "₫"); (js "UAH", js "₴"); (js "CHF", js "₣"); (js "MXN", js "$");
   (js "CNY", js "¥"); (js "ISK", js "kr"); (js "KWD", js "د.ك"); (js "QAR", js "﷼");
   (js "EGP", js "£"); (js "BGN", js "лв"); (js "HRK", js "kn"); (js "ALL", js "L");
   (js "ARS", js "$"); (js "CLP", js "$"); (js "COP", js "$"); (js "PEN", js "S/");
   (js "UYU", js "$"); (js "VEF", js "Bs"); (js "BOB", js "Bs"); (js "CRC", js "₡");
   (js "DOP", js "RD$"); (js "GTQ", js "Q"); (js "PYG", js "₲"); (js "HNL", js "L");
   (js "NIO", js "C$"); (js "PAB", js "B/."); (js "JMD", js "J$"); (js "MYR", js "RM");
   (js "IDR", js "Rp"); (js "PKR", js "₨"); (js "BDT", js "৳"); (js "LKR", js "Rs");
   (js "NPR", js "Rs"); (js "MMK", js "K"); (js "KHR", js "៛"); (js "LAK", js "₭");
   (js "AFN", js "؋"); (js "BHD", js "د.ب"); (js "OMR", js "﷼"); (js "JOD", js "د.ا");
   (js "LBP", js "ل.ل"); (js "IQD", js "ع.د"); (js "SYP", js "£"); (js "YER", js "﷼");
   (js "SDG", js "£"); (js "NGN", js "₦"); (js "KES", js "KSh"); (js "GHS", js "₵");
   (js "MAD", js "د.م."); (js "TZS", js "TSh"); (js "UGX", js "USh"); (js "ETB", js "Br");
   (js "DZD", js "د.ج"); (js "TND", js "د.ت"); (js "LYD", js "ل.د"); (js "MUR", js "₨");
   (js "NAD", js "$"); (js "BWP", js "P"); (js "MZN", js "MT"); (js "XOF", js "CFA");
   (js "XAF", js "CFA"); (js "MKD", js "ден"); (js "RSD", js "дин"); (js "BAM", js "KM");
   (js "GEL", js "₾"); (js "AMD", js "֏"); (js "AZN", js "₼"); (js "BYN", js "Br");
   (js "MDL", js "L"); (js "KZT", js "₸"); (js "BTC", js "₿"); (js "ETH", js "Ξ");
   (js "USDT", js "₮"); (js "USDC", js "$"); (js "BNB", js "BNB"); (js "XRP", js "XRP");
   (js "ADA", js "₳"); (js "SOL", js "SOL"); (js "DOGE", js "Ð"); (js "DOT", js "DOT");
   (js "MATIC", js "MATIC"); (js "LTC", js "Ł"); (js "BCH", js "BCH"); (js "LINK", js "LINK");
   (js "XLM", js "XLM"); (js "ATOM", js "ATOM")].

Definition getCurrencySymbol (code : list N) : list N :=
  match List.find (fun kv => JsString.eqb (fst kv) code) currencySymbolTable with
  | Some (_, sym) => sym
  | None => code
  end.

(** [s.split('.')] and [parts.join('.')]. *)
Fixpoint split_on (sep : N) (s : list N) (cur : list N) : list (list N) :=
  match s with
  | [] => [rev cur]
  | c :: r => if (c =? sep) then rev cur :: split_on sep r [] else split_on sep r (c :: cur)
  end.

Fixpoint join_with (sep : list N) (parts : list (list N)) : list N :=
  match parts with
  | [] => []
  | [p] => p
  | p :: rest => p ++ sep ++ join_with sep rest
  end.

Definition thousandsPattern : RegExp := RE "/\B(?=(\d{3})+(?!\d))/g".

(** The thousand separators that the formatting code inserts into the
    integer part of a fixed-point text. *)
Definition groupThousands (formatted : list N) : list N :=
  match split_on (ch ".") formatted [] with
  | p :: rest => join_with (js ".") (Regex.replace thousandsPattern p (js ",") :: rest)
  | [] => []
  end.

(** [settings.decimalPlaces === 'auto' ? 2 : parseInt(settings.decimalPlaces || 2)];
    a text that is no number gives NaN, which [toFixed] reads as 0. *)
Definition decimalsSetting (s : Settings) : Z :=
  match decimalPlaces s with
  | Some d =>
    if JsString.eqb d (js "auto") then 2%Z
    else if truthy d then default 0%Z (parseInt d) else 2%Z
  | None => 2%Z
  end.

(** ** convertPriceRange *)
Definition convertPriceRange (g : Globals) (rangeData : RangeData)
  (targetCurrency : list N) : option (list N) :=
  let sourceRate := exchangeRates g !! rangeCurrency rangeData in
  let targetRate := exchangeRates g !! targetCurrency in
  if no_rate sourceRate || no_rate targetRate then None
  else
    match sourceRate, targetRate with
    | Some sr, Some tr =>
      let convertedMin := PrimFloat.mul (PrimFloat.div (minPrice rangeData) sr) tr in
      let convertedMax := PrimFloat.mul (PrimFloat.div (maxPrice rangeData) sr) tr in
      let decimals := decimalsSetting (settings g) in
      let fmt x := if useThousandSeparator (settings g)
                   then groupThousands (toFixed x decimals) else toFixed x decimals in
      let targetSymbol := getCurrencySymbol targetCurrency in
      Some (targetSymbol ++ fmt convertedMin ++ separator rangeData
            ++ targetSymbol ++ fmt convertedMax ++ js " " ++ targetCurrency)
    | _, _ => None
    end.

(* ===================================================================== *)
(** * content.js: the signals about an element *)
(* ===================================================================== *)

Definition saleKeywordsPattern : RegExp := RE "/\b(was|originally|reg\.|regular|list price|compare at|msrp|rrp)\b/i".
Definition discountContextPattern : RegExp := RE "/\b(save|off|discount|sale|clearance|reduced)\b/".
Definition saleClassPattern : RegExp := RE "/strike|through|original|was|old|compare|regular|msrp|rrp/i".

Record SaleInfo := mkSaleInfo {
  isOldPrice : bool;
  isSaleContext : bool;
  saleConfidence : Z
}.

(** ** detectSalePrice *)
Definition detectSalePrice (doc : Document) (element : nat) (e : Element) : SaleInfo :=
  let text := toLowerCase (textContent doc element) in
  let style := computedStyle e in
  let isStrikethrough :=
    includes (cs_textDecoration style) (js "line-through")
    || includes (cs_textDecorationLine style) (js "line-through") in
  let hasSaleKeywords := test saleKeywordsPattern text in
  let parentText := toLowerCase (parentTextContent doc element) in
  let hasDiscountContext := test discountContextPattern parentText in
  let hasSaleClass := test saleClassPattern (toLowerCase (classAndId e)) in
  mkSaleInfo (isStrikethrough || hasSaleKeywords || hasSaleClass) hasDiscountContext
    (bonus isStrikethrough 40 + bonus hasSaleKeywords 30 + bonus hasSaleClass 20
     + bonus hasDiscountContext 10)%Z.

Definition shippingKeywords : RegExp := RE "/\b(shipping|delivery|freight|postage|handling|ship|s&h|s\/h)\b/i".

(** ** isShippingCost *)
Definition isShippingCost (doc : Document) (element : nat) (e : Element) : bool :=
  let text := toLowerCase (textContent doc element) in
  let parentText := toLowerCase (parentTextContent doc element) in
  test shippingKeywords text
  || test shippingKeywords (toLowerCase (classAndId e))
  || test shippingKeywords (slice_to parentText 200).

Definition greenPattern : RegExp := RE "/rgb\(0,\s*128,\s*0\)|rgb\(34,\s*139,\s*34\)/i".
Definition redPattern : RegExp := RE "/rgb\(255,\s*0,\s*0\)|rgb\(220,\s*20,\s*60\)/i".

Definition neqb (a b : list N) : bool := negb (JsString.eqb a b).

(** ** analyzeVisualContext: the score.  [getComputedStyle] and
    [getBoundingClientRect] answer for every element, so the handler of
    the [try] is not entered. *)
Definition analyzeVisualContext (g : Globals) (e : Element) : Z :=
  let style := computedStyle e in
  let rect := boundingRect e in
  let isVisible :=
    neqb (cs_display style) (js "none")
    && neqb (cs_visibility style) (js "hidden")
    && neqb (cs_opacity style) (js "0")
    && PrimFloat.ltb zero (r_width rect)
    && PrimFloat.ltb zero (r_height rect) in
  if negb isVisible then 0%Z
  else
    let fontSize := parseFloat (cs_fontSize style) in
    let s1 := (50 + (if PrimFloat.leb (num "24") fontSize then 20
                     else if PrimFloat.leb (num "18") fontSize then 15
                     else if PrimFloat.leb (num "14") fontSize then 5
                     else -10))%Z in
    let fontWeight := match parseInt (cs_fontWeight style) with
                      | Some w => if (w =? 0)%Z then 400%Z else w
                      | None => 400%Z
                      end in
    let s2 := (s1 + (if (700 <=? fontWeight)%Z then 15
                     else if (600 <=? fontWeight)%Z then 10 else 0))%Z in
    let color := cs_color style in
    let s3 := (s2 + bonus (test greenPattern color) 10 + bonus (test redPattern color) 5)%Z in
    let viewportHeight := innerHeight g in
    let elementTop := r_top rect in
    let s4 := (s3 + (if PrimFloat.ltb elementTop (PrimFloat.mul viewportHeight (num "0.5"))
                     then 10
                     else if PrimFloat.ltb (PrimFloat.mul viewportHeight (num "1.5")) elementTop
                     then -5 else 0))%Z in
    let area := PrimFloat.mul (r_width rect) (r_height rect) in
    let s5 := (s4 + (if PrimFloat.ltb (num "5000") area then 15
                     else if PrimFloat.ltb (num "2000") area then 10
                     else if PrimFloat.ltb area (num "500") then -5 else 0))%Z in
    Z.min 100 (Z.max 0 s5).

Definition ariaPricePattern : RegExp := RE "/price|cost|amount/i".
Definition buyButtonPattern : RegExp := RE "/buy|cart|checkout/i".

Definition attr_is (e : Element) (name value : list N) : bool :=
  match getAttribute e name with
  | Some v => JsString.eqb v value
  | None => false
  end.

Definition attr_includes (e : Element) (name part : list N) : bool :=
  match getAttribute e name with
  | Some v => includes v part
  | None => false
  end.

(** ** analyzeSemanticHTML: the score. *)
Definition analyzeSemanticHTML (doc : Document) (element : nat) (e : Element) : Z :=
  let s :=
    (bonus (attr_is e (js "itemprop") (js "price")) 40
     + bonus (attr_is e (js "itemprop") (js "priceCurrency")) 30
     + bonus (attr_includes e (js "itemtype") (js "Offer")) 20
     + bonus (attr_includes e (js "itemtype") (js "Product")) 15
     + bonus (test ariaPricePattern (default [] (getAttribute e (js "aria-label")))) 25
     + bonus (truthy_opt (getAttribute e (js "data-price"))) 35
     + bonus (truthy_opt (getAttribute e (js "data-amount"))) 30
     + bonus (truthy_opt (getAttribute e (js "data-currency"))) 25
     + bonus (attr_is e (js "role") (js "button")
              && test buyButtonPattern (textContent doc element)) 10)%Z in
  Z.min 100 s.

Definition quantityPatterns : list string :=
  ["/(\d+)\s+for\s+([\$€£¥₹₪₽₩]\s*\d+[.,]?\d*)/i"%string;
   "/([\$€£¥₹₪₽₩]\s*\d+[.,]?\d*)\s+(?:each|per item|per unit|apiece)/i"%string;
   "/buy\s+\d+\s+get\s+\d+/i"%string].

Inductive QuantityInfo :=
| NotQuantityPrice
| BulkOffer
| QuantityPrice (priceText : list N).

Fixpoint quantityScan (patterns : list string) (text : list N) : QuantityInfo :=
  match patterns with
  | [] => NotQuantityPrice
  | lit :: rest =>
    match exec (RE lit) text with
    | Some m =>
      if includes (js lit) (js "buy") then BulkOffer
      else
        match or_str (group m 2) (group m 1) with
        | Some priceText =>
          if truthy priceText then QuantityPrice priceText else quantityScan rest text
        | None => quantityScan rest text
        end
    | None => quantityScan rest text
    end
  end.

(** ** detectQuantityPricing *)
Definition detectQuantityPricing (text : list N) : QuantityInfo :=
  if negb (truthy text) then NotQuantityPrice else quantityScan quantityPatterns text.

Definition multiCurrencyPattern : RegExp := RE "/(?:([\$€£¥₹₪₽₩]|USD|EUR|GBP|JPY)\s*(\d+[.,]?\d*))\s*\(([^)]+)\)/i".

(** ** detectMultiCurrency: the primary price, when there is one. *)
Definition detectMultiCurrency (text : list N) : option (list N) :=
  if negb (truthy text) then None
  else
    match exec multiCurrencyPattern text with
    | Some m =>
      if negb (truthy_opt (group m 1)) || negb (truthy_opt (group m 2)) then None
      else Some (default [] (group m 1) ++ js " " ++ default [] (group m 2))
    | None => None
    end.

Definition loneSymbolPattern : RegExp := RE "/^[\$€£¥₹₪₽₩]$/".
Definition decimalPartPattern : RegExp := RE "/^\.\d{1,2}$/".

(** The elements before and after [id] in a list of siblings. *)
Fixpoint neighbours (prev : option nat) (l : list nat) (id : nat)
  : option nat * option nat :=
  match l with
  | [] => (None, None)
  | x :: r => if (x =? id)%nat then (prev, hd_error r) else neighbours (Some x) r id
  end.

(** ** assembleCrossElementPrice *)
Definition assembleCrossElementPrice (doc : Document) (element : nat) : option (list N) :=
  match parentElement doc element with
  | None => None
  | Some parent =>
    let '(prevSibling, nextSibling) := neighbours None (children doc parent) element in
    let own := trim (textContent doc element) in
    let a1 :=
      match prevSibling with
      | Some p =>
        if test loneSymbolPattern (trim (textContent doc p))
        then trim (textContent doc p) ++ js " " ++ own else own
      | None => own
      end in
    let a2 :=
      match nextSibling with
      | Some n =>
        if test decimalPartPattern (trim (textContent doc n))
        then a1 ++ trim (textContent doc n) else a1
      | None => a1
      end in
    if neqb a2 own then Some a2 else None
  end.

Definition buyContextPattern : RegExp := RE "/buy now|add to cart|checkout|purchase/i".
Definition productClassPattern : RegExp := RE "/product|item|price/i".

Definition contextScore (doc : Document) (element : nat) (e : Element) : Z :=
  let parentText := toLowerCase (parentTextContent doc element) in
  (50 + bonus (test buyContextPattern (slice_to parentText 300)) 30
   + bonus (test productClassPattern (classAndId e)) 20)%Z.

Definition structScore (doc : Document) (element : nat) (e : Element) : Z :=
  let tagName := toLowerCase (tagName e) in
  (50 + bonus (existsb (JsString.eqb tagName) [js "span"; js "div"; js "strong"; js "b"]) 20
   + bonus (match parentElement doc element with
            | Some p => match element_at doc p with
                        | Some pe => classList_contains pe (js "price")
                        | None => false
                        end
            | None => false
            end) 30)%Z.

(** [score * weight], with the weight as the source writes it. *)
Definition weighted (score : Z) (weight : string) : float :=
  PrimFloat.mul (of_Z score) (num weight).

(** The sum that [scorePriceElement] rounds, from the five sub-scores. *)
Definition weightedSum (validation visual semantic contextual structural : Z) : float :=
  PrimFloat.add
    (PrimFloat.add
       (PrimFloat.add
          (PrimFloat.add
             (PrimFloat.add zero (weighted validation "0.25"))
             (weighted visual "0.20"))
          (weighted semantic "0.25"))
       (weighted contextual "0.15"))
    (weighted structural "0.15").

(** ** scorePriceElement: the total. *)
Definition scorePriceElement (g : Globals) (doc : Document) (element : nat)
  (e : Element) (text : list N) : Z :=
  round_Z (weightedSum (confidence (isProbablyPrice doc text element))
                       (analyzeVisualContext g e)
                       (analyzeSemanticHTML doc element e)
                       (contextScore doc element e)
                       (structScore doc element e)).

(* ===================================================================== *)
(** * content.js: text reconstruction and amounts *)
(* ===================================================================== *)

Definition zeroWidthPattern : RegExp := RE "/[\u200B-\u200D\uFEFF]/g".
Definition nbspPattern : RegExp := RE "/\u00A0/g".
Definition spacesPattern : RegExp := RE "/\s+/g".
Definition pricePrefixPattern : RegExp :=
  RE "/^(?:from|starting at|as low as|only|just|approximately|about|around)\s+/i".
Definition priceSuffixPattern : RegExp := RE "/\s+(?:each|per item|\/item|per unit|apiece)$/i".

(** ** normalizePriceText *)
Definition normalizePriceText (text : list N) : list N :=
  if negb (truthy text) then []
  else
    let normalized :=
      trim (Regex.replace spacesPattern
              (Regex.replace nbspPattern
                 (Regex.replace zeroWidthPattern text []) (js " ")) (js " ")) in
    Regex.replace priceSuffixPattern (Regex.replace pricePrefixPattern normalized []) [].

(** lib/patterns.js: FRAGMENTED_PRICE_RULES.aliexpress.validFragmentPattern,
    which [extractFragmentedPrice] prefers to its own default. *)
Definition validFragmentPattern : RegExp := RE "/^(US\s*\$|[A-Z]{2,3}|[\$€£¥₹₪₽₩฿₺₣₱₫₴]|\d+|[.,])$/".
Definition digitFragmentPattern : RegExp := RE "/^\d+$/".
Definition currencyFragmentPattern : RegExp := RE "/^(US\s*\$|[A-Z]{3}|[\$€£¥₹₪₽₩฿₺₣₱₫₴])$/".

(** A fragment of a price that is split over child elements. *)
Record Fragment := mkFragment {
  fragmentText : list N;
  isDecimal : bool;
  isDigit : bool;
  isCurrency : bool
}.

Definition styleAttribute (doc : Document) (span : nat) : list N :=
  match element_at doc span with
  | Some e => default [] (getAttribute e (js "style"))
  | None => []
  end.

(** The loop over the child spans: the fragments that are parts of a
    price, and whether a span carries currency metadata in its style. *)
Definition hasCurrencyMetadata (doc : Document) (childSpans : list nat) : bool :=
  existsb (fun span => includes (styleAttribute doc span) (js "currency-symbol:")
                       || includes (styleAttribute doc span) (js "is-price-power:"))
          childSpans.

Definition fragmentOf (text : list N) : Fragment :=
  mkFragment text
    (JsString.eqb text (js ".") || JsString.eqb text (js ","))
    (test digitFragmentPattern text)
    (test currencyFragmentPattern text).

Definition collectFragments (doc : Document) (childSpans : list nat) : list Fragment :=
  flat_map (fun span =>
              let text := trim (textContent doc span) in
              if negb (truthy text) then []
              else if test validFragmentPattern text then [fragmentOf text] else [])
           childSpans.

(** The spacing rule of the reassembly: what is put before a fragment
    that follows [prev]. *)
Definition spacing (prev fragment : Fragment) : list N :=
  if isDecimal fragment || isDecimal prev then []
  else if isDigit fragment && isDigit prev then []
  else if isCurrency prev then js " "
  else if isCurrency fragment && isDigit prev then js " "
  else [].

Fixpoint reassemble (reconstructed : list N) (prev : option Fragment)
  (fragments : list Fragment) : list N :=
  match fragments with
  | [] => reconstructed
  | fragment :: rest =>
    let gap := match prev with
               | Some p => if truthy reconstructed then spacing p fragment else []
               | None => []
               end in
    reassemble (reconstructed ++ gap ++ fragmentText fragment) (Some fragment) rest
  end.

Definition spaceBeforeDot : RegExp := RE "/\s+\./g".
Definition spaceAfterDot : RegExp := RE "/\.\s+/g".
Definition spaceBeforeComma : RegExp := RE "/\s+,/g".
Definition spaceAfterComma : RegExp := RE "/,\s+/g".

Definition cleanSeparators (reconstructed : list N) : list N :=
  trim (Regex.replace spaceAfterComma
          (Regex.replace spaceBeforeComma
             (Regex.replace spaceAfterDot
                (Regex.replace spaceBeforeDot reconstructed (js ".")) (js "."))
             (js ",")) (js ",")).

(** The text nodes that the tree walker of the fallback visits: those
    of the descendants, in document order, outside [script], [style]
    and [noscript] elements. *)
Fixpoint walkText (fuel : nat) (doc : Document) (id : nat) : list (list N) :=
  match fuel with
  | O => []
  | S f =>
    flat_map (fun k =>
                match doc !! k with
                | Some (mkNode _ (TextNode d)) => [d]
                | Some (mkNode _ (ElementNode e _)) =>
                  if has_tag [js "script"; js "style"; js "noscript"] e then []
                  else walkText f doc k
                | None => []
                end) (childNodes doc id)
  end.

Definition codeAtEnd : RegExp := RE "/[A-Z]{2,3}$/".
Definition symbolOrDigitAtStart : RegExp := RE "/^[\$€£¥₹₪₽₩฿₺₣₱₫₴\d]/".
Definition symbolAtEnd : RegExp := RE "/[\$€£¥₹₪₽₩฿₺₣₱₫₴]$/".
Definition digitAtStart : RegExp := RE "/^\d/".

Definition appendTextNode (text : list N) (data : list N) : list N :=
  let trimmed := trim data in
  let space :=
    if truthy trimmed && truthy text && negb (endsWith text (js " "))
       && negb (startsWith trimmed (js " "))
    then
      if (test codeAtEnd text && test symbolOrDigitAtStart trimmed)
         || (test symbolAtEnd text && test digitAtStart trimmed)
      then js " " else []
    else [] in
  text ++ space ++ trimmed.

Definition getAllText (doc : Document) (el : nat) : list N :=
  trim (fold_left appendTextNode (walkText (S (size doc)) doc el) []).

Definition completePriceSymbol : RegExp := RE "/[\$€£¥₹₪₽₩฿₺₣₱₫₴]|USD|EUR|GBP|ILS|JPY|CNY/".
Definition anyDigit : RegExp := RE "/\d/".
Definition symbolNumberPattern : RegExp := RE "/[\$€£¥₹₪₽₩฿₺₣₱₫₴]\s*\d+/g".

(** ** extractFragmentedPrice, for an element that exists. *)
Definition extractFragmentedPrice (doc : Document) (element : nat) : list N :=
  let childSpans :=
    querySelectorAll_tags doc element [js "span"; js "b"; js "strong"; js "em"] in
  let fragments := collectFragments doc childSpans in
  let hasReasonablePattern :=
    (2 <=? length fragments)%nat && existsb isCurrency fragments
    && existsb isDigit fragments in
  let reconstructed :=
    if (2 <=? length childSpans)%nat
       && (hasCurrencyMetadata doc childSpans || hasReasonablePattern)
       && (2 <=? length fragments)%nat
    then reassemble [] None fragments else [] in
  if truthy reconstructed then normalizePriceText (cleanSeparators reconstructed)
  else
    let combinedText := getAllText doc element in
    let hasCompletePrice :=
      test completePriceSymbol combinedText && test anyDigit combinedText in
    let combinedText' :=
      match parentElement doc element with
      | Some p =>
        if (length combinedText <? 10)%nat && negb hasCompletePrice then
          let parentText := getAllText doc p in
          let priceCount := length (matchAll symbolNumberPattern parentText) in
          if (length combinedText <? length parentText)%nat
             && (length parentText <? 100)%nat && (priceCount <=? 1)%nat
          then parentText else combinedText
        else combinedText
      | None => combinedText
      end in
    normalizePriceText combinedText'.

Inductive Separator := comma | dot | none.

Definition europeanCurrencies : list (list N) :=
  [js "EUR"; js "DKK"; js "SEK"; js "NOK"; js "PLN"; js "CZK"; js "HUF"; js "RON";
   js "BGN"; js "HRK"].

Definition leadingDigits : RegExp := RE "/^\d+/".

(** [text.slice(i + 1).match(/^\d+/)?.[0]?.length || 0] *)
Definition digitsAfter (text : list N) (i : nat) : nat :=
  match exec leadingDigits (slice_from text (S i)) with
  | Some m => length (default [] (group m 0))
  | None => O
  end.

(** ** detectDecimalSeparator *)
Definition detectDecimalSeparator (text : list N) (currency : list N) : Separator :=
  let preferComma := existsb (JsString.eqb currency) europeanCurrencies in
  match lastIndexOf text (js ","), lastIndexOf text (js ".") with
  | Some lastCommaIndex, Some lastDotIndex =>
    let afterComma := digitsAfter text lastCommaIndex in
    let afterDot := digitsAfter text lastDotIndex in
    if (lastDotIndex <? lastCommaIndex)%nat && (afterComma =? 2)%nat then comma
    else if (lastCommaIndex <? lastDotIndex)%nat && (afterDot =? 2)%nat then dot
    else if (lastDotIndex <? lastCommaIndex)%nat then comma else dot
  | Some lastCommaIndex, None =>
    let afterComma := digitsAfter text lastCommaIndex in
    if (afterComma =? 2)%nat || (afterComma =? 1)%nat then comma
    else if preferComma then comma else dot
  | None, Some lastDotIndex =>
    let afterDot := digitsAfter text lastDotIndex in
    if (afterDot =? 2)%nat || (afterDot =? 1)%nat then dot
    else if preferComma then comma else dot
  | None, None => none
  end.

Definition abbreviatedPattern : RegExp :=
  RE "/([€£¥₹₪₽₩฿₺₣₱₫₴\$]|USD|EUR|GBP|JPY|INR|ILS|CAD|AUD|CHF|CNY|BRL|RUB|KRW|THB|TRY)\s*(\d+(?:[.,]\d+)?)\s*([KkMmBbTt])\b/i".

(** The cascade of [extractAmount], as literals: the test on
    [pattern.source] reads their text. *)
Definition amountPatterns : list string :=
  ["/US\s*\$\s*(\d{1,3}(?:[,.\s]\d{3})*(?:[.,]\d{1,2})?)/i"%string;
   "/[€£¥₹₪₽₩฿₺₣₱₫₴]\s*(\d{1,3}(?:[,.\s]\d{3})*(?:[.,]\d{1,2})?)/"%string;
   "/[CANZHSR]\$\s*(\d{1,3}(?:[,.\s]\d{3})*(?:[.,]\d{1,2})?)/"%string;
   "/NT\$\s*(\d{1,3}(?:[,.\s]\d{3})*(?:[.,]\d{1,2})?)/"%string;
   "/(\d{1,3}(?:[,.\s]\d{3})*(?:[.,]\d{1,2})?)\s*(?:zł|Kč|Ft|lei|kr)/"%string;
   "/\$\s*(\d{1,3}(?:[,.\s]\d{3})*(?:[.,]\d{1,2})?)/"%string;
   "/(?:USD|EUR|GBP|JPY|INR|ILS|CAD|AUD|CHF|CNY|BRL|RUB|KRW|THB|TRY|ZAR|SEK|NOK|DKK|PLN|CZK|HUF|MXN|NZD|SGD|HKD|TWD|AED|SAR|PHP|VND|UAH|RON|ISK|KWD|QAR|EGP)?\s*(\d{1,3}(?:[,.\s]\d{3})*(?:[.,]\d{1,2})?)\s*(?:USD|EUR|GBP|JPY|INR|ILS|CAD|AUD|CHF|CNY|BRL|RUB|KRW|THB|TRY|ZAR|SEK|NOK|DKK|PLN|CZK|HUF|MXN|NZD|SGD|HKD|TWD|AED|SAR|PHP|VND|UAH|RON|ISK|KWD|QAR|EGP)?/i"%string;
   "/[د\.إ﷼]\s*(\d{1,3}(?:[,.\s]\d{3})*(?:[.,]\d{1,2})?)/"%string;
   "/US\s*\$?\s*(\d+)\s*\.?\s*(\d+)/i"%string;
   "/\$\s*(\d+)\s*\.?\s*(\d+)/"%string;
   "/(\d{1,3}(?:[,.\s]\d{3})*(?:[.,]\d{1,2})?)/"%string].

Definition anySpace : RegExp := RE "/\s/g".
Definition allDots : RegExp := RE "/\./g".
Definition allCommas : RegExp := RE "/,/g".
Definition allSeparators : RegExp := RE "/[,.]/g".

Definition multiplierOf (suffix : list N) : float :=
  if JsString.eqb suffix (js "K") then num "1000"
  else if JsString.eqb suffix (js "M") then num "1000000"
  else if JsString.eqb suffix (js "B") then num "1000000000"
  else if JsString.eqb suffix (js "T") then num "1000000000000"
  else num "1".

(** The number that a matched amount text denotes, once its separators
    are resolved. *)
Definition cleanAmount (amountStr : list N) (currency : list N) : float :=
  let cleaned := Regex.replace nbspPattern (Regex.replace anySpace amountStr []) [] in
  parseFloat
    match detectDecimalSeparator cleaned currency with
    | comma => replace_first (Regex.replace allDots cleaned []) (js ",") (js ".")
    | dot => Regex.replace allCommas cleaned []
    | none => Regex.replace allSeparators cleaned []
    end.

(** The amount text of a match: group 1 or else group 2, and both
    joined by a point for the two patterns that read split digits. *)
Definition amountText (lit : string) (m : MatchResult) : option (list N) :=
  if truthy_opt (group m 1) && truthy_opt (group m 2)
     && includes (js lit) (js "\d+") && includes (js lit) (js "\d+")
  then Some (default [] (group m 1) ++ js "." ++ default [] (group m 2))
  else or_str (group m 1) (group m 2).

Fixpoint amountScan (patterns : list string) (text currency : list N) : option float :=
  match patterns with
  | [] => None
  | lit :: rest =>
    match exec (RE lit) text with
    | Some m =>
      match amountText lit m with
      | Some amountStr =>
        if truthy amountStr then
          let result := cleanAmount amountStr currency in
          if negb (isNaN result) && isFinite result && PrimFloat.ltb zero result
          then Some result else amountScan rest text currency
        else amountScan rest text currency
      | None => amountScan rest text currency
      end
    | None => amountScan rest text currency
    end
  end.

(** ** extractAmount; [None] is [null]. *)
Definition extractAmount (doc : Document) (text : list N) (currency : list N)
  (element : option nat) : option float :=
  let text0 := normalizePriceText text in
  let text :=
    match element with
    | Some el =>
      let fragmentedText := extractFragmentedPrice doc el in
      if truthy fragmentedText && neqb fragmentedText text0
         && (length text0 <? length fragmentedText)%nat
      then fragmentedText else text0
    | None => text0
    end in
  match exec abbreviatedPattern text with
  | Some m =>
    let baseAmount :=
      parseFloat (replace_first (default [] (group m 2)) (js ",") (js ".")) in
    let suffix := toUpperCase (default [] (group m 3)) in
    Some (PrimFloat.mul baseAmount (multiplierOf suffix))
  | None => amountScan amountPatterns text currency
  end.

(* ===================================================================== *)
(** * content.js: applying a conversion *)
(* ===================================================================== *)

Definition leadingSpacePattern : RegExp := RE "/^\s*/".
Definition trailingSpacePattern : RegExp := RE "/\s*$/".
Definition fullCodePattern : RegExp :=
  RE "/\b(USD|EUR|GBP|JPY|CNY|INR|ILS|CAD|AUD|CHF|BRL|RUB|KRW|THB|TRY|ZAR|SEK|NOK|DKK|PLN|CZK|HUF|MXN|NZD|SGD|HKD|TWD|AED|SAR|PHP|VND|UAH|RON|ISK|KWD|QAR|EGP)\s+[\d.,]+/i".
Definition shortCodeWithSymbolPattern : RegExp := RE "/\b(US|HK|AU|CA|NZ|SG|C|A|S)\s*[\$€£¥₹₪₽₩]/i".
Definition symbolPattern : RegExp := RE "/[\$€£¥₹₪₽₩]/".
Definition spaceAfterSymbolPattern : RegExp := RE "/[\$€£¥₹₪₽₩]\s+\d/".

Definition matched (re : RegExp) (s : list N) : list N :=
  match exec re s with
  | Some m => default [] (group m 0)
  | None => []
  end.

(** ** generateConvertedText *)
Definition generateConvertedText (originalPrice : list N) (convertedAmount : float)
  (targetCurrency : list N) : list N :=
  let targetSymbol := getCurrencySymbol targetCurrency in
  let leadingSpace := matched leadingSpacePattern originalPrice in
  let trailingSpace := matched trailingSpacePattern originalPrice in
  let trimmedPrice := trim originalPrice in
  let hasFullCode := test fullCodePattern trimmedPrice in
  let hasShortCodeWithSymbol := test shortCodeWithSymbolPattern trimmedPrice in
  let hasSymbol := test symbolPattern trimmedPrice in
  let hasSpaceAfterSymbol := test spaceAfterSymbolPattern trimmedPrice in
  let spacer := if hasSpaceAfterSymbol then js " " else [] in
  let result :=
    if hasFullCode && negb hasSymbol
    then targetCurrency ++ js " " ++ toFixed convertedAmount 2
    else if hasShortCodeWithSymbol
    then targetCurrency ++ js " " ++ targetSymbol ++ spacer ++ toFixed convertedAmount 2
    else targetSymbol ++ spacer ++ toFixed convertedAmount 2 in
  leadingSpace ++ result ++ trailingSpace.

(** ** getHighlightColors: the border colour. *)
Definition highlightBorderColor (g : Globals) : list N :=
  if JsString.eqb (currentTheme g) (js "dark") then js "#43b581"
  else if JsString.eqb (currentTheme g) (js "vibrant") then js "#f59e0b"
  else if JsString.eqb (currentTheme g) (js "minimal") then js "#6b7280"
  else if JsString.eqb (currentTheme g) (js "professional") then js "#3b82f6"
  else js "#7c3aed".

(** [parseFloat(s) || d] *)
Definition parseFloat_or (s : list N) (d : float) : float :=
  if truthy_num (parseFloat s) then parseFloat s else d.

(** ** getPreservedStyles: the style object, as the assignments that
    [applyPreservedStyles] makes from it. *)
Definition prominent (doc : Document) (acc : float * list N * list N) (child : nat)
  : float * list N * list N :=
  match element_at doc child with
  | Some c =>
    let childFontSize := parseFloat_or (cs_fontSize (computedStyle c)) zero in
    if PrimFloat.ltb (fst (fst acc)) childFontSize
    then (childFontSize, cs_color (computedStyle c), cs_fontWeight (computedStyle c))
    else acc
  | None => acc
  end.

Definition getPreservedStyles (doc : Document) (element : nat) (e : Element)
  : list (list N * list N) :=
  let computed := computedStyle e in
  let children :=
    querySelectorAll_tags doc element [js "span"; js "div"; js "strong"; js "b"] in
  let '(largestFontSize, prominentColor, prominentWeight) :=
    fold_left (prominent doc) children
      (parseFloat_or (cs_fontSize computed) (num "12"), cs_color computed,
       cs_fontWeight computed) in
  [(js "color", prominentColor);
   (js "fontSize", toString largestFontSize ++ js "px");
   (js "fontWeight", prominentWeight);
   (js "fontFamily", cs_fontFamily computed);
   (js "lineHeight", cs_lineHeight computed);
   (js "letterSpacing", cs_letterSpacing computed);
   (js "textDecoration", cs_textDecoration computed);
   (js "textTransform", cs_textTransform computed)].

Definition applyStyles (styles : list (list N * list N)) (e : Element) : Element :=
  fold_left (fun e' pv => setStyle e' (fst pv) (snd pv)) styles e.

(** ** setupPriceContextMenu: the cursor and the listener. *)
Definition setupPriceContextMenu (g : Globals) (e : Element) : Element :=
  addContextMenuListener
    (if replacePrice (settings g) then e else setStyle e (js "cursor") (js "context-menu")).

(** The scan state: the document and the set of processed elements. *)
Record State := mkState {
  document : Document;
  processedElements : gset nat
}.

Definition dataset_set (name value : list N) (e : Element) : Element :=
  setAttribute e name value.

Definition highlight (g : Globals) (width : string) (e : Element) : Element :=
  if highlightPrices (settings g)
  then setStyle (setStyle e (js "borderBottom")
                   (js width ++ js " dotted " ++ highlightBorderColor g))
                (js "cursor") (js "help")
  else e.

(** ** applyConversion *)
Definition applyConversion (g : Globals) (doc : Document) (element : nat)
  (amount : float) (sourceCurrency : list N) (convertedAmount : float)
  (targetCurrency : list N) : Document :=
  match element_at doc element with
  | None => doc
  | Some e0 =>
    let stored := getAttribute e0 (js "data-original-price") in
    let doc1 :=
      if truthy_opt stored then doc
      else update_element doc element
             (dataset_set (js "data-original-price") (textContent doc element)) in
    let originalPrice :=
      if truthy_opt stored then default [] stored
      else textContent doc element in
    let convertedText := generateConvertedText originalPrice convertedAmount targetCurrency in
    let doc2 :=
      update_element doc1 element
        (fun e =>
           dataset_set (js "data-converted-text") convertedText
             (dataset_set (js "data-target-amount") (toFixed convertedAmount 2)
                (dataset_set (js "data-source-amount") (toString amount)
                   (dataset_set (js "data-source-currency") sourceCurrency
                      (dataset_set (js "data-converted") (js "true") e))))) in
    let doc3 :=
      if replacePrice (settings g) then
        let originalStyles :=
          match element_at doc2 element with
          | Some e => getPreservedStyles doc2 element e
          | None => []
          end in
        let normalizedOriginal := collapseSpaces originalPrice in
        update_element (set_textContent doc2 element convertedText) element
          (fun e =>
             let e1 := setAttribute e (js "title")
                         (js "Original: " ++ normalizedOriginal ++ js " ("
                          ++ sourceCurrency ++ js ")") in
             let e2 := applyStyles originalStyles e1 in
             if highlightPrices (settings g)
             then setStyle e2 (js "borderBottom")
                    (js "1px dotted " ++ highlightBorderColor g)
             else e2)
      else
        update_element doc2 element
          (fun e =>
             let e1 :=
               if showInlineConversion (settings g) then
                 let normalizedText := collapseSpaces convertedText in
                 setAttribute e (js "title")
                   (if startsWith normalizedText targetCurrency then normalizedText
                    else normalizedText ++ js " " ++ targetCurrency)
               else e in
             highlight g "2px" e1) in
    update_element doc3 element (setupPriceContextMenu g)
  end.

(* ===================================================================== *)
(** * content.js: convertPrices, the selector-based pass *)
(* ===================================================================== *)

(** How the body of a loop ends for one element: [continue] without a
    count, with [skipped++], with [converted++] on the range path
    (which continues at once), or with [converted++] on the
    single-price path (after which the cap of 100 is tested). *)
Inductive Outcome := Ignored | Skipped | ConvertedRange | Converted.

Definition mark_processed (st : State) (doc : Document) (element : nat) : State :=
  mkState doc ({[element]} ∪ processedElements st).

(** The data that the range path stores on the element. *)
Definition storeRange (rangeData : RangeData) (normalizedOriginal convertedRange : list N)
  (e : Element) : Element :=
  dataset_set (js "data-converted-text") convertedRange
    (dataset_set (js "data-range-max") (toString (maxPrice rangeData))
       (dataset_set (js "data-range-min") (toString (minPrice rangeData))
          (dataset_set (js "data-is-range") (js "true")
             (dataset_set (js "data-source-currency") (rangeCurrency rangeData)
                (dataset_set (js "data-original-price") normalizedOriginal
                   (dataset_set (js "data-converted") (js "true") e)))))).

(** The display of a converted range, as both loops write it. *)
Definition showRange (g : Globals) (doc : Document) (element : nat)
  (normalizedOriginal convertedRange : list N) : Document :=
  if replacePrice (settings g) then
    update_element (set_textContent doc element convertedRange) element
      (fun e => setAttribute e (js "title") (js "Original: " ++ normalizedOriginal))
  else if showInlineConversion (settings g) then
    update_element doc element
      (fun e => highlight g "2px"
                  (setAttribute e (js "title") (collapseSpaces convertedRange)))
  else doc.

(** The range path of the selector-based pass; [None] when the loop
    body goes on with the single-price path. *)
Definition rangePath (g : Globals) (st : State) (element : nat) (originalText : list N)
  : option (State * Outcome) :=
  let doc := document st in
  let target := defaultTargetCurrency (settings g) in
  match detectPriceRange g doc originalText with
  | None => None
  | Some rangeData =>
    if truthy (rangeCurrency rangeData) && neqb (rangeCurrency rangeData) target then
      match convertPriceRange g rangeData target with
      | Some convertedRange =>
        if truthy convertedRange then
          let normalizedOriginal := collapseSpaces originalText in
          let doc1 := update_element doc element
                        (storeRange rangeData normalizedOriginal convertedRange) in
          let doc2 := showRange g doc1 element normalizedOriginal convertedRange in
          Some (mark_processed st doc2 element, ConvertedRange)
        else None
      | None => None
      end
    else Some (mark_processed st doc element, Skipped)
  end.

(** lib/patterns.js: FRAGMENTED_PRICE_RULES.aliexpress *)
Definition stylePatterns : list (list N) :=
  [js "currency-symbol:"; js "is-price-power:"; js "decimal_point:";
   js "comma_style:"; js "show-decimal:"; js "symbol_position:"].
Definition containerClasses : list (list N) :=
  [js "k7_gz"; js "k7_lu"; js "kr_lo"; js "_3Mpbo"].
Definition amazonPriceClasses : list (list N) :=
  [js "a-price-symbol"; js "a-price-whole"; js "a-price-fraction"; js "a-price-decimal"].

Definition smallSpanPattern : RegExp := RE "/^[\d\.$€£¥₹₪₽₩,.]+$/".
Definition fragmentCurrencyPattern : RegExp := RE "/[\$€£¥₹₪₽₩]|USD|EUR|GBP|ILS|JPY|CNY|US\s*\$/".

(** The detection of a fragmented price container: whether the
    element is one. *)
Definition isFragmentedPrice (doc : Document) (element : nat) (e : Element)
  (text : list N) : bool :=
  let childSpans :=
    querySelectorAll_tags doc element [js "span"; js "b"; js "strong"; js "em"] in
  if (2 <=? length childSpans)%nat then
    let hasAmazonPriceStructure :=
      match querySelector_classes doc element amazonPriceClasses with
      | Some _ => true
      | None => false
      end in
    let hasAliExpressMetadata :=
      existsb (fun span => existsb (includes (styleAttribute doc span)) stylePatterns)
              childSpans in
    let hasAliExpressContainer := existsb (includes (className e)) containerClasses in
    let hasSmallSpans :=
      existsb (fun span =>
                 let spanText := trim (textContent doc span) in
                 (length spanText <=? 3)%nat && test smallSpanPattern spanText)
              childSpans in
    let hasCurrencySymbol := test fragmentCurrencyPattern text in
    (hasAmazonPriceStructure || hasAliExpressMetadata || hasAliExpressContainer
     || hasSmallSpans) && hasCurrencySymbol
  else false.

(** The text of the candidate when the confidence gate is reached:
    the fragmented text for a fragmented container, then the text
    assembled with the siblings when there is one. *)
Definition candidateText (doc : Document) (element : nat) (fragmented : bool)
  (text : list N) : list N :=
  let text1 :=
    if fragmented then
      let fragmentedPrice := extractFragmentedPrice doc element in
      if truthy fragmentedPrice then fragmentedPrice else text
    else text in
  match assembleCrossElementPrice doc element with
  | Some assembledPrice => if truthy assembledPrice then assembledPrice else text1
  | None => text1
  end.

(** [!amount || amount <= 0 || amount > 1000000000] *)
Definition implausible (amount : option float) : bool :=
  match amount with
  | Some a => negb (truthy_num a) || PrimFloat.leb a zero
              || PrimFloat.ltb (num "1000000000") a
  | None => true
  end.

(** The end of both loop bodies, from the detected currency on: the
    amount is extracted and converted, and the conversion applied. *)
Definition convertCandidate (g : Globals) (st : State) (element : nat)
  (text sourceCurrency : list N) : State * Outcome :=
  let doc := document st in
  let target := defaultTargetCurrency (settings g) in
  let amount := extractAmount doc text sourceCurrency (Some element) in
  if implausible amount then (st, Ignored)
  else
    match amount with
    | Some a =>
      match calculateConversion g a sourceCurrency target with
      | Some convertedAmount =>
        if truthy_num convertedAmount then
          (mark_processed st
             (applyConversion g doc element a sourceCurrency convertedAmount target)
             element, Converted)
        else (st, Ignored)
      | None => (st, Ignored)
      end
    | None => (st, Ignored)
    end.

(** The text that currency detection receives: the primary price of a
    multi-currency display, then the price part of a quantity offer. *)
Definition primaryText (text : list N) : list N :=
  match detectMultiCurrency text with
  | Some primaryPrice => primaryPrice
  | None => text
  end.

Definition pricePart (text : list N) : list N :=
  match detectQuantityPricing (primaryText text) with
  | QuantityPrice priceText => priceText
  | _ => primaryText text
  end.

(** The text that amount extraction receives: for a detected range,
    its lower price and currency. *)
Definition amountSource (g : Globals) (doc : Document) (text sourceCurrency : list N)
  : list N :=
  match detectPriceRange g doc text with
  | Some priceRange =>
    toString (minPrice priceRange) ++ js " "
    ++ (if truthy (rangeCurrency priceRange) then rangeCurrency priceRange
        else sourceCurrency)
  | None => text
  end.

(** The selector-based pass after the confidence gate. *)
Definition afterGate (g : Globals) (st : State) (element : nat) (e : Element)
  (text : list N) : State * Outcome :=
  let doc := document st in
  let target := defaultTargetCurrency (settings g) in
  match detectQuantityPricing (primaryText text) with
  | BulkOffer => (st, Skipped)
  | _ =>
    if isShippingCost doc element e then (st, Skipped)
    else
      let saleInfo := detectSalePrice doc element e in
      if isOldPrice saleInfo && (50 <? saleConfidence saleInfo)%Z then (st, Skipped)
      else
        match detectCurrency g doc (pricePart text) (Some element) with
        | None => (st, Ignored)
        | Some sourceCurrency =>
          if negb (truthy sourceCurrency) then (st, Ignored)
          else if JsString.eqb sourceCurrency target then (st, Skipped)
          else
            convertCandidate g st element
              (amountSource g doc (pricePart text) sourceCurrency) sourceCurrency
        end
  end.

(** The confidence gate. *)
Definition confidenceGate (g : Globals) (st : State) (element : nat) (e : Element)
  (fragmented : bool) (total : Z) (text : list N) : State * Outcome :=
  if negb fragmented && (total <? 60)%Z then (st, Skipped)
  else afterGate g st element e text.

(** The loop body up to the confidence gate: either it ends there, or
    the candidate reaches the gate as an element, the flag of a
    fragmented price, and a text. *)
Inductive GateInput :=
| EndsBefore (result : State * Outcome)
| ReachesGate (e : Element) (fragmented : bool) (text : list N).

Definition beforeGate (g : Globals) (st : State) (element : nat) : GateInput :=
  let doc := document st in
  if decide (element ∈ processedElements st) then EndsBefore (st, Ignored)
  else
    match element_at doc element with
    | None => EndsBefore (st, Ignored)
    | Some e =>
      if attr_is e (js "data-converted") (js "true") then EndsBefore (st, Ignored)
      else
        let originalText := textContent doc element in
        if negb (truthy originalText) || (150 <? length originalText)%nat
        then EndsBefore (st, Ignored)
        else
          match rangePath g st element originalText with
          | Some result => EndsBefore result
          | None =>
            let text := normalizePriceText originalText in
            if negb (truthy text) then EndsBefore (st, Ignored)
            else
              let fragmented := isFragmentedPrice doc element e text in
              ReachesGate e fragmented (candidateText doc element fragmented text)
          end
    end.

(** The body of the loop over the elements that the price selectors
    match. *)
Definition selectorStep (g : Globals) (st : State) (element : nat) : State * Outcome :=
  match beforeGate g st element with
  | EndsBefore result => result
  | ReachesGate e fragmented text =>
    confidenceGate g st element e fragmented
      (scorePriceElement g (document st) element e text) text
  end.

(** The loop: the counts go on from those of the earlier passes, and
    the loop ends early when a single-price conversion brings the
    count to 100. *)
Fixpoint selectorLoop (g : Globals) (st : State) (priceElements : list nat)
  (converted skipped : nat) : State * nat * nat :=
  match priceElements with
  | [] => (st, converted, skipped)
  | element :: rest =>
    match selectorStep g st element with
    | (st', Ignored) => selectorLoop g st' rest converted skipped
    | (st', Skipped) => selectorLoop g st' rest converted (S skipped)
    | (st', ConvertedRange) => selectorLoop g st' rest (S converted) skipped
    | (st', Converted) =>
      if (100 <=? S converted)%nat then (st', S converted, skipped)
      else selectorLoop g st' rest (S converted) skipped
    end
  end.

(* ===================================================================== *)
(** * content.js: convertPrices, the text-node strategy *)
(* ===================================================================== *)

(** lib/regex.js *)
Definition HAS_CURRENCY_REGEX : RegExp :=
  RE "/[$€£¥₹₪₽₩฿₺₣₱₫₴złKčFtlei]|\b(?:USD|EUR|GBP|JPY|INR|ILS|CAD|AUD|CHF|CNY|BRL|RUB|KRW|THB|TRY|ZAR|SEK|NOK|DKK|PLN|CZK|HUF|MXN|NZD|SGD|HKD|TWD|AED|SAR|PHP|VND|UAH|RON|ISK|KWD|QAR|EGP)\b/i".

(** The text nodes below a node, in document order. *)
Fixpoint textNodesBelow (fuel : nat) (doc : Document) (id : nat) : list nat :=
  match fuel with
  | O => []
  | S f =>
    flat_map (fun k =>
                match doc !! k with
                | Some (mkNode _ (TextNode _)) => [k]
                | Some (mkNode _ (ElementNode _ _)) => textNodesBelow f doc k
                | None => []
                end) (childNodes doc id)
  end.

(** The filter of the tree walker. *)
Definition acceptNode (st : State) (node : nat) : bool :=
  let doc := document st in
  match parentElement doc node with
  | None => false
  | Some parent =>
    match element_at doc parent with
    | None => false
    | Some pe =>
      let tagName := toLowerCase (tagName pe) in
      if existsb (JsString.eqb tagName) [js "script"; js "style"; js "noscript"] then false
      else if decide (parent ∈ processedElements st) then false
      else if attr_is pe (js "data-converted") (js "true") then false
      else
        let text := trim (textContent doc node) in
        test HAS_CURRENCY_REGEX text && test anyDigit text
    end
  end.

(** The nodes that the walker collects: the first 100 accepted ones. *)
Definition collectTextNodes (st : State) (body : nat) : list nat :=
  firstn 100 (List.filter (acceptNode st)
                (textNodesBelow (S (size (document st))) (document st) body)).

(** The range path of the text-node strategy. *)
Definition textRangePath (g : Globals) (st : State) (parent : nat) (text : list N)
  : option (State * Outcome) :=
  let doc := document st in
  let target := defaultTargetCurrency (settings g) in
  match detectPriceRange g doc text with
  | None => None
  | Some rangeData =>
    if JsString.eqb (rangeCurrency rangeData) target
    then Some (mark_processed st doc parent, Skipped)
    else
      match convertPriceRange g rangeData target with
      | Some convertedRange =>
        if truthy convertedRange then
          let normalizedOriginal := collapseSpaces text in
          let doc1 := update_element doc parent
                        (storeRange rangeData normalizedOriginal convertedRange) in
          let doc2 := showRange g doc1 parent normalizedOriginal convertedRange in
          Some (mark_processed st doc2 parent, ConvertedRange)
        else None
      | None => None
      end
  end.

(** The body of the loop over the collected text nodes. *)
Definition textNodeStep (g : Globals) (st : State) (textNode : nat) : State * Outcome :=
  let doc := document st in
  let target := defaultTargetCurrency (settings g) in
  match parentElement doc textNode with
  | None => (st, Ignored)
  | Some parent =>
    if decide (parent ∈ processedElements st) then (st, Ignored)
    else if match element_at doc parent with
            | Some pe => attr_is pe (js "data-converted") (js "true")
            | None => false
            end then (st, Ignored)
    else
      let text := trim (textContent doc textNode) in
      match textRangePath g st parent text with
      | Some result => result
      | None =>
        match detectCurrency g doc text (Some parent) with
        | None => (st, Ignored)
        | Some sourceCurrency =>
          if negb (truthy sourceCurrency) then (st, Ignored)
          else if JsString.eqb sourceCurrency target then (st, Skipped)
          else convertCandidate g st parent text sourceCurrency
        end
      end
  end.

Fixpoint textNodeLoop (g : Globals) (st : State) (textNodes : list nat)
  (converted skipped : nat) : State * nat * nat :=
  match textNodes with
  | [] => (st, converted, skipped)
  | textNode :: rest =>
    match textNodeStep g st textNode with
    | (st', Ignored) => textNodeLoop g st' rest converted skipped
    | (st', Skipped) => textNodeLoop g st' rest converted (S skipped)
    | (st', ConvertedRange) => textNodeLoop g st' rest (S converted) skipped
    | (st', Converted) =>
      if (100 <=? S converted)%nat then (st', S converted, skipped)
      else textNodeLoop g st' rest (S converted) skipped
    end
  end.

(** ** convertPrices, from the selector-based pass on.

    The thirteen detection passes that run first are represented by
    what they leave: the state [st] and the counts [converted] and
    [skipped].  [priceElements] is the list that
    [document.querySelectorAll(selectors.join(','))] returns, and
    [body] is [document.body]. *)
Definition convertPrices (g : Globals) (st : State) (priceElements : list nat)
  (body : nat) (converted skipped : nat) : State * nat * nat :=
  let '(st1, converted1, skipped1) :=
    selectorLoop g st priceElements converted skipped in
  if (converted1 <? 100)%nat
  then textNodeLoop g st1 (collectTextNodes st1 body) converted1 skipped1
  else (st1, converted1, skipped1).

(* ===================================================================== *)
(** * content.js: the helpers of the page currency detection *)
(* ===================================================================== *)

(** A value that [JSON.parse] returns.  The properties of an object
    are listed in the order in which [for ... in] enumerates them,
    each name once; nothing enumerable is inherited. *)
#[warnings="-register-all"]
Inductive Json :=
| JNull
| JBool (b : bool)
| JNumber (x : float)
| JString (s : list N)
| JArray (items : list Json)
| JObject (props : list (list N * Json)).

Definition truthyJson (v : Json) : bool :=
  match v with
  | JNull => false
  | JBool b => b
  | JNumber x => truthy_num x
  | JString s => truthy s
  | JArray _ | JObject _ => true
  end.

(** [typeof v === 'object'] *)
Definition isObjectType (v : Json) : bool :=
  match v with
  | JNull | JArray _ | JObject _ => true
  | _ => false
  end.

(** [obj.name] when it is truthy. *)
Definition truthyProperty (props : list (list N * Json)) (name : string) : option Json :=
  match List.find (fun kv => JsString.eqb (fst kv) (js name)) props with
  | Some (_, v) => if truthyJson v then Some v else None
  | None => None
  end.

(** The three fields that [findCurrencyInObject] checks, in its order. *)
Definition ownCurrency (props : list (list N * Json)) : option Json :=
  match truthyProperty props "priceCurrency" with
  | Some v => Some v
  | None =>
    match truthyProperty props "currency" with
    | Some v => Some v
    | None => truthyProperty props "currencyCode"
    end
  end.

(** ** findCurrencyInObject; [None] is [null]. *)
Fixpoint findCurrencyInObject (obj : Json) : option Json :=
  match obj with
  | JObject props =>
    match ownCurrency props with
    | Some v => Some v
    | None =>
      (fix search (ps : list (list N * Json)) : option Json :=
         match ps with
         | [] => None
         | (_, v) :: rest =>
           if isObjectType v then
             match findCurrencyInObject v with
             | Some result => if truthyJson result then Some result else search rest
             | None => search rest
             end
           else search rest
         end) props
    end
  | JArray items =>
    (fix search (vs : list Json) : option Json :=
       match vs with
       | [] => None
       | v :: rest =>
         if isObjectType v then
           match findCurrencyInObject v with
           | Some result => if truthyJson result then Some result else search rest
           | None => search rest
           end
         else search rest
       end) items
  | _ => None
  end.

(** ** detectCurrencyFromDomain *)
Definition domainMap : list (list N * list N) :=
  map (fun dc => (js (fst dc), js (snd dc)))
    [(".uk", "GBP"); (".co.uk", "GBP"); (".ie", "EUR"); (".fr", "EUR"); (".de", "EUR");
     (".es", "EUR"); (".it", "EUR"); (".nl", "EUR"); (".be", "EUR"); (".at", "EUR");
     (".pt", "EUR"); (".fi", "EUR"); (".gr", "EUR"); (".ca", "CAD"); (".au", "AUD");
     (".nz", "NZD"); (".jp", "JPY"); (".cn", "CNY"); (".in", "INR"); (".br", "BRL");
     (".mx", "MXN"); (".ru", "RUB"); (".ch", "CHF"); (".se", "SEK"); (".no", "NOK");
     (".dk", "DKK"); (".pl", "PLN"); (".cz", "CZK"); (".tr", "TRY"); (".za", "ZAR");
     (".kr", "KRW"); (".sg", "SGD"); (".hk", "HKD"); (".tw", "TWD"); (".th", "THB");
     (".ae", "AED"); (".sa", "SAR"); (".il", "ILS")]%string.

Definition detectCurrencyFromDomain (hostname : list N) : option (list N) :=
  snd <$> List.find (fun dc => endsWith hostname (fst dc)) domainMap.

(** ** detectCurrencyFromLocale *)
Definition localeMap : list (list N * list N) :=
  map (fun lc => (js (fst lc), js (snd lc)))
    [("GB", "GBP"); ("UK", "GBP"); ("US", "USD"); ("CA", "CAD"); ("AU", "AUD");
     ("NZ", "NZD"); ("JP", "JPY"); ("CN", "CNY"); ("IN", "INR"); ("BR", "BRL");
     ("MX", "MXN"); ("RU", "RUB"); ("CH", "CHF"); ("SE", "SEK"); ("NO", "NOK");
     ("DK", "DKK"); ("PL", "PLN"); ("CZ", "CZK"); ("TR", "TRY"); ("ZA", "ZAR");
     ("KR", "KRW"); ("SG", "SGD"); ("HK", "HKD"); ("TW", "TWD"); ("TH", "THB");
     ("AE", "AED"); ("SA", "SAR"); ("IL", "ILS");
     ("FR", "EUR"); ("DE", "EUR"); ("ES", "EUR"); ("IT", "EUR");
     ("NL", "EUR"); ("BE", "EUR"); ("AT", "EUR"); ("PT", "EUR");
     ("FI", "EUR"); ("GR", "EUR"); ("IE", "EUR"); ("LU", "EUR");
     ("SI", "EUR"); ("CY", "EUR"); ("MT", "EUR"); ("SK", "EUR");
     ("EE", "EUR"); ("LV", "EUR"); ("LT", "EUR")]%string.

(** [localeMap[key]]: the names that an object literal inherits all
    contain a small letter, and [key] is the result of [toUpperCase]. *)
Definition localeCurrency (key : list N) : option (list N) :=
  snd <$> List.find (fun lc => JsString.eqb (fst lc) key) localeMap.

(** [parts[1] || parts[0]] *)
Definition countryOf (parts : list (list N)) : list N :=
  match parts with
  | p0 :: p1 :: _ => if truthy p1 then p1 else p0
  | [p0] => p0
  | [] => []
  end.

(** The case mapping is [toUpperCase] as modelled above: that of the
    browser on Basic Latin text. *)
Definition detectCurrencyFromLocale (locale : list N) : option (list N) :=
  if negb (truthy locale) then None
  else
    let parts := split_on (ch "-") locale [] in
    let country := countryOf parts in
    match localeCurrency (toUpperCase country) with
    | Some c => if truthy c then Some c else None
    | None => None
    end.

(* ===================================================================== *)
(** * Sample rate tables, settings and pages *)
(* ===================================================================== *)

(** The settings of a user who converts to shekels: inline conversion
    shown, no highlighting, default decimal places. *)
Definition shekelSettings : Settings :=
  mkSettings (js "ILS") false true false None false.

Definition ratesOf (rates : list (string * string)) : gmap (list N) float :=
  list_to_map (map (fun cr => (js (fst cr), num (snd cr))) rates).

Definition globalsOf (rates : list (string * string)) (page : option (list N))
  : Globals :=
  mkGlobals (ratesOf rates) shekelSettings page (js "chrome-dark") (num "800").

(** The rate table [{USD: 1, ILS: 3.7}]. *)
Definition shekelGlobals : Globals :=
  globalsOf [("USD", "1"); ("ILS", "3.7")]%string None.

(** A rate table in which one currency is quoted at zero. *)
Definition zeroRateGlobals : Globals :=
  globalsOf [("USD", "1"); ("ILS", "3.7"); ("ZWL", "0")]%string None.

(** The same table as [shekelGlobals] on a page whose currency was
    detected as the euro. *)
Definition euroPageGlobals : Globals :=
  globalsOf [("USD", "1"); ("ILS", "3.7"); ("EUR", "0.92")]%string (Some (js "EUR")).

(** ... and on a page whose currency was detected as the Canadian dollar. *)
Definition canadianPageGlobals : Globals :=
  globalsOf [("USD", "1"); ("ILS", "3.7"); ("CAD", "1.36")]%string (Some (js "CAD")).

(** Elements as a page gives them: a computed style with the given
    font size and weight, and a box with the given width, height and
    distance from the top of the viewport. *)
Definition styleOf (size weight : string) : ComputedStyle :=
  mkStyle (js "block") (js "visible") (js "1") (js size) (js weight)
    (js "rgb(0, 0, 0)") (js "none") (js "none") (js "Arial") (js "normal")
    (js "normal") (js "none").

Definition rectOf (width height top : string) : DOMRect :=
  mkRect (num width) (num height) (num top) (num "0").

Definition elementOf (tag : string) (attrs : list (string * string))
  (style : ComputedStyle) (rect : DOMRect) : Element :=
  mkElement (js tag) (map (fun kv => (js (fst kv), js (snd kv))) attrs) style rect [] 0.

Definition bodyElement : Element :=
  elementOf "BODY" [] (styleOf "16px" "400") (rectOf "1000" "800" "0").

(** [<a class="price">], in bold type of the given size. *)
Definition priceLink (size : string) : Element :=
  elementOf "A" [("class", "price")]%string (styleOf size "700")
    (rectOf "200" "40" "100").

(** [<body><a class="price">txt</a></body>]: the body is node 0, the
    link node 1 and its text node 2. *)
Definition pricePage (txt size : string) : Document :=
  list_to_map
    [(0%nat, mkNode None (ElementNode bodyElement [1%nat]));
     (1%nat, mkNode (Some 0%nat) (ElementNode (priceLink size) [2%nat]));
     (2%nat, mkNode (Some 1%nat) (TextNode (js txt)))].

Definition freshState (doc : Document) : State := mkState doc ∅.

(** [<body><div class="price"><span>US $</span><span>134</span>
    <span>.</span><span>98</span></div></body>] in small regular
    type: the container is node 1, the spans are nodes 2, 4, 6 and 8. *)
Definition spanOf (parent text : nat) : Node :=
  mkNode (Some parent)
    (ElementNode (elementOf "SPAN" [] (styleOf "16px" "400") (rectOf "30" "20" "100"))
       [text]).

Definition priceContainer : Element :=
  elementOf "DIV" [("class", "price")]%string (styleOf "12px" "400")
    (rectOf "200" "40" "100").

Definition fragmentedPricePage : Document :=
  list_to_map
    [(0%nat, mkNode None (ElementNode bodyElement [1%nat]));
     (1%nat, mkNode (Some 0%nat)
               (ElementNode priceContainer [2%nat; 4%nat; 6%nat; 8%nat]));
     (2%nat, spanOf 1 3); (3%nat, mkNode (Some 2%nat) (TextNode (js "US $")));
     (4%nat, spanOf 1 5); (5%nat, mkNode (Some 4%nat) (TextNode (js "134")));
     (6%nat, spanOf 1 7); (7%nat, mkNode (Some 6%nat) (TextNode (js ".")));
     (8%nat, spanOf 1 9); (9%nat, mkNode (Some 8%nat) (TextNode (js "98")))].

(** [<body><a class="price" data-currency="USD">txt</a>trailing</body>],
    the link in large bold type: the link is node 1, its text node 2,
    and the text that follows it node 3. *)
Definition dollarLink : Element :=
  elementOf "A" [("class", "price"); ("data-currency", "USD")]%string
    (styleOf "24px" "700") (rectOf "200" "40" "100").

Definition dollarLinkPage (txt trailing : string) : Document :=
  list_to_map
    [(0%nat, mkNode None (ElementNode bodyElement [1%nat; 3%nat]));
     (1%nat, mkNode (Some 0%nat) (ElementNode dollarLink [2%nat]));
     (2%nat, mkNode (Some 1%nat) (TextNode (js txt)));
     (3%nat, mkNode (Some 0%nat) (TextNode (js trailing)))].

(** A body with [n] links [<a class="price">$5</a>] in large bold type:
    the links are the nodes 1 to [n], and the text of link [i] is node
    [n + i]. *)
Definition priceLinks (n : nat) : Document :=
  list_to_map
    ((0%nat, mkNode None (ElementNode bodyElement (seq 1 n)))
     :: flat_map (fun i =>
                    [(i, mkNode (Some 0%nat)
                           (ElementNode (priceLink "24px") [(n + i)%nat]));
                     ((n + i)%nat, mkNode (Some i) (TextNode (js "$5")))])
                 (seq 1 n)).

(** The rates [{USD: 1, ILS: 3.7, EUR: 0.92}], on a page whose currency
    was not detected. *)
Definition euroRateGlobals : Globals :=
  globalsOf [("USD", "1"); ("ILS", "3.7"); ("EUR", "0.92")]%string None.

(** An attribute of an element after a scan. *)
Definition attributeOf (st : State) (element : nat) (name : string) : option (list N) :=
  match element_at (document st) element with
  | Some e => getAttribute e (js name)
  | None => None
  end.

(** A scan of a fresh page, from the selector-based pass on, with the
    counts at zero.  That is the whole of [convertPrices] on the sample
    pages whose candidates are links: with no cryptocurrency in the
    rate table the first pass returns at once, and none of the twelve
    passes that follow selects an [a] element whose only attributes
    are [class] and [data-currency], or a text node of these pages. *)
Definition scan (g : Globals) (doc : Document) (priceElements : list nat)
  : State * nat * nat :=
  convertPrices g (freshState doc) priceElements 0 0 0.

Definition scanned (result : State * nat * nat) : State := fst (fst result).
Definition convertedCount (result : State * nat * nat) : nat := snd (fst result).
Definition skippedCount (result : State * nat * nat) : nat := snd result.

(** The state that a scan of three such links leaves. *)
Definition threeLinksScanned : State :=
  scanned (scan shekelGlobals (priceLinks 3) [1; 2; 3]%nat).

(** [<a>], in regular type. *)
Definition plainLink : Element :=
  elementOf "A" [] (styleOf "16px" "400") (rectOf "200" "20" "100").

(** A body with one link [<a>text</a>] for each of the texts: with [n]
    texts the links are the nodes 1 to [n], and the text of link [i]
    is node [n + i]. *)
Definition textLinks (texts : list string) : Document :=
  let n := length texts in
  list_to_map
    ((0%nat, mkNode None (ElementNode bodyElement (seq 1 n)))
     :: flat_map (fun it =>
                    [(fst it, mkNode (Some 0%nat)
                                (ElementNode plainLink [(n + fst it)%nat]));
                     ((n + fst it)%nat,
                      mkNode (Some (fst it)) (TextNode (js (snd it))))])
                 (combine (seq 1 n) texts)).

(** 99 links [<a>Chapter 1</a>] followed by two links [<a>$5</a>]. *)
Definition chaptersAndPrices : Document :=
  textLinks (repeat "Chapter 1"%string 99 ++ ["$5"; "$5"]%string)%list.

(** The settings of a user who has the prices replaced, with the rate
    table [{USD: 1, ILS: 3.7}]. *)
Definition replaceSettings : Settings :=
  mkSettings (js "ILS") false true true None false.

Definition replaceGlobals : Globals :=
  mkGlobals (ratesOf [("USD", "1"); ("ILS", "3.7")]%string) replaceSettings None
    (js "chrome-dark") (num "800").

(* ===================================================================== *)
(** * Notions used in the properties *)
(* ===================================================================== *)

(** Two capture lists that agree outside the groups [gs]. *)
Definition same_outside (gs : list nat) (c c' : caps) : Prop :=
  length c' = length c /\ forall i, ~ In i gs -> nth i c' None = nth i c None.

(** The groups of the two alternatives of an expression [a|b]. *)
Definition alternatives (re : RegExp) : option (list nat * list nat) :=
  match pattern re with
  | Alt a b => Some (groups_of a, groups_of b)
  | _ => None
  end.

(** The currency enters the choice of the separator only as the hint
    [preferComma]. *)
Definition preferComma (currency : list N) : bool :=
  existsb (JsString.eqb currency) europeanCurrencies.

(** The tags that [extractFragmentedPrice] looks for in a container. *)
Definition priceTags : list (list N) := [js "span"; js "b"; js "strong"; js "em"].

(** Whether an element carries [data-converted="true"]. *)
Definition markedConverted (doc : Document) (id : nat) : bool :=
  match element_at doc id with
  | Some e => attr_is e (js "data-converted") (js "true")
  | None => false
  end.

(** A change to an element that keeps the mark [data-converted="true"]. *)
Definition keepsMark (f : Element -> Element) : Prop :=
  forall e, attr_is e (js "data-converted") (js "true") = true ->
            attr_is (f e) (js "data-converted") (js "true") = true.

(** How a loop body can end for a candidate element: without a change
    and without a conversion, or with the element converted, recorded
    in the processed set and marked. *)
Definition stepResult (st : State) (element : nat) (r : State * Outcome) : Prop :=
  (fst r = st /\ (snd r = Ignored \/ snd r = Skipped))
  \/ (snd r = Converted
      /\ processedElements (fst r) = {[element]} ∪ processedElements st
      /\ markedConverted (document (fst r)) element = true).

(** The truthy currency fields of a value in the order of a depth-first
    walk: the own field of an object (the first truthy one of the
    three), which ends the walk of that object, or else the fields of
    its property values in enumeration order. *)
Fixpoint currencyFields (obj : Json) : list Json :=
  match obj with
  | JObject props =>
    match ownCurrency props with
    | Some v => [v]
    | None => flat_map (fun kv => currencyFields (snd kv)) props
    end
  | JArray items => flat_map currencyFields items
  | _ => []
  end.

(** Text in Basic Latin, on which [toUpperCase] is the mapping of the
    small letters alone. *)
Definition basicLatin (s : list N) : bool := forallb (fun c => (c <? 128)%N) s.

(** Text without a hyphen. *)
Definition hyphenFree (s : list N) : bool := forallb (fun c => negb (c =? ch "-")%N) s.

(** The visibility test of [analyzeVisualContext]. *)
Definition isVisible (e : Element) : bool :=
  neqb (cs_display (computedStyle e)) (js "none")
  && neqb (cs_visibility (computedStyle e)) (js "hidden")
  && neqb (cs_opacity (computedStyle e)) (js "0")
  && PrimFloat.ltb zero (r_width (boundingRect e))
  && PrimFloat.ltb zero (r_height (boundingRect e)).

(** The four signals of [detectSalePrice]. *)
Definition isStrikethrough (e : Element) : bool :=
  includes (cs_textDecoration (computedStyle e)) (js "line-through")
  || includes (cs_textDecorationLine (computedStyle e)) (js "line-through").
Definition hasSaleKeywords (doc : Document) (element : nat) : bool :=
  test saleKeywordsPattern (toLowerCase (textContent doc element)).
Definition hasDiscountContext (doc : Document) (element : nat) : bool :=
  test discountContextPattern (toLowerCase (parentTextContent doc element)).
Definition hasSaleClass (e : Element) : bool :=
  test saleClassPattern (toLowerCase (classAndId e)).

(** The values that the validation, visual and semantic scores take,
    and those of the contextual and structural ones. *)
Definition scoreValues : list Z := map (fun k => (5 * Z.of_nat k)%Z) (seq 0 21).
Definition baseValues : list Z := [50; 70; 80; 100]%Z.

(** The weighted mean of the five scores, rounded to the nearest
    integer (upwards on a tie), in exact arithmetic. *)
Definition exactTotal (validation visual semantic contextual structural : Z) : Z :=
  ((5 * validation + 4 * visual + 5 * semantic + 3 * contextual + 3 * structural + 10)
   / 20)%Z.

(** The values of the scores with their weighted values. *)
Definition products (values : list Z) (weight : string) : list (Z * float) :=
  map (fun s => (s, weighted s weight)) values.

Definition validationProducts : list (Z * float) := products scoreValues "0.25".
Definition visualProducts : list (Z * float) := products scoreValues "0.20".
Definition semanticProducts : list (Z * float) := products scoreValues "0.25".
Definition contextualProducts : list (Z * float) := products baseValues "0.15".
Definition structuralProducts : list (Z * float) := products baseValues "0.15".

(** The text that [extractAmount] reads: the normalised text, or the
    text of the fragmented price when that is longer. *)
Definition amountInput (doc : Document) (text : list N) (element : option nat) : list N :=
  match element with
  | Some el =>
    if truthy (extractFragmentedPrice doc el)
       && neqb (extractFragmentedPrice doc el) (normalizePriceText text)
       && (length (normalizePriceText text) <? length (extractFragmentedPrice doc el))%nat
    then extractFragmentedPrice doc el else normalizePriceText text
  | None => normalizePriceText text
  end.

(** A change to an element that leaves the attribute [n] as it is. *)
Definition keepsAttribute (n : list N) (f : Element -> Element) : Prop :=
  forall e, getAttribute (f e) n = getAttribute e n.

(** The text that [applyConversion] takes for the original price: the
    stored one, or the text of the element when none is stored. *)
Definition storedOriginal (doc : Document) (element : nat) (e : Element) : list N :=
  if truthy_opt (getAttribute e (js "data-original-price"))
  then default [] (getAttribute e (js "data-original-price"))
  else textContent doc element.

(** What a node is in the tree: its parent, and its text or the list
    of its children. *)
Definition shape (n : Node) : option nat * (list N + list nat) :=
  (parent n,
   match content n with
   | TextNode d => inl d
   | ElementNode _ kids => inr kids
   end).

(** Two documents with the same tree and the same texts: they differ
    at most in what the elements carry. *)
Definition sameTree (doc doc' : Document) : Prop :=
  shape <$> doc' = shape <$> doc.

(** A conversion as the loops make it: of an amount above zero and not
    above a billion, from a source currency that is not empty and is
    not the target, to a converted amount that is finite and not zero,
    applied to the element, which is then recorded. *)
Definition plausibleConversion (g : Globals) (st st' : State) (element : nat) : Prop :=
  exists (amount : float) (sourceCurrency : list N) (convertedAmount : float),
    truthy sourceCurrency = true
    /\ sourceCurrency <> defaultTargetCurrency (settings g)
    /\ isNaN amount = false
    /\ PrimFloat.ltb zero amount = true
    /\ PrimFloat.ltb (num "1000000000") amount = false
    /\ calculateConversion g amount sourceCurrency (defaultTargetCurrency (settings g))
       = Some convertedAmount
    /\ isFinite convertedAmount = true
    /\ truthy_num convertedAmount = true
    /\ st' = mark_processed st
               (applyConversion g (document st) element amount sourceCurrency
                  convertedAmount (defaultTargetCurrency (settings g)))
               element.

(** What a run of the two passes keeps, from the state [st] to the
    state [st'] with [n] conversions counted: the processed set grows
    by [n] elements; each new element of it is marked and carries a
    source currency that is not empty and is not the target; an
    element that was recorded or marked is as it was; and with no
    conversion the state is as it was. *)
Definition runKeeps (g : Globals) (st st' : State) (n : nat) : Prop :=
  processedElements st ⊆ processedElements st'
  /\ size (processedElements st') = (size (processedElements st) + n)%nat
  /\ (forall element,
         element ∈ processedElements st' -> element ∉ processedElements st ->
         markedConverted (document st') element = true
         /\ exists sourceCurrency,
             attributeOf st' element "data-source-currency" = Some sourceCurrency
             /\ truthy sourceCurrency = true
             /\ sourceCurrency <> defaultTargetCurrency (settings g))
  /\ (forall element,
         element ∈ processedElements st
         \/ markedConverted (document st) element = true ->
         element_at (document st') element = element_at (document st) element)
  /\ (n = 0%nat -> st' = st).

(* ===================================================================== *)
(** * Properties of calculateConversion *)
(* ===================================================================== *)

Lemma isFinite_not_NaN (x : float) : isFinite x = true -> isNaN x = false.
Proof.
  unfold isFinite, isNaN, is_finite.
  destruct (is_nan x); [discriminate | reflexivity].
Qed.

Lemma no_rate_usable (r : float) : truthy_num r = true -> no_rate (Some r) = false.
Proof. intros H. simpl. now rewrite H. Qed.

(** With two usable rates the function is the pivot formula followed by
    the test of the result. *)
Lemma calculateConversion_usable (g : Globals) (amount : float)
  (sourceCurrency targetCurrency : list N) (rs rt : float) :
  exchangeRates g !! sourceCurrency = Some rs ->
  exchangeRates g !! targetCurrency = Some rt ->
  truthy_num rs = true -> truthy_num rt = true ->
  calculateConversion g amount sourceCurrency targetCurrency =
  if isNaN (amount / rs * rt) || negb (isFinite (amount / rs * rt))
  then None else Some (amount / rs * rt)%float.
Proof.
  intros Hs Ht Hrs Hrt. unfold calculateConversion.
  rewrite Hs, Ht, (no_rate_usable _ Hrs), (no_rate_usable _ Hrt).
  reflexivity.
Qed.

Lemma calculateConversion_no_rate (g : Globals) (amount : float)
  (sourceCurrency targetCurrency : list N) :
  no_rate (exchangeRates g !! sourceCurrency) = true
  \/ no_rate (exchangeRates g !! targetCurrency) = true ->
  calculateConversion g amount sourceCurrency targetCurrency = None.
Proof.
  intros H. unfold calculateConversion.
  destruct H as [-> | ->]; [reflexivity | now rewrite orb_true_r].
Qed.

(** C1, the claim as stated fails: in the table [{USD: 1, ILS: 3.7,
    ZWL: 0}] both USD and ZWL are present and [(10 / 1) * 0 = 0] is
    finite, yet converting 10 USD to ZWL is rejected. *)
Lemma calculateConversion_rejects_present_zero_rate :
  exchangeRates zeroRateGlobals !! js "USD" = Some (num "1")
  /\ exchangeRates zeroRateGlobals !! js "ZWL" = Some (num "0")
  /\ isFinite (num "10" / num "1" * num "0") = true
  /\ isNaN (num "10" / num "1" * num "0") = false
  /\ calculateConversion zeroRateGlobals (num "10") (js "USD") (js "ZWL") = None.
Proof. vm_compute. repeat split; reflexivity. Qed.

(** C1 (amended): when both currencies have a rate in the table that is
    neither zero nor NaN and [(amount / rate[from]) * rate[to]] is
    finite, that number is returned; the call is rejected when a
    currency is absent from the table, when a rate is zero or NaN, and
    when the result is NaN or not finite. *)
Theorem calculateConversion_usd_pivot (g : Globals) (amount : float)
  (sourceCurrency targetCurrency : list N) :
  (forall rs rt,
      exchangeRates g !! sourceCurrency = Some rs ->
      exchangeRates g !! targetCurrency = Some rt ->
      truthy_num rs = true -> truthy_num rt = true ->
      isFinite (amount / rs * rt) = true ->
      calculateConversion g amount sourceCurrency targetCurrency
      = Some (amount / rs * rt)%float)
  /\ (exchangeRates g !! sourceCurrency = None
      \/ exchangeRates g !! targetCurrency = None ->
      calculateConversion g amount sourceCurrency targetCurrency = None)
  /\ (forall r,
      (exchangeRates g !! sourceCurrency = Some r
       \/ exchangeRates g !! targetCurrency = Some r) ->
      truthy_num r = false ->
      calculateConversion g amount sourceCurrency targetCurrency = None)
  /\ (forall rs rt,
      exchangeRates g !! sourceCurrency = Some rs ->
      exchangeRates g !! targetCurrency = Some rt ->
      isNaN (amount / rs * rt) = true \/ isFinite (amount / rs * rt) = false ->
      calculateConversion g amount sourceCurrency targetCurrency = None).
Proof.
  repeat split.
  - intros rs rt Hs Ht Hrs Hrt Hfin.
    rewrite (calculateConversion_usable _ _ _ _ _ _ Hs Ht Hrs Hrt).
    now rewrite (isFinite_not_NaN _ Hfin), Hfin.
  - intros H. apply calculateConversion_no_rate.
    destruct H as [-> | ->]; [now left | now right].
  - intros r H Hr. apply calculateConversion_no_rate.
    destruct H as [-> | ->]; simpl; rewrite Hr; [now left | now right].
  - intros rs rt Hs Ht Hbad.
    destruct (truthy_num rs) eqn:Hrs, (truthy_num rt) eqn:Hrt.
    + rewrite (calculateConversion_usable _ _ _ _ _ _ Hs Ht Hrs Hrt).
      destruct Hbad as [-> | ->]; [reflexivity | now rewrite orb_true_r].
    + apply calculateConversion_no_rate. right. rewrite Ht. simpl. now rewrite Hrt.
    + apply calculateConversion_no_rate. left. rewrite Hs. simpl. now rewrite Hrs.
    + apply calculateConversion_no_rate. left. rewrite Hs. simpl. now rewrite Hrs.
Qed.

(** The pivot formula on the rates [{USD: 1, ILS: 3.7}]: 10 USD are
    37 ILS. *)
Lemma calculateConversion_usd_pivot_witness :
  calculateConversion shekelGlobals (num "10") (js "USD") (js "ILS")
  = Some (num "37").
Proof.
  exact (proj1 (calculateConversion_usd_pivot shekelGlobals (num "10")
                  (js "USD") (js "ILS"))
           (num "1") (num "3.7") eq_refl eq_refl eq_refl eq_refl eq_refl).
Defined.

(* ===================================================================== *)
(** * Properties of detectCurrency *)
(* ===================================================================== *)

Lemma eqb_eq (a b : list N) : JsString.eqb a b = true <-> a = b.
Proof.
  unfold JsString.eqb. destruct (decide (a = b)); split; congruence.
Qed.

Lemma existsb_eqb_In (a : list N) (l : list (list N)) :
  existsb (JsString.eqb a) l = true <-> In a l.
Proof.
  rewrite existsb_exists. split.
  - intros [b [Hin Heq]]. apply eqb_eq in Heq. now subst.
  - intros Hin. exists a. split; [assumption | now apply eqb_eq].
Qed.

Lemma dollarCurrencies_truthy (pc : list N) :
  In pc dollarCurrencies -> truthy pc = true.
Proof.
  intros H. destruct pc; [| reflexivity].
  apply existsb_eqb_In in H. vm_compute in H. discriminate.
Qed.

(** What the bare dollar sign stands for. *)
Lemma dollarCurrency_page (g : Globals) (pc : list N) :
  pageCurrency g = Some pc ->
  dollarCurrency g = if existsb (JsString.eqb pc) dollarCurrencies then pc else js "USD".
Proof.
  intros H. unfold dollarCurrency. rewrite H.
  destruct (existsb (JsString.eqb pc) dollarCurrencies) eqn:E.
  - apply existsb_eqb_In, dollarCurrencies_truthy in E. now rewrite E.
  - now rewrite andb_false_r.
Qed.

Section Cascade.

Variables (g : Globals) (doc : Document) (text : list N) (element : option nat).

(** The methods that come before the currency symbols find nothing. *)
Hypothesis no_data_attribute : dataAttributeCurrency doc element = None.
Hypothesis no_code : codeInText (collapseSpaces text) = None.
Hypothesis no_name : nameInText (toLowerCase (collapseSpaces text)) = None.

Lemma detectCurrency_symbol (c : list N) :
  symbolInText (collapseSpaces text) = Some c ->
  detectCurrency g doc text element = Some c.
Proof.
  intros H. unfold detectCurrency.
  now rewrite no_data_attribute, no_code, no_name, H.
Qed.

Lemma detectCurrency_dollar :
  symbolInText (collapseSpaces text) = None ->
  includes (collapseSpaces text) (js "¥") = false ->
  includes (collapseSpaces text) (js "kr") = false ->
  includes (collapseSpaces text) (js "$") = true ->
  detectCurrency g doc text element = Some (dollarCurrency g).
Proof.
  intros Hsym Hyen Hkr Hdollar. unfold detectCurrency.
  now rewrite no_data_attribute, no_code, no_name, Hsym, Hyen, Hkr, Hdollar.
Qed.

End Cascade.

(** C10: a text in which no data attribute, currency code, currency
    name or other symbol is found and which contains "$" resolves to
    the page currency when that is one of USD, CAD, AUD, NZD, HKD, SGD,
    TWD and MXN, and to USD for any other page currency and when no
    page currency was detected. *)
Theorem detectCurrency_bare_dollar (g : Globals) (doc : Document) (text : list N)
  (element : option nat) :
  dataAttributeCurrency doc element = None ->
  codeInText (collapseSpaces text) = None ->
  nameInText (toLowerCase (collapseSpaces text)) = None ->
  symbolInText (collapseSpaces text) = None ->
  includes (collapseSpaces text) (js "¥") = false ->
  includes (collapseSpaces text) (js "kr") = false ->
  includes (collapseSpaces text) (js "$") = true ->
  dollarCurrencies
  = [js "USD"; js "CAD"; js "AUD"; js "NZD"; js "HKD"; js "SGD"; js "TWD"; js "MXN"]
  /\ (forall pc, pageCurrency g = Some pc -> In pc dollarCurrencies ->
        detectCurrency g doc text element = Some pc)
  /\ (forall pc, pageCurrency g = Some pc -> ~ In pc dollarCurrencies ->
        detectCurrency g doc text element = Some (js "USD"))
  /\ (pageCurrency g = None -> detectCurrency g doc text element = Some (js "USD")).
Proof.
  intros Hdata Hcode Hname Hsym Hyen Hkr Hdollar.
  pose proof (detectCurrency_dollar g doc text element
                Hdata Hcode Hname Hsym Hyen Hkr Hdollar) as H.
  split; [reflexivity |]. repeat split.
  - intros pc Hpage Hin. rewrite H, (dollarCurrency_page _ _ Hpage).
    apply existsb_eqb_In in Hin. now rewrite Hin.
  - intros pc Hpage Hout. rewrite H, (dollarCurrency_page _ _ Hpage).
    destruct (existsb (JsString.eqb pc) dollarCurrencies) eqn:E; [| reflexivity].
    apply existsb_eqb_In in E. contradiction.
  - intros Hpage. rewrite H. unfold dollarCurrency. now rewrite Hpage.
Qed.

(** "$5" on a page priced in euros is USD; on a page priced in Canadian
    dollars it is CAD. *)
Lemma detectCurrency_bare_dollar_witness :
  detectCurrency euroPageGlobals ∅ (js "$5") None = Some (js "USD")
  /\ detectCurrency canadianPageGlobals ∅ (js "$5") None = Some (js "CAD").
Proof.
  split.
  - refine (proj1 (proj2 (proj2 (detectCurrency_bare_dollar euroPageGlobals ∅ (js "$5") None
              _ _ _ _ _ _ _))) (js "EUR") _ _);
      try (vm_compute; reflexivity).
    vm_compute. intuition discriminate.
  - refine (proj1 (proj2 (detectCurrency_bare_dollar canadianPageGlobals ∅ (js "$5") None
              _ _ _ _ _ _ _)) (js "CAD") _ _);
      try (vm_compute; reflexivity).
    vm_compute. right. left. reflexivity.
Defined.

(** C9, the claim as stated fails: "C$50 Canadian dollars" has "C$"
    right before a number, and is resolved to USD, because the currency
    names (here "dollar") are looked up before the symbols. *)
Lemma detectCurrency_canadian_dollars_by_name :
  includes (js "C$50 Canadian dollars") (js "C$50") = true
  /\ nameInText (toLowerCase (collapseSpaces (js "C$50 Canadian dollars")))
     = Some (js "USD")
  /\ detectCurrency shekelGlobals ∅ (js "C$50 Canadian dollars") None
     = Some (js "USD").
Proof. vm_compute. repeat split; reflexivity. Qed.

(** C9 (amended): when no data attribute, no currency code and no
    currency name is found, a text that contains "C$" and none of
    "US $", "US$", "AU $" and "AU$" resolves to CAD; and whenever one of
    the listed symbols occurs, the currency of the first such entry is
    the result, so that the bare "$" is not consulted.  The list
    begins with the ten entries of the prefixed dollar signs. *)
Theorem detectCurrency_prefixed_dollar (g : Globals) (doc : Document)
  (text : list N) (element : option nat) :
  dataAttributeCurrency doc element = None ->
  codeInText (collapseSpaces text) = None ->
  nameInText (toLowerCase (collapseSpaces text)) = None ->
  (includes (collapseSpaces text) (js "C$") = true ->
   includes (collapseSpaces text) (js "US $") = false ->
   includes (collapseSpaces text) (js "US$") = false ->
   includes (collapseSpaces text) (js "AU $") = false ->
   includes (collapseSpaces text) (js "AU$") = false ->
   detectCurrency g doc text element = Some (js "CAD"))
  /\ (forall symbols code,
        List.find (fun sc => existsb (includes (collapseSpaces text)) (fst sc))
          currencySymbols = Some (symbols, code) ->
        detectCurrency g doc text element = Some code)
  /\ firstn 10 currencySymbols
     = [([js "US $"; js "US$"], js "USD"); ([js "AU $"; js "AU$"], js "AUD");
        ([js "C$"; js "CAD$"], js "CAD"); ([js "A$"], js "AUD");
        ([js "NZ$"; js "NZ $"], js "NZD"); ([js "HK$"; js "HK $"], js "HKD");
        ([js "S$"; js "SG$"], js "SGD"); ([js "R$"], js "BRL");
        ([js "NT$"; js "TW$"], js "TWD"); ([js "MX$"], js "MXN")].
Proof.
  intros Hdata Hcode Hname. split; [| split; [| reflexivity]].
  - intros Hc Hus1 Hus2 Hau1 Hau2.
    apply (detectCurrency_symbol g doc text element Hdata Hcode Hname).
    unfold symbolInText, currencySymbols. cbn [List.find existsb fst snd].
    now rewrite Hus1, Hus2, Hau1, Hau2, Hc.
  - intros symbols code Hfind.
    apply (detectCurrency_symbol g doc text element Hdata Hcode Hname).
    unfold symbolInText. now rewrite Hfind.
Qed.

(** "C$50" is CAD. *)
Lemma detectCurrency_prefixed_dollar_witness :
  detectCurrency shekelGlobals ∅ (js "C$50") None = Some (js "CAD").
Proof.
  apply (proj1 (detectCurrency_prefixed_dollar shekelGlobals ∅ (js "C$50") None
                  eq_refl eq_refl eq_refl));
    vm_compute; reflexivity.
Defined.

(* ===================================================================== *)
(** * Properties of detectDecimalSeparator and extractAmount *)
(* ===================================================================== *)

Lemma detectDecimalSeparator_hint (text c c' : list N) :
  preferComma c = preferComma c' ->
  detectDecimalSeparator text c = detectDecimalSeparator text c'.
Proof.
  unfold detectDecimalSeparator, preferComma. intros ->. reflexivity.
Qed.

Lemma cleanAmount_hint (amountStr c c' : list N) :
  preferComma c = preferComma c' -> cleanAmount amountStr c = cleanAmount amountStr c'.
Proof.
  intros H. unfold cleanAmount.
  now rewrite (detectDecimalSeparator_hint _ c c' H).
Qed.

Lemma amountScan_hint (patterns : list string) (text c c' : list N) :
  preferComma c = preferComma c' -> amountScan patterns text c = amountScan patterns text c'.
Proof.
  intros H. induction patterns as [| lit rest IH]; [reflexivity |].
  cbn [amountScan]. rewrite IH.
  destruct (exec (RE lit) text) as [m |]; [| reflexivity].
  destruct (amountText lit m) as [amountStr |]; [| reflexivity].
  now rewrite (cleanAmount_hint amountStr c c' H).
Qed.

Lemma extractAmount_hint (doc : Document) (text c c' : list N) (element : option nat) :
  preferComma c = preferComma c' ->
  extractAmount doc text c element = extractAmount doc text c' element.
Proof.
  intros H. unfold extractAmount.
  now rewrite (amountScan_hint amountPatterns _ c c' H).
Qed.

(** An amount that is the same under both hints is the same for every
    currency. *)
Lemma extractAmount_any_currency (doc : Document) (text : list N) (r : option float) :
  extractAmount doc text (js "EUR") None = r ->
  extractAmount doc text (js "USD") None = r ->
  forall currency, extractAmount doc text currency None = r.
Proof.
  intros Heur Husd currency.
  destruct (preferComma currency) eqn:E.
  - now rewrite (extractAmount_hint doc text currency (js "EUR") None).
  - now rewrite (extractAmount_hint doc text currency (js "USD") None).
Qed.

Lemma extractAmount_no_element (doc : Document) (text currency : list N) :
  extractAmount doc text currency None = extractAmount ∅ text currency None.
Proof. reflexivity. Qed.

(** C4: the rules of the separator detection.  With both separators in
    the text, the one that comes last and has exactly two digits after
    it is the decimal marker.  With one separator, one or two digits
    after it make it the decimal marker, and with three digits the
    currency decides: the comma is the decimal marker for the
    currencies of the European list and the point for the others, the
    other sign being the grouping one.  And the three amounts:
    "1.234,56" is 1234.56 (for every currency, so for the European
    ones), "1,234.56" with USD is 1234.56, and "12,99" is 12.99. *)
Theorem detectDecimalSeparator_disambiguation (doc : Document) (text currency : list N) :
  (forall c d,
      lastIndexOf text (js ",") = Some c -> lastIndexOf text (js ".") = Some d ->
      ((d < c)%nat -> digitsAfter text c = 2%nat ->
       detectDecimalSeparator text currency = comma)
      /\ ((c < d)%nat -> digitsAfter text d = 2%nat ->
          detectDecimalSeparator text currency = dot))
  /\ (forall c,
      lastIndexOf text (js ",") = Some c -> lastIndexOf text (js ".") = None ->
      (digitsAfter text c = 1%nat \/ digitsAfter text c = 2%nat ->
       detectDecimalSeparator text currency = comma)
      /\ (digitsAfter text c = 3%nat ->
          detectDecimalSeparator text currency
          = if existsb (JsString.eqb currency) europeanCurrencies then comma else dot))
  /\ (forall d,
      lastIndexOf text (js ",") = None -> lastIndexOf text (js ".") = Some d ->
      (digitsAfter text d = 1%nat \/ digitsAfter text d = 2%nat ->
       detectDecimalSeparator text currency = dot)
      /\ (digitsAfter text d = 3%nat ->
          detectDecimalSeparator text currency
          = if existsb (JsString.eqb currency) europeanCurrencies then comma else dot))
  /\ extractAmount doc (js "1.234,56") currency None = Some (num "1234.56")
  /\ extractAmount doc (js "1,234.56") (js "USD") None = Some (num "1234.56")
  /\ extractAmount doc (js "12,99") currency None = Some (num "12.99").
Proof.
  split; [| split; [| split; [| split; [| split]]]].
  - intros c d Hc Hd. unfold detectDecimalSeparator. rewrite Hc, Hd. cbv zeta.
    split; intros Hlt Hdigits.
    + apply Nat.ltb_lt in Hlt. now rewrite Hlt, Hdigits.
    + assert ((d <? c)%nat = false) as -> by (apply Nat.ltb_ge; lia).
      apply Nat.ltb_lt in Hlt. now rewrite Hlt, Hdigits.
  - intros c Hc Hd. unfold detectDecimalSeparator. rewrite Hc, Hd. cbv zeta.
    split; intros Hdigits.
    + now destruct Hdigits as [-> | ->].
    + now rewrite Hdigits.
  - intros d Hc Hd. unfold detectDecimalSeparator. rewrite Hc, Hd. cbv zeta.
    split; intros Hdigits.
    + now destruct Hdigits as [-> | ->].
    + now rewrite Hdigits.
  - rewrite extractAmount_no_element.
    apply extractAmount_any_currency; vm_compute; reflexivity.
  - vm_compute. reflexivity.
  - rewrite extractAmount_no_element.
    apply extractAmount_any_currency; vm_compute; reflexivity.
Qed.

(** The rules at work on "1,234": three digits after the only
    separator, so USD reads the comma as the grouping sign and the euro
    reads it as the decimal marker. *)
Lemma detectDecimalSeparator_disambiguation_witness :
  detectDecimalSeparator (js "1,234") (js "USD") = dot
  /\ detectDecimalSeparator (js "1,234") (js "EUR") = comma
  /\ extractAmount ∅ (js "1,234") (js "USD") None = Some (num "1234")
  /\ extractAmount ∅ (js "1,234") (js "EUR") None = Some (num "1.234").
Proof.
  split; [| split; [| split]].
  - exact (proj2 (proj1 (proj2 (detectDecimalSeparator_disambiguation
                                  ∅ (js "1,234") (js "USD"))) 1%nat eq_refl eq_refl)
             eq_refl).
  - exact (proj2 (proj1 (proj2 (detectDecimalSeparator_disambiguation
                                  ∅ (js "1,234") (js "EUR"))) 1%nat eq_refl eq_refl)
             eq_refl).
  - vm_compute. reflexivity.
  - vm_compute. reflexivity.
Defined.

(* ===================================================================== *)
(** * Properties of extractFragmentedPrice *)
(* ===================================================================== *)

(** C3, the claim as stated fails: for the container
    [<div><span>US $</span><span>134</span><span>.</span><span>98</span></div>]
    the function returns "US $ 134.98", with the space that the
    reassembly puts after a currency fragment, and not "US $134.98". *)
Lemma extractFragmentedPrice_space_after_currency :
  map (textContent fragmentedPricePage) (querySelectorAll_tags fragmentedPricePage 1 priceTags)
  = [js "US $"; js "134"; js "."; js "98"]
  /\ extractFragmentedPrice fragmentedPricePage 1 = js "US $ 134.98"
  /\ extractFragmentedPrice fragmentedPricePage 1 <> js "US $134.98".
Proof. vm_compute. repeat split; try reflexivity. discriminate. Qed.

(** The fragments of four spans that read "US $", "134", "." and "98". *)
Lemma collectFragments_us_dollar (doc : Document) (s1 s2 s3 s4 : nat) :
  trim (textContent doc s1) = js "US $" ->
  trim (textContent doc s2) = js "134" ->
  trim (textContent doc s3) = js "." ->
  trim (textContent doc s4) = js "98" ->
  collectFragments doc [s1; s2; s3; s4]
  = [fragmentOf (js "US $"); fragmentOf (js "134"); fragmentOf (js ".");
     fragmentOf (js "98")].
Proof.
  intros H1 H2 H3 H4. unfold collectFragments. cbn [flat_map].
  rewrite H1, H2, H3, H4. vm_compute. reflexivity.
Qed.

(** C3 (amended): for a container whose child spans read "US $", "134",
    "." and "98" the function returns "US $ 134.98"; the reassembly
    puts nothing next to a decimal separator and nothing between two
    digit fragments, and puts one space after a currency fragment. *)
Theorem extractFragmentedPrice_us_dollar (doc : Document) (element s1 s2 s3 s4 : nat) :
  querySelectorAll_tags doc element priceTags = [s1; s2; s3; s4] ->
  trim (textContent doc s1) = js "US $" ->
  trim (textContent doc s2) = js "134" ->
  trim (textContent doc s3) = js "." ->
  trim (textContent doc s4) = js "98" ->
  extractFragmentedPrice doc element = js "US $ 134.98"
  /\ (forall prev fragment,
         isDecimal fragment = true \/ isDecimal prev = true ->
         spacing prev fragment = [])
  /\ (forall prev fragment,
         isDigit fragment = true -> isDigit prev = true -> spacing prev fragment = [])
  /\ (forall prev fragment,
         isDecimal fragment = false -> isDecimal prev = false ->
         isDigit fragment = true -> isDigit prev = false -> isCurrency prev = true ->
         spacing prev fragment = js " ").
Proof.
  intros Hq H1 H2 H3 H4. split; [| split; [| split]].
  - unfold extractFragmentedPrice. fold priceTags.
    rewrite Hq, (collectFragments_us_dollar doc s1 s2 s3 s4 H1 H2 H3 H4).
    destruct (hasCurrencyMetadata doc [s1; s2; s3; s4]); vm_compute; reflexivity.
  - intros prev fragment H. unfold spacing.
    destruct H as [-> | ->]; [reflexivity | now rewrite orb_true_r].
  - intros prev fragment Hf Hp. unfold spacing. rewrite Hf, Hp.
    now destruct (isDecimal fragment || isDecimal prev).
  - intros prev fragment Hdf Hdp Hf Hp Hc. unfold spacing.
    now rewrite Hdf, Hdp, Hf, Hp, Hc.
Qed.

Lemma extractFragmentedPrice_us_dollar_witness :
  extractFragmentedPrice fragmentedPricePage 1 = js "US $ 134.98".
Proof.
  apply (proj1 (extractFragmentedPrice_us_dollar fragmentedPricePage 1 2 4 6 8
                  eq_refl eq_refl eq_refl eq_refl eq_refl)).
Defined.

(* ===================================================================== *)
(** * Properties of the matcher: the captures of the groups *)
(* ===================================================================== *)

Lemma set_cap_length (i : nat) (v : option (nat * nat)) (c : caps) :
  length (set_cap i v c) = length c.
Proof.
  revert i. induction c as [| h t IH]; intros [| j]; cbn; auto.
Qed.

Lemma set_cap_other (i j : nat) (v : option (nat * nat)) (c : caps) :
  i <> j -> nth j (set_cap i v c) None = nth j c None.
Proof.
  revert i j. induction c as [| h t IH]; intros [| i] [| j] H; cbn; auto.
  congruence.
Qed.

Lemma same_outside_refl (gs : list nat) (c : caps) : same_outside gs c c.
Proof. split; auto. Qed.

Lemma same_outside_trans (gs gs' hs : list nat) (c d e : caps) :
  incl gs hs -> incl gs' hs ->
  same_outside gs c d -> same_outside gs' d e -> same_outside hs c e.
Proof.
  intros Hi Hi' [Hl H] [Hl' H']. split; [congruence |].
  intros i Hn. rewrite H', H; auto.
Qed.

Lemma same_outside_set_cap (i : nat) (v : option (nat * nat)) (c : caps) :
  same_outside [i] c (set_cap i v c).
Proof.
  split; [apply set_cap_length |].
  intros j Hn. apply set_cap_other. intros ->. apply Hn. now left.
Qed.

Lemma same_outside_clear (gs : list nat) (c : caps) : same_outside gs c (clear gs c).
Proof.
  unfold clear. revert c.
  assert (forall hs c, incl hs gs -> same_outside gs c (fold_left (fun d i => set_cap i None d) hs c)) as H.
  { induction hs as [| h t IH]; intros c Hi; cbn; [apply same_outside_refl |].
    apply (same_outside_trans [h] gs gs c (set_cap h None c)).
    - intros j [<- | []]. apply Hi. now left.
    - apply incl_refl.
    - apply same_outside_set_cap.
    - apply IH. intros j Hj. apply Hi. now right. }
  intros c. apply H, incl_refl.
Qed.

(** When a match succeeds, the continuation has been called with
    captures that differ from the initial ones only at the groups of
    the expression. *)
Lemma rmatch_frame (ic : bool) (len : nat) (r : regex) :
  forall x c k res,
    rmatch ic len r x c k = Some res ->
    exists y d, same_outside (groups_of r) c d /\ k y d = Some res.
Proof.
  induction r as [| | neg rs | a IHa b IHb | a IHa b IHb | min max greedy a IHa
                  | i a IHa | | | neg | neg a IHa];
    intros x c k res H; cbn [rmatch groups_of] in H |- *.
  - exists x, c. split; [apply same_outside_refl | assumption].
  - discriminate.
  - destruct (rest x) as [| ch tl]; [discriminate |].
    destruct (xorb neg (class_has ic rs ch)); [| discriminate].
    eexists _, c. split; [apply same_outside_refl | eassumption].
  - apply IHa in H. destruct H as (y & d & Hcd & H).
    apply IHb in H. destruct H as (z & e & Hde & H).
    exists z, e. split; [| assumption].
    eapply same_outside_trans; [| | exact Hcd | exact Hde].
    + apply incl_appl, incl_refl.
    + apply incl_appr, incl_refl.
  - destruct (rmatch ic len a x c k) as [res' |] eqn:Ha.
    + injection H as <-. apply IHa in Ha. destruct Ha as (y & d & Hcd & Hk).
      exists y, d. split; [| assumption].
      eapply same_outside_trans; [| | exact Hcd | apply same_outside_refl].
      * apply incl_appl, incl_refl.
      * apply incl_refl.
    + apply IHb in H. destruct H as (y & d & Hcd & Hk).
      exists y, d. split; [| assumption].
      eapply same_outside_trans; [| | exact Hcd | apply same_outside_refl].
      * apply incl_appr, incl_refl.
      * apply incl_refl.
  - revert H. generalize (len + min + 2)%nat as fuel. generalize 0%nat as count.
    intros count fuel. revert count x c k.
    induction fuel as [| fuel IH]; intros count x c k H; [discriminate |].
    cbv beta iota zeta in H.
    assert (forall res' : pos * caps,
               (if (min <=? count)%nat then k x c else None) = Some res' ->
               exists y d, same_outside (groups_of a) c d /\ k y d = Some res') as Hstop.
    { intros res' Hs. destruct (min <=? count)%nat; [| discriminate].
      exists x, c. split; [apply same_outside_refl | assumption]. }
    assert (forall (res' : pos * caps) (k' : cont),
               rmatch ic len a x (clear (groups_of a) c) k' = Some res' ->
               (forall y d, k' y d = Some res' ->
                            exists z e, same_outside (groups_of a) d e /\ k z e = Some res') ->
               exists y d, same_outside (groups_of a) c d /\ k y d = Some res') as Hiter.
    { intros res' k' Hi Hk'. apply IHa in Hi. destruct Hi as (y & d & Hcd & Hi).
      apply Hk' in Hi. destruct Hi as (z & e & Hde & Hk).
      exists z, e. split; [| assumption].
      eapply same_outside_trans; [apply incl_refl | apply incl_refl | | exact Hde].
      eapply same_outside_trans; [apply incl_refl | apply incl_refl | | exact Hcd].
      apply same_outside_clear. }
    assert (forall (res' : pos * caps) (y : pos) (d : caps) (rec : option (pos * caps)),
               (rec = Some res' -> exists z e, same_outside (groups_of a) d e /\ k z e = Some res') ->
               (if (min <=? count)%nat && (idx y =? idx x)%nat then None else rec) = Some res' ->
               exists z e, same_outside (groups_of a) d e /\ k z e = Some res') as Hnext.
    { intros res' y d rec Hrec Hn.
      destruct ((min <=? count)%nat && (idx y =? idx x)%nat); [discriminate | auto]. }
    destruct greedy, (max_reached max count).
    + now apply Hstop.
    + match type of H with
      | match ?it with _ => _ end = _ => destruct it as [res' |] eqn:Hi
      end.
      * injection H as <-. eapply Hiter; [exact Hi |].
        intros y d. apply Hnext. apply IH.
      * now apply Hstop.
    + match type of H with
      | match ?st with _ => _ end = _ => destruct st as [res' |] eqn:Hs
      end; [injection H as <-; now apply Hstop | discriminate].
    + match type of H with
      | match ?st with _ => _ end = _ => destruct st as [res' |] eqn:Hs
      end.
      * injection H as <-. now apply Hstop.
      * eapply Hiter; [exact H |].
        intros y d. apply Hnext. apply IH.
  - apply IHa in H. destruct H as (y & d & Hcd & H).
    eexists y, _. split; [| exact H].
    eapply same_outside_trans; [| | exact Hcd | apply same_outside_set_cap].
    + apply incl_tl, incl_refl.
    + intros j [<- | []]. now left.
  - destruct (idx x); [| discriminate].
    exists x, c. split; [apply same_outside_refl | assumption].
  - destruct (rest x); [| discriminate].
    exists x, c. split; [apply same_outside_refl | assumption].
  - destruct (xorb neg (xorb (word_before x) (word_after x))); [| discriminate].
    exists x, c. split; [apply same_outside_refl | assumption].
  - destruct (rmatch ic len a x c (fun y d => Some (y, d))) as [[y d] |] eqn:Ha.
    + destruct neg; [discriminate |].
      apply IHa in Ha. destruct Ha as (y' & d' & Hcd & Heq).
      injection Heq as -> ->.
      exists x, d. split; assumption.
    + destruct neg; [| discriminate].
      exists x, c. split; [apply same_outside_refl | assumption].
Qed.

(* ===================================================================== *)
(** * Properties of detectPriceRange *)
(* ===================================================================== *)

Lemma group_outside (s : list N) (gs : list nat) (n : nat) (d : caps)
  (whole : option (list N)) (j : nat) :
  same_outside gs (repeat None n) d -> ~ In j gs ->
  nth (S j) (whole :: map (span_text s) d) None = None.
Proof.
  intros [_ H] Hj. cbn [nth].
  change (@None (list N)) with (span_text s None).
  rewrite map_nth, (H j Hj). now rewrite nth_repeat.
Qed.

(** A match of [a|b] leaves the groups of one alternative undefined:
    those outside [a], or those outside [b]. *)
Lemma exec_from_alternatives (re : RegExp) (ga gb : list nat) (s : list N) :
  alternatives re = Some (ga, gb) ->
  forall rs i bf m,
    exec_from re s i bf rs = Some m ->
    (forall j, ~ In j ga -> group m (S j) = None)
    \/ (forall j, ~ In j gb -> group m (S j) = None).
Proof.
  unfold alternatives. destruct (pattern re) as [| | | | a b | | | | | |] eqn:Hp;
    try discriminate.
  intros [= <- <-] rs.
  induction rs as [| ch tl IH]; intros i bf m H; cbn [exec_from] in H;
    rewrite Hp in H; cbn [rmatch] in H.
  all: destruct (rmatch (ignoreCase re) (length s) a _ _ _) as [[y d] |] eqn:Ha in H;
    [ injection H as <-; left; intros j Hj;
      apply rmatch_frame in Ha; destruct Ha as (y' & d' & Hf & [= -> ->]);
      unfold group; cbn [m_groups]; exact (group_outside s _ _ _ _ j Hf Hj) |].
  all: destruct (rmatch (ignoreCase re) (length s) b _ _ _) as [[y d] |] eqn:Hb in H;
    [ injection H as <-; right; intros j Hj;
      apply rmatch_frame in Hb; destruct Hb as (y' & d' & Hf & [= -> ->]);
      unfold group; cbn [m_groups]; exact (group_outside s _ _ _ _ j Hf Hj) |].
  - discriminate.
  - now apply IH in H.
Qed.

(** Both range expressions have the groups 1 to 4 in the first
    alternative and 5 to 8 in the second, and [detectPriceRange] reads
    the upper price from group 6 or 9 and the lower one from group 3
    or 8: one of the two is undefined in every match. *)
Lemma rangeGroups_incomplete (m : MatchResult) :
  (forall j, ~ In j [0; 1; 2; 3]%nat -> group m (S j) = None)
  \/ (forall j, ~ In j [4; 5; 6; 7]%nat -> group m (S j) = None) ->
  let '(_, _, minText, maxText) := rangeGroups m in
  negb (truthy_opt minText) || negb (truthy_opt maxText) = true.
Proof.
  assert (forall l : list nat, forall j, existsb (Nat.eqb j) l = false -> ~ In j l) as Hnot.
  { intros l j E Hin. assert (existsb (Nat.eqb j) l = true) as E'.
    { apply existsb_exists. exists j. split; [assumption | apply Nat.eqb_refl]. }
    congruence. }
  intros [H | H]; unfold rangeGroups.
  - rewrite (H 5%nat), (H 7%nat) by (apply Hnot; reflexivity).
    destruct (truthy_opt (group m 2)); cbn; now rewrite orb_true_r.
  - rewrite (H 1%nat), (H 2%nat), (H 8%nat) by (apply Hnot; reflexivity).
    destruct (truthy_opt (group m 8)); cbn; [now rewrite orb_true_r | reflexivity].
Qed.

(** So no text is reported as a range. *)
Lemma detectPriceRange_none (g : Globals) (doc : Document) (text : list N) :
  detectPriceRange g doc text = None.
Proof.
  unfold detectPriceRange. destruct (negb (truthy text)); [reflexivity |].
  assert (forall m, exec PRICE_RANGE_REGEX text = Some m \/ exec PRICE_RANGE_TO_REGEX text = Some m ->
                    let '(_, _, minText, maxText) := rangeGroups m in
                    negb (truthy_opt minText) || negb (truthy_opt maxText) = true) as H.
  { intros m [Hm | Hm]; apply rangeGroups_incomplete.
    - apply (exec_from_alternatives PRICE_RANGE_REGEX _ _ text) with (rs := text) (i := O) (bf := None);
        [vm_compute; reflexivity | exact Hm].
    - apply (exec_from_alternatives PRICE_RANGE_TO_REGEX _ _ text) with (rs := text) (i := O) (bf := None);
        [vm_compute; reflexivity | exact Hm]. }
  destruct (exec PRICE_RANGE_REGEX text) as [m |] eqn:E1.
  - specialize (H m (or_introl eq_refl)).
    destruct (rangeGroups m) as [[[code symbol] minText] maxText]. now rewrite H.
  - destruct (exec PRICE_RANGE_TO_REGEX text) as [m |] eqn:E2; [| reflexivity].
    specialize (H m (or_intror eq_refl)).
    destruct (rangeGroups m) as [[[code symbol] minText] maxText]. now rewrite H.
Qed.



(* ===================================================================== *)
(** * Properties of isProbablyPrice and scorePriceElement *)
(* ===================================================================== *)

(** The four tests that end [isProbablyPrice] at once are those of
    [hardReject]. *)
Lemma isProbablyPrice_hardReject (doc : Document) (text : list N) (element : nat)
  (e : Element) (r : list N) :
  truthy text = true -> element_at doc element = Some e ->
  hardReject (trim (toLowerCase text)) = Some r ->
  isProbablyPrice doc text element = mkValidation false 0 r.
Proof.
  intros Ht He. unfold hardReject, isProbablyPrice. rewrite Ht, He. cbn [negb].
  destruct (test phoneNumberPattern _); [now intros [= <-] |].
  cbv zeta.
  destruct (test percentPattern _ && negb (test percentCurrencyPattern _));
    [now intros [= <-] |].
  destruct (test productCodePattern _); [now intros [= <-] |].
  destruct (test dimensionPattern _); [now intros [= <-] | discriminate].
Qed.

(** C6, the claim as stated fails, twice.  The bare year "2024" in
    [<a class="price" data-currency="USD">2024</a> Add to cart] is not
    rejected: the validation accepts it with confidence 65, the total
    is 65 and the link is converted.  And "ABC-1234-XYZ" in the same
    link is rejected by the validation, the total is 49 and the
    selector-based pass skips the link, but the scan converts it all
    the same, in the text-node pass, which consults neither. *)
Lemma year_and_product_code_converted :
  (let doc := dollarLinkPage "2024" " Add to cart" in
   hardReject (js "2024") = None
   /\ isProbablyPrice doc (js "2024") 1 = mkValidation true 65 (js "validated")
   /\ snd (selectorStep shekelGlobals (freshState doc) 1) = Converted
   /\ attributeOf (scanned (scan shekelGlobals doc [1%nat])) 1 "data-converted"
      = Some (js "true")
   /\ attributeOf (scanned (scan shekelGlobals doc [1%nat])) 1 "title"
      = Some (js "₪747.40 ILS"))
  /\ (let doc := dollarLinkPage "ABC-1234-XYZ" " Add to cart" in
      isProbablyPrice doc (js "ABC-1234-XYZ") 1
      = mkValidation false 0 (js "product_code")
      /\ selectorStep shekelGlobals (freshState doc) 1 = (freshState doc, Skipped)
      /\ convertedCount (scan shekelGlobals doc [1%nat]) = 1%nat
      /\ attributeOf (scanned (scan shekelGlobals doc [1%nat])) 1 "data-converted"
         = Some (js "true")
      /\ attributeOf (scanned (scan shekelGlobals doc [1%nat])) 1 "title"
         = Some (js "₪455.10 ILS")).
Proof. vm_compute. repeat split; reflexivity. Qed.

(** C6 (amended): a non-empty text that matches the phone-number
    pattern, contains "%" and no currency marker, or matches the
    product-code or the dimension pattern is rejected by the
    validation with confidence 0, so that the validation adds nothing
    to the total score of the element; "555-123-4567", "50%",
    "ABC-1234-XYZ" and "10x20" are such texts.  A bare year in a short
    text is not among them: it lowers the confidence by 30. *)
Theorem isProbablyPrice_hard_rejects (g : Globals) (doc : Document) (text : list N)
  (element : nat) (e : Element) (r : list N) :
  truthy text = true -> element_at doc element = Some e ->
  hardReject (trim (toLowerCase text)) = Some r ->
  isProbablyPrice doc text element = mkValidation false 0 r
  /\ scorePriceElement g doc element e text
     = round_Z (weightedSum 0 (analyzeVisualContext g e)
                  (analyzeSemanticHTML doc element e)
                  (contextScore doc element e) (structScore doc element e))
  /\ hardReject (trim (toLowerCase (js "555-123-4567"))) = Some (js "product_code")
  /\ hardReject (trim (toLowerCase (js "50%"))) = Some (js "percentage")
  /\ hardReject (trim (toLowerCase (js "ABC-1234-XYZ"))) = Some (js "product_code")
  /\ hardReject (trim (toLowerCase (js "10x20"))) = Some (js "dimension")
  /\ hardReject (trim (toLowerCase (js "+1 555-123-4567"))) = Some (js "phone_number")
  /\ hardReject (trim (toLowerCase (js "2024"))) = None
  /\ yearPenalty (trim (toLowerCase (js "2024"))) = (-30)%Z.
Proof.
  intros Ht He Hr.
  pose proof (isProbablyPrice_hardReject doc text element e r Ht He Hr) as H.
  split; [exact H |].
  split; [unfold scorePriceElement; now rewrite H |].
  vm_compute. repeat split; reflexivity.
Qed.

(** The rejection of "50%" in [<a class="price" ...>50%</a>]. *)
Lemma isProbablyPrice_hard_rejects_witness :
  isProbablyPrice (dollarLinkPage "50%" "") (js "50%") 1
  = mkValidation false 0 (js "percentage").
Proof.
  exact (proj1 (isProbablyPrice_hard_rejects shekelGlobals (dollarLinkPage "50%" "")
                  (js "50%") 1 dollarLink (js "percentage") eq_refl eq_refl eq_refl)).
Defined.

(* ===================================================================== *)
(** * Properties of the scan: the detected currency is never empty *)
(* ===================================================================== *)

Lemma toUpperCase_truthy (s : list N) : truthy s = true -> truthy (toUpperCase s) = true.
Proof.
  destruct s as [| c r]; [discriminate |]. intros _.
  unfold toUpperCase. cbn [flat_map]. unfold upper_unit.
  now destruct (is_lower c).
Qed.

Lemma truthy_opt_Some (a : option (list N)) :
  truthy_opt a = true -> exists s, a = Some s /\ truthy s = true.
Proof.
  destruct a as [s |]; [| discriminate]. intros H. now exists s.
Qed.

Lemma upper_attribute_truthy (a : option (list N)) (c : list N) :
  truthy_opt a = true -> toUpperCase <$> a = Some c -> truthy c = true.
Proof.
  intros H Hc. apply truthy_opt_Some in H. destruct H as (s & -> & Hs).
  injection Hc as <-. now apply toUpperCase_truthy.
Qed.

Lemma ancestorCurrency_truthy (doc : Document) (levels : nat) :
  forall parent c, ancestorCurrency doc parent levels = Some c -> truthy c = true.
Proof.
  induction levels as [| n IH]; intros parent c; cbn [ancestorCurrency];
    [discriminate |].
  destruct parent as [p |]; [| discriminate].
  destruct (element_at doc p) as [e |]; [| discriminate].
  destruct (truthy_opt (parentDataCurrency e)) eqn:E.
  - now apply upper_attribute_truthy.
  - apply IH.
Qed.

Lemma dataAttributeCurrency_truthy (doc : Document) (element : option nat) (c : list N) :
  dataAttributeCurrency doc element = Some c -> truthy c = true.
Proof.
  unfold dataAttributeCurrency. destruct element as [id |]; [| discriminate].
  destruct (element_at doc id) as [e |]; [| discriminate].
  destruct (truthy_opt (ownDataCurrency e)) eqn:E.
  - now apply upper_attribute_truthy.
  - apply ancestorCurrency_truthy.
Qed.

Lemma codeInText_truthy (text c : list N) : codeInText text = Some c -> truthy c = true.
Proof.
  unfold codeInText. destruct (exec currencyCodePattern text) as [m |]; [| discriminate].
  destruct (truthy_opt (group m 1)) eqn:E.
  - now apply upper_attribute_truthy.
  - destruct (_ || _); [| discriminate]. now intros [= <-].
Qed.

(** The currency of a table entry that [find] returns is not empty. *)
Lemma table_currency_truthy {K : Type} (table : list (K * list N)) (f : K * list N -> bool)
  (c : list N) :
  forallb (fun kc => truthy (snd kc)) table = true ->
  snd <$> List.find f table = Some c -> truthy c = true.
Proof.
  intros Hall H. destruct (List.find f table) as [kc |] eqn:E; [| discriminate].
  injection H as <-. apply find_some in E. destruct E as [Hin _].
  rewrite forallb_forall in Hall. now apply Hall.
Qed.

Lemma dollarCurrency_truthy (g : Globals) : truthy (dollarCurrency g) = true.
Proof.
  unfold dollarCurrency. destruct (pageCurrency g) as [pc |]; [| reflexivity].
  destruct (truthy pc) eqn:E; [| reflexivity].
  cbn [andb]. now destruct (existsb _ _).
Qed.

Lemma detectCurrency_truthy (g : Globals) (doc : Document) (text : list N)
  (element : option nat) (c : list N) :
  detectCurrency g doc text element = Some c -> truthy c = true.
Proof.
  unfold detectCurrency.
  destruct (dataAttributeCurrency doc element) as [d |] eqn:Hd.
  { intros [= <-]. now apply dataAttributeCurrency_truthy in Hd. }
  cbv zeta.
  destruct (codeInText (collapseSpaces text)) as [d |] eqn:Hcode.
  { intros [= <-]. now apply codeInText_truthy in Hcode. }
  destruct (nameInText _) as [d |] eqn:Hname.
  { intros [= <-]. unfold nameInText in Hname.
    apply table_currency_truthy in Hname; [assumption | vm_compute; reflexivity]. }
  destruct (symbolInText _) as [d |] eqn:Hsym.
  { intros [= <-]. unfold symbolInText in Hsym.
    apply table_currency_truthy in Hsym; [assumption | vm_compute; reflexivity]. }
  destruct (includes _ (js "¥")).
  { intros [= <-]. unfold yenCurrency. now destruct (_ || _). }
  destruct (includes _ (js "kr")).
  { intros [= <-]. unfold krCurrency.
    destruct (_ || _); [reflexivity |].
    destruct (_ || _); [reflexivity |].
    now destruct (_ || _). }
  destruct (includes _ (js "$")).
  { intros [= <-]. apply dollarCurrency_truthy. }
  unfold pageFallback. destruct (pageCurrency g) as [pc |]; [| discriminate].
  destruct (truthy pc) eqn:E; [| discriminate]. now intros [= <-].
Qed.

(* ===================================================================== *)
(** * Properties of the scan: the same-currency skip *)
(* ===================================================================== *)

Lemma eqb_refl (a : list N) : JsString.eqb a a = true.
Proof. now apply eqb_eq. Qed.

(** Past the confidence gate, a candidate in the target currency ends
    the loop body with [skipped++] and nothing else. *)
Lemma afterGate_same_currency (g : Globals) (st : State) (element : nat) (e : Element)
  (text : list N) :
  detectCurrency g (document st) (pricePart text) (Some element)
  = Some (defaultTargetCurrency (settings g)) ->
  afterGate g st element e text = (st, Skipped).
Proof.
  intros H. pose proof (detectCurrency_truthy _ _ _ _ _ H) as Ht.
  unfold afterGate. cbv zeta.
  destruct (detectQuantityPricing (primaryText text)); [| reflexivity |];
    (destruct (isShippingCost (document st) element e); [reflexivity |];
     destruct (isOldPrice _ && _); [reflexivity |];
     now rewrite H, Ht, eqb_refl).
Qed.

(** No text node takes the range path. *)
Lemma textRangePath_none (g : Globals) (st : State) (parent : nat) (text : list N) :
  textRangePath g st parent text = None.
Proof. unfold textRangePath. now rewrite detectPriceRange_none. Qed.

Lemma rangePath_none (g : Globals) (st : State) (element : nat) (text : list N) :
  rangePath g st element text = None.
Proof. unfold rangePath. now rewrite detectPriceRange_none. Qed.

(* ===================================================================== *)
(** * Properties of the scan: the confidence gate *)
(* ===================================================================== *)

(** C2, the claim as stated fails: in
    [<body><a class="price">$5</a></body>], the link in small bold
    type, the candidate is not a fragmented price and its total is 59;
    the selector-based pass skips it, and the text-node pass of the
    same scan, which computes no score, converts it. *)
Lemma low_score_converted_by_text_pass :
  let doc := pricePage "$5" "12px" in
  beforeGate shekelGlobals (freshState doc) 1
  = ReachesGate (priceLink "12px") false (js "$5")
  /\ scorePriceElement shekelGlobals doc 1 (priceLink "12px") (js "$5") = 59%Z
  /\ selectorStep shekelGlobals (freshState doc) 1 = (freshState doc, Skipped)
  /\ convertedCount (scan shekelGlobals doc [1%nat]) = 1%nat
  /\ skippedCount (scan shekelGlobals doc [1%nat]) = 1%nat
  /\ attributeOf (scanned (scan shekelGlobals doc [1%nat])) 1 "data-converted"
     = Some (js "true")
  /\ attributeOf (scanned (scan shekelGlobals doc [1%nat])) 1 "data-target-amount"
     = Some (js "18.50").
Proof. vm_compute. repeat split; reflexivity. Qed.

(** C2 (amended): in the selector-based pass, a candidate that is not
    a fragmented price and whose total is below 60 is skipped; a
    fragmented price goes on to the steps after the gate whatever its
    total, and so does every candidate whose total is at least 60.
    (The text-node pass has no gate.) *)
Theorem confidence_gate (g : Globals) (st : State) (element : nat) (e : Element)
  (fragmented : bool) (text : list N) :
  beforeGate g st element = ReachesGate e fragmented text ->
  (fragmented = false ->
   (scorePriceElement g (document st) element e text < 60)%Z ->
   selectorStep g st element = (st, Skipped))
  /\ (fragmented = true ->
      selectorStep g st element = afterGate g st element e text)
  /\ ((60 <= scorePriceElement g (document st) element e text)%Z ->
      selectorStep g st element = afterGate g st element e text).
Proof.
  intros Hgate. unfold selectorStep. rewrite Hgate. unfold confidenceGate.
  split; [| split].
  - intros -> Hlow. apply Z.ltb_lt in Hlow. now rewrite Hlow.
  - intros ->. reflexivity.
  - intros Hhigh. apply Z.ltb_ge in Hhigh. rewrite Hhigh.
    now rewrite andb_false_r.
Qed.

(** The gate on two candidates with a total of 59: the link "$5" in
    small type is skipped, and the fragmented price "US $ 134.98" in
    small type is converted. *)
Lemma confidence_gate_witness :
  selectorStep shekelGlobals (freshState (pricePage "$5" "12px")) 1
  = (freshState (pricePage "$5" "12px"), Skipped)
  /\ scorePriceElement shekelGlobals fragmentedPricePage 1 priceContainer
       (js "US $ 134.98") = 59%Z
  /\ selectorStep shekelGlobals (freshState fragmentedPricePage) 1
     = afterGate shekelGlobals (freshState fragmentedPricePage) 1 priceContainer
         (js "US $ 134.98")
  /\ snd (afterGate shekelGlobals (freshState fragmentedPricePage) 1 priceContainer
            (js "US $ 134.98")) = Converted.
Proof.
  assert (beforeGate shekelGlobals (freshState (pricePage "$5" "12px")) 1
          = ReachesGate (priceLink "12px") false (js "$5")) as Hlink
      by (vm_compute; reflexivity).
  assert (beforeGate shekelGlobals (freshState fragmentedPricePage) 1
          = ReachesGate priceContainer true (js "US $ 134.98")) as Hcontainer
      by (vm_compute; reflexivity).
  split; [| split; [| split]].
  - apply (proj1 (confidence_gate _ _ _ _ _ _ Hlink)); vm_compute; reflexivity.
  - vm_compute. reflexivity.
  - apply (proj1 (proj2 (confidence_gate _ _ _ _ _ _ Hcontainer))). reflexivity.
  - vm_compute. reflexivity.
Defined.

(* ===================================================================== *)
(** * Properties of the scan: the record of converted elements *)
(* ===================================================================== *)

(** ** Attributes *)

Lemma find_key_app (l : list (list N * list N)) (n n' v : list N) :
  JsString.eqb n' n = false ->
  List.find (fun kv => JsString.eqb (fst kv) n) (l ++ [(n', v)])
  = List.find (fun kv => JsString.eqb (fst kv) n) l.
Proof.
  intros H. induction l as [| a l IH]; cbn [app List.find fst].
  - now rewrite H.
  - now destruct (JsString.eqb (fst a) n).
Qed.

Lemma getAttribute_setAttribute (e : Element) (n v : list N) :
  getAttribute (setAttribute e n v) n = Some v.
Proof.
  unfold getAttribute, setAttribute. cbn [attributes].
  induction (attributes e) as [| a l IH]; cbn [existsb map app List.find fst].
  - now rewrite eqb_refl.
  - destruct (JsString.eqb (fst a) n) eqn:E; cbn [orb List.find map fst].
    + now rewrite eqb_refl.
    + destruct (existsb (fun kv => JsString.eqb (fst kv) n) l);
        cbn [List.find map fst app] in IH |- *; now rewrite E.
Qed.

Lemma getAttribute_setAttribute_other (e : Element) (n n' v : list N) :
  JsString.eqb n' n = false ->
  getAttribute (setAttribute e n' v) n = getAttribute e n.
Proof.
  intros H. unfold getAttribute, setAttribute. cbn [attributes].
  destruct (existsb (fun kv => JsString.eqb (fst kv) n') (attributes e)).
  - f_equal. induction (attributes e) as [| a l IH]; cbn [map List.find fst]; [reflexivity |].
    destruct (JsString.eqb (fst a) n') eqn:E; cbn [fst].
    + apply eqb_eq in E. rewrite E, H. exact IH.
    + now rewrite IH.
  - now rewrite find_key_app.
Qed.

Lemma keepsMark_setAttribute (n v : list N) :
  JsString.eqb n (js "data-converted") = false ->
  keepsMark (fun e => setAttribute e n v).
Proof.
  intros H e. unfold attr_is. now rewrite getAttribute_setAttribute_other.
Qed.

Lemma keepsMark_setStyle (p v : list N) : keepsMark (fun e => setStyle e p v).
Proof. intros e H. exact H. Qed.

Lemma keepsMark_applyStyles (styles : list (list N * list N)) : keepsMark (applyStyles styles).
Proof.
  unfold applyStyles. induction styles as [| pv styles IH]; intros e H; cbn [fold_left].
  - exact H.
  - apply IH. exact H.
Qed.

Lemma keepsMark_highlight (g : Globals) (width : string) : keepsMark (highlight g width).
Proof. intros e H. unfold highlight. now destruct (highlightPrices (settings g)). Qed.

Lemma keepsMark_setupPriceContextMenu (g : Globals) : keepsMark (setupPriceContextMenu g).
Proof.
  intros e H. unfold setupPriceContextMenu. now destruct (replacePrice (settings g)).
Qed.

(** ** The document *)

Lemma element_at_update_element (doc : Document) (id : nat) (f : Element -> Element) :
  element_at (update_element doc id f) id = f <$> element_at doc id.
Proof.
  unfold update_element, element_at.
  destruct (doc !! id) as [[p [d | e kids]] |] eqn:E; rewrite ?E; try reflexivity.
  now rewrite lookup_insert_eq.
Qed.

Lemma markedConverted_update_element (doc : Document) (id : nat) (f : Element -> Element) :
  keepsMark f -> markedConverted doc id = true ->
  markedConverted (update_element doc id f) id = true.
Proof.
  unfold markedConverted. intros Hf. rewrite element_at_update_element.
  destruct (element_at doc id) as [e |]; [| discriminate]. apply Hf.
Qed.

Lemma key_le_fold_max (doc : Document) (k : nat) :
  is_Some (doc !! k) -> (k <= map_fold (fun k _ m => Nat.max k m) O doc)%nat.
Proof.
  revert k. apply (map_fold_weak_ind (fun r (m : Document) => forall k, is_Some (m !! k) -> (k <= r)%nat)).
  - intros k [x Hx]. rewrite lookup_empty in Hx. discriminate.
  - intros i x m r Hi IH k Hk. destruct (decide (k = i)) as [-> | Hne]; [lia |].
    rewrite lookup_insert_ne in Hk by congruence.
    specialize (IH k Hk). lia.
Qed.

Lemma fresh_not_key (doc : Document) (k : nat) : is_Some (doc !! k) -> fresh doc <> k.
Proof. intros H. apply key_le_fold_max in H. unfold fresh. lia. Qed.

Lemma element_at_set_textContent (doc : Document) (id : nat) (s : list N) :
  element_at (set_textContent doc id s) id = element_at doc id.
Proof.
  unfold set_textContent, element_at.
  destruct (doc !! id) as [[p [d | e kids]] |] eqn:E; rewrite ?E; try reflexivity.
  destruct s as [| c r].
  - now rewrite lookup_insert_eq.
  - rewrite lookup_insert_ne by (apply fresh_not_key; now rewrite E).
    now rewrite lookup_insert_eq.
Qed.

(** ** applyConversion and the loop bodies *)

Lemma markedConverted_set_textContent (doc : Document) (id : nat) (s : list N) :
  markedConverted (set_textContent doc id s) id = markedConverted doc id.
Proof. unfold markedConverted. now rewrite element_at_set_textContent. Qed.

(** [applyConversion] leaves the element marked. *)
Lemma applyConversion_marks (g : Globals) (doc : Document) (element : nat)
  (amount : float) (sourceCurrency : list N) (convertedAmount : float)
  (targetCurrency : list N) :
  is_Some (element_at doc element) ->
  markedConverted (applyConversion g doc element amount sourceCurrency convertedAmount
                     targetCurrency) element = true.
Proof.
  intros [e0 He0]. unfold applyConversion. rewrite He0. cbv zeta.
  set (doc1 := if truthy_opt (getAttribute e0 (js "data-original-price")) then doc
               else update_element doc element _).
  assert (is_Some (element_at doc1 element)) as [e1 He1].
  { subst doc1. destruct (truthy_opt _); [now exists e0 |].
    rewrite element_at_update_element, He0. now eexists. }
  set (doc2 := update_element doc1 element _).
  assert (markedConverted doc2 element = true) as H2.
  { subst doc2. unfold markedConverted. rewrite element_at_update_element, He1.
    cbn [fmap option_fmap option_map]. unfold attr_is, dataset_set.
    rewrite !getAttribute_setAttribute_other by (vm_compute; reflexivity).
    now rewrite getAttribute_setAttribute, eqb_refl. }
  apply markedConverted_update_element; [apply keepsMark_setupPriceContextMenu |].
  destruct (replacePrice (settings g)).
  - apply markedConverted_update_element.
    + intros e H. cbv zeta.
      destruct (highlightPrices (settings g));
        [apply (keepsMark_setStyle _ _ _) |];
        apply keepsMark_applyStyles;
        (apply (keepsMark_setAttribute (js "title"));
         [vm_compute; reflexivity | exact H]).
    + now rewrite markedConverted_set_textContent.
  - apply markedConverted_update_element; [| exact H2].
    intros e H. cbv zeta. apply keepsMark_highlight.
    destruct (showInlineConversion (settings g)); [| exact H].
    apply (keepsMark_setAttribute (js "title")); [vm_compute; reflexivity | exact H].
Qed.

Lemma parentElement_element (doc : Document) (id p : nat) :
  parentElement doc id = Some p -> is_Some (element_at doc p).
Proof.
  unfold parentElement, is_element.
  destruct (doc !! id) as [[[q |] c] |]; try discriminate.
  destruct (element_at doc q) as [e |] eqn:E; [| discriminate].
  intros [= <-]. now exists e.
Qed.

Lemma stepResult_ignored (st : State) (element : nat) : stepResult st element (st, Ignored).
Proof. left. split; [reflexivity | now left]. Qed.

Lemma stepResult_skipped (st : State) (element : nat) : stepResult st element (st, Skipped).
Proof. left. split; [reflexivity | now right]. Qed.

Create HintDb scan.
#[local] Hint Resolve stepResult_ignored stepResult_skipped : scan.

Lemma convertCandidate_result (g : Globals) (st : State) (element : nat)
  (text sourceCurrency : list N) :
  is_Some (element_at (document st) element) ->
  stepResult st element (convertCandidate g st element text sourceCurrency).
Proof.
  intros He. unfold convertCandidate. cbv zeta.
  destruct (implausible _); [auto with scan |].
  destruct (extractAmount _ _ _ _) as [a |]; [| auto with scan].
  destruct (calculateConversion _ _ _ _) as [convertedAmount |]; [| auto with scan].
  destruct (truthy_num convertedAmount); [| auto with scan].
  right. cbn [fst snd mark_processed processedElements document].
  split; [reflexivity |]. split; [reflexivity |].
  now apply applyConversion_marks.
Qed.

Lemma afterGate_result (g : Globals) (st : State) (element : nat) (e : Element)
  (text : list N) :
  is_Some (element_at (document st) element) ->
  stepResult st element (afterGate g st element e text).
Proof.
  intros He. unfold afterGate. cbv zeta.
  destruct (detectQuantityPricing (primaryText text)); [| auto with scan |];
    (destruct (isShippingCost _ _ _); [auto with scan |];
     destruct (isOldPrice _ && _); [auto with scan |];
     destruct (detectCurrency _ _ _ _) as [c |]; [| auto with scan];
     destruct (negb (truthy c)); [auto with scan |];
     destruct (JsString.eqb c _); [auto with scan |];
     now apply convertCandidate_result).
Qed.

Lemma beforeGate_element (g : Globals) (st : State) (element : nat) (e : Element)
  (fragmented : bool) (text : list N) :
  beforeGate g st element = ReachesGate e fragmented text ->
  (element ∉ processedElements st)
  /\ element_at (document st) element = Some e
  /\ markedConverted (document st) element = false.
Proof.
  unfold beforeGate, markedConverted. cbv zeta.
  destruct (decide (element ∈ processedElements st)); [discriminate |].
  destruct (element_at (document st) element) as [e' |]; [| discriminate].
  destruct (attr_is e' _ _); [discriminate |].
  destruct (_ || _); [discriminate |].
  rewrite rangePath_none.
  destruct (negb (truthy _)); [discriminate |].
  intros [= <- _ _]. auto.
Qed.

Lemma selectorStep_result (g : Globals) (st : State) (element : nat) :
  stepResult st element (selectorStep g st element).
Proof.
  unfold selectorStep.
  destruct (beforeGate g st element) as [r | e fragmented text] eqn:Hgate.
  - revert Hgate. unfold beforeGate. cbv zeta.
    destruct (decide _); [intros [= <-]; auto with scan |].
    destruct (element_at _ _) as [e |]; [| intros [= <-]; auto with scan].
    destruct (attr_is e _ _); [intros [= <-]; auto with scan |].
    destruct (_ || _); [intros [= <-]; auto with scan |].
    rewrite rangePath_none.
    destruct (negb (truthy _)); [intros [= <-]; auto with scan | discriminate].
  - apply beforeGate_element in Hgate. destruct Hgate as (_ & He & _).
    unfold confidenceGate. destruct (negb fragmented && _); [auto with scan |].
    apply afterGate_result. now rewrite He.
Qed.

Lemma textNodeStep_result (g : Globals) (st : State) (textNode parent : nat) :
  parentElement (document st) textNode = Some parent ->
  stepResult st parent (textNodeStep g st textNode).
Proof.
  intros Hp. pose proof (parentElement_element _ _ _ Hp) as He.
  unfold textNodeStep. cbv zeta. rewrite Hp.
  destruct (decide _); [auto with scan |].
  destruct (match element_at _ _ with Some _ => _ | None => _ end); [auto with scan |].
  rewrite textRangePath_none.
  destruct (detectCurrency _ _ _ _) as [c |]; [| auto with scan].
  destruct (negb (truthy c)); [auto with scan |].
  destruct (JsString.eqb c _); [auto with scan |].
  now apply convertCandidate_result.
Qed.




(* ===================================================================== *)
(** * Properties of the helpers of the page currency detection *)
(* ===================================================================== *)

(** ** findCurrencyInObject *)

Lemma Json_nested_ind (P : Json -> Prop) :
  P JNull -> (forall b, P (JBool b)) -> (forall x, P (JNumber x)) ->
  (forall s, P (JString s)) ->
  (forall items, Forall P items -> P (JArray items)) ->
  (forall props, Forall (fun kv => P (snd kv)) props -> P (JObject props)) ->
  forall obj, P obj.
Proof.
  intros Hnull Hbool Hnum Hstr Harr Hobj.
  fix IH 1. intros [| b | x | s | items | props].
  - exact Hnull.
  - apply Hbool.
  - apply Hnum.
  - apply Hstr.
  - apply Harr. induction items as [| v items IHitems]; constructor; [apply IH | exact IHitems].
  - apply Hobj. induction props as [| [k v] props IHprops]; constructor;
      [apply IH | exact IHprops].
Qed.

Lemma truthyProperty_truthy (props : list (list N * Json)) (name : string) (v : Json) :
  truthyProperty props name = Some v -> truthyJson v = true.
Proof.
  unfold truthyProperty. destruct (List.find _ props) as [[k w] |]; [| discriminate].
  destruct (truthyJson w) eqn:E; [| discriminate]. now intros [= <-].
Qed.

Lemma ownCurrency_truthy (props : list (list N * Json)) (v : Json) :
  ownCurrency props = Some v -> truthyJson v = true.
Proof.
  unfold ownCurrency.
  destruct (truthyProperty props "priceCurrency") as [a |] eqn:Ea.
  - intros [= <-]. now apply truthyProperty_truthy in Ea.
  - destruct (truthyProperty props "currency") as [b |] eqn:Eb.
    + intros [= <-]. now apply truthyProperty_truthy in Eb.
    + apply truthyProperty_truthy.
Qed.

Lemma hd_error_truthy (l : list Json) (v : Json) :
  Forall (fun w => truthyJson w = true) l -> hd_error l = Some v -> truthyJson v = true.
Proof. intros H. destruct l as [| w l]; [discriminate |]. intros [= <-]. now inversion H. Qed.

Lemma findCurrencyInObject_fields (obj : Json) :
  findCurrencyInObject obj = hd_error (currencyFields obj)
  /\ Forall (fun w => truthyJson w = true) (currencyFields obj).
Proof.
  induction obj as [| b | x | s | items IH | props IH] using Json_nested_ind;
    try (split; [reflexivity | constructor]).
  - cbn [findCurrencyInObject currencyFields].
    induction IH as [| v items [Hv Tv] _ [IHf IHt]]; [split; [reflexivity | constructor] |].
    cbn [flat_map]. split; [| now apply Forall_app].
    rewrite IHf, Hv.
    destruct (currencyFields v) as [| w ws] eqn:Ew; cbn [hd_error app].
    + now destruct (isObjectType v).
    + inversion Tv as [| ? ? Tw _]; subst.
      destruct (isObjectType v) eqn:Eo; [now rewrite Tw |].
      destruct v; cbn in Eo, Ew; discriminate.
  - cbn [findCurrencyInObject currencyFields].
    destruct (ownCurrency props) as [own |] eqn:Eown.
    + split; [reflexivity |]. constructor; [| constructor].
      now apply ownCurrency_truthy in Eown.
    + clear Eown.
      induction IH as [| [k v] props [Hv Tv] _ [IHf IHt]];
        [split; [reflexivity | constructor] |].
      cbn [flat_map snd] in *. split; [| now apply Forall_app].
      rewrite IHf, Hv.
      destruct (currencyFields v) as [| w ws] eqn:Ew; cbn [hd_error app].
      * now destruct (isObjectType v).
      * inversion Tv as [| ? ? Tw _]; subst.
        destruct (isObjectType v) eqn:Eo; [now rewrite Tw |].
        destruct v; cbn in Eo, Ew; discriminate.
Qed.

(** X1: [findCurrencyInObject] returns the first truthy currency field
    that a depth-first walk of the value meets, where the own field of
    an object ([priceCurrency], else [currency], else [currencyCode])
    comes before everything nested in it, and null when the walk meets
    none.  What it returns is never falsy, and an object with a truthy
    own field gives that field. *)
Theorem findCurrencyInObject_first_field (obj : Json) :
  findCurrencyInObject obj = hd_error (currencyFields obj)
  /\ (forall v, findCurrencyInObject obj = Some v -> truthyJson v = true)
  /\ (forall props v, obj = JObject props -> ownCurrency props = Some v ->
                      findCurrencyInObject obj = Some v).
Proof.
  destruct (findCurrencyInObject_fields obj) as [H T].
  split; [exact H |]. split.
  - intros v Hv. rewrite H in Hv. now apply (hd_error_truthy _ _ T).
  - intros props v -> Hown. cbn [findCurrencyInObject]. now rewrite Hown.
Qed.

(** ** detectCurrencyFromDomain *)

Lemma startsWith_comparable (s : list N) :
  forall p q, startsWith s p = true -> startsWith s q = true ->
              startsWith p q = true \/ startsWith q p = true.
Proof.
  induction s as [| b s IH]; intros [| a p] [| c q] Hp Hq; cbn in *; auto; try discriminate.
  apply andb_prop in Hp. destruct Hp as [Hab Hp].
  apply andb_prop in Hq. destruct Hq as [Hcb Hq].
  apply N.eqb_eq in Hab, Hcb. subst a c. rewrite N.eqb_refl. cbn.
  now apply IH.
Qed.

Lemma endsWith_comparable (s p q : list N) :
  endsWith s p = true -> endsWith s q = true ->
  endsWith p q = true \/ endsWith q p = true.
Proof. unfold endsWith. apply startsWith_comparable. Qed.

(** Two suffixes of the table of which one ends with the other stand
    for the same currency. *)
Lemma domainMap_coherent :
  forallb (fun x =>
             forallb (fun y =>
                        implb (endsWith (fst x) (fst y) || endsWith (fst y) (fst x))
                              (JsString.eqb (snd x) (snd y)))
                     domainMap)
          domainMap = true.
Proof. vm_compute. reflexivity. Qed.

Lemma domainMap_same_currency (hostname d c d' c' : list N) :
  In (d, c) domainMap -> In (d', c') domainMap ->
  endsWith hostname d = true -> endsWith hostname d' = true -> c = c'.
Proof.
  intros Hin Hin' He He'.
  pose proof domainMap_coherent as H.
  rewrite forallb_forall in H. specialize (H _ Hin).
  rewrite forallb_forall in H. specialize (H _ Hin'). cbn [fst snd] in H.
  destruct (endsWith_comparable hostname d d' He He') as [E | E]; rewrite E in H.
  - cbn in H. now apply eqb_eq.
  - rewrite orb_true_r in H. cbn in H. now apply eqb_eq.
Qed.

(** X2: the order of the domain table does not matter.  A host name
    that ends with a suffix of the table gets the currency of that
    entry, whichever entry the loop meets first, and the result is null
    exactly when the host name ends with none of the suffixes. *)
Theorem detectCurrencyFromDomain_suffix (hostname : list N) :
  (forall d c, In (d, c) domainMap -> endsWith hostname d = true ->
               detectCurrencyFromDomain hostname = Some c)
  /\ (detectCurrencyFromDomain hostname = None <->
      forall d c, In (d, c) domainMap -> endsWith hostname d = false).
Proof.
  unfold detectCurrencyFromDomain. split.
  - intros d c Hin He.
    destruct (List.find _ domainMap) as [[d0 c0] |] eqn:E.
    + apply find_some in E. destruct E as [Hin0 He0]. cbn [fst] in He0. cbn.
      f_equal. exact (domainMap_same_currency hostname d0 c0 d c Hin0 Hin He0 He).
    + apply (find_none _ _ E) in Hin. cbn [fst] in Hin. congruence.
  - split.
    + intros H d c Hin.
      destruct (List.find _ domainMap) as [[d0 c0] |] eqn:E; [discriminate |].
      now apply (find_none _ _ E) in Hin.
    + intros H.
      destruct (List.find _ domainMap) as [[d0 c0] |] eqn:E; [| reflexivity].
      apply find_some in E. destruct E as [Hin0 He0]. cbn [fst] in He0.
      now rewrite (H _ _ Hin0) in He0.
Qed.

(** ** detectCurrencyFromLocale *)

Lemma split_on_part (sep : N) (a : list N) :
  forallb (fun c => negb (c =? sep)%N) a = true ->
  forall cur b,
    split_on sep (a ++ sep :: b) cur = (rev cur ++ a) :: split_on sep b [].
Proof.
  induction a as [| c a IH]; intros Ha cur b.
  - cbn. now rewrite N.eqb_refl, app_nil_r.
  - cbn in Ha. apply andb_prop in Ha. destruct Ha as [Hc Ha].
    apply negb_true_iff in Hc. cbn [app split_on]. rewrite Hc, (IH Ha).
    cbn [rev]. now rewrite <- app_assoc.
Qed.

Lemma split_on_last (sep : N) (a : list N) :
  forallb (fun c => negb (c =? sep)%N) a = true ->
  forall cur, split_on sep a cur = [rev cur ++ a].
Proof.
  induction a as [| c a IH]; intros Ha cur.
  - cbn. now rewrite app_nil_r.
  - cbn in Ha. apply andb_prop in Ha. destruct Ha as [Hc Ha].
    apply negb_true_iff in Hc. cbn [split_on]. rewrite Hc, (IH Ha).
    cbn [rev]. now rewrite <- app_assoc.
Qed.

Lemma localeMap_truthy :
  forallb (fun lc => truthy (snd lc)) localeMap = true.
Proof. vm_compute. reflexivity. Qed.

Lemma localeCurrency_truthy (key c : list N) :
  localeCurrency key = Some c -> truthy c = true.
Proof.
  unfold localeCurrency. destruct (List.find _ localeMap) as [[k c0] |] eqn:E; [| discriminate].
  intros [= <-]. apply find_some in E. destruct E as [Hin _].
  pose proof localeMap_truthy as H. rewrite forallb_forall in H. exact (H _ Hin).
Qed.

Lemma detectCurrencyFromLocale_country (locale : list N) :
  truthy locale = true ->
  detectCurrencyFromLocale locale
  = localeCurrency (toUpperCase (countryOf (split_on (ch "-") locale []))).
Proof.
  intros Ht. unfold detectCurrencyFromLocale. rewrite Ht. cbv zeta. cbn [negb].
  destruct (localeCurrency _) as [c |] eqn:E; [| reflexivity].
  now rewrite (localeCurrency_truthy _ _ E).
Qed.

(** X3: for a locale [language-region] or [language-region-rest], with
    a region that is not empty, the region alone decides, in either
    case of its letters: the result is the entry of the locale table
    for the region in capitals, or null when there is none.  So the
    second subtag is read as the region also when it is a script, as
    in [zh-Hant-TW]. *)
Theorem detectCurrencyFromLocale_region (language region rest : list N) :
  hyphenFree language = true -> hyphenFree region = true -> truthy region = true ->
  basicLatin region = true ->
  detectCurrencyFromLocale (language ++ js "-" ++ region)
  = localeCurrency (toUpperCase region)
  /\ detectCurrencyFromLocale (language ++ js "-" ++ region ++ js "-" ++ rest)
     = localeCurrency (toUpperCase region).
Proof.
  intros Hl Hr Ht _.
  assert (forall s, truthy (language ++ js "-" ++ s) = true) as Hne
      by (intros s; now destruct language).
  split; rewrite detectCurrencyFromLocale_country by apply Hne; f_equal; f_equal.
  - change (js "-" ++ region) with (ch "-" :: region).
    rewrite (split_on_part _ _ Hl), (split_on_last _ _ Hr). cbn [rev app countryOf].
    now rewrite Ht.
  - change (js "-" ++ region ++ js "-" ++ rest) with (ch "-" :: region ++ ch "-" :: rest).
    rewrite (split_on_part _ _ Hl), (split_on_part _ _ Hr). cbn [rev app].
    destruct (split_on (ch "-") rest []); cbn [countryOf]; now rewrite Ht.
Qed.

(** [en-gb] and [en-gb-x] give the pound; [zh-Hant] and [zh-Hant-TW]
    give nothing, Taiwan being in the table. *)
Lemma detectCurrencyFromLocale_region_witness :
  (detectCurrencyFromLocale (js "en" ++ js "-" ++ js "gb") = Some (js "GBP")
   /\ detectCurrencyFromLocale (js "en" ++ js "-" ++ js "gb" ++ js "-" ++ js "x")
      = Some (js "GBP"))
  /\ (detectCurrencyFromLocale (js "zh" ++ js "-" ++ js "Hant") = None
      /\ detectCurrencyFromLocale (js "zh" ++ js "-" ++ js "Hant" ++ js "-" ++ js "TW")
         = None).
Proof.
  split.
  - exact (detectCurrencyFromLocale_region (js "en") (js "gb") (js "x")
             eq_refl eq_refl eq_refl eq_refl).
  - exact (detectCurrencyFromLocale_region (js "zh") (js "Hant") (js "TW")
             eq_refl eq_refl eq_refl eq_refl).
Defined.


(* ===================================================================== *)
(** * Further properties of detectCurrency *)
(* ===================================================================== *)

(** X4: currency detection never returns an empty code.  It returns
    null only when the page currency is not set, and with a page
    currency that is set it always returns a currency. *)
Theorem detectCurrency_never_empty (g : Globals) (doc : Document) (text : list N)
  (element : option nat) :
  (forall c, detectCurrency g doc text element = Some c -> truthy c = true)
  /\ (detectCurrency g doc text element = None ->
      pageCurrency g = None \/ pageCurrency g = Some [])
  /\ (forall pc, pageCurrency g = Some pc -> truthy pc = true ->
                 exists c, detectCurrency g doc text element = Some c).
Proof.
  split; [intros c; apply detectCurrency_truthy |].
  assert (detectCurrency g doc text element = None -> pageFallback g = None) as H.
  { unfold detectCurrency. cbv zeta.
    destruct (dataAttributeCurrency _ _); [discriminate |].
    destruct (codeInText _); [discriminate |].
    destruct (nameInText _); [discriminate |].
    destruct (symbolInText _); [discriminate |].
    destruct (includes _ (js "¥")); [discriminate |].
    destruct (includes _ (js "kr")); [discriminate |].
    destruct (includes _ (js "$")); [discriminate | auto]. }
  split.
  - intros Hnone. apply H in Hnone. unfold pageFallback in Hnone.
    destruct (pageCurrency g) as [[| c r] |]; [now right | discriminate | now left].
  - intros pc Hpc Ht.
    destruct (detectCurrency g doc text element) as [c |] eqn:E; [now exists c |].
    specialize (H eq_refl). unfold pageFallback in H. rewrite Hpc, Ht in H. discriminate.
Qed.

(** X5: a [data-currency] attribute of the element that is not empty
    decides the currency, whatever the text says: the result is the
    attribute in capitals (for an attribute in Basic Latin, where the
    case mapping is the browser's), be it a currency code or not. *)
Theorem detectCurrency_data_attribute (g : Globals) (doc : Document) (text : list N)
  (element : nat) (e : Element) (code : list N) :
  element_at doc element = Some e ->
  getAttribute e (js "data-currency") = Some code -> truthy code = true ->
  basicLatin code = true ->
  detectCurrency g doc text (Some element) = Some (toUpperCase code).
Proof.
  intros He Ha Ht _. unfold detectCurrency, dataAttributeCurrency, ownDataCurrency.
  rewrite He, Ha. cbn [or_str]. rewrite Ht. cbn [truthy_opt]. rewrite Ht. reflexivity.
Qed.

(** The link [<a class="price" data-currency="USD">€50</a>] is read as
    a price in dollars. *)
Lemma detectCurrency_data_attribute_witness :
  detectCurrency shekelGlobals (dollarLinkPage "€50" "") (js "€50") (Some 1%nat)
  = Some (js "USD").
Proof.
  exact (detectCurrency_data_attribute shekelGlobals (dollarLinkPage "€50" "") (js "€50")
           1 dollarLink (js "USD") eq_refl eq_refl eq_refl eq_refl).
Defined.

(* ===================================================================== *)
(** * Properties of the scores *)
(* ===================================================================== *)

Ltac split_ifs :=
  repeat match goal with
         | |- context [if ?b then _ else _] => destruct b
         end.

(** X6: the confidence of the textual validation lies between 0 and
    100, the text is accepted as a price exactly when the confidence is
    at least 60, and an empty text or a missing element gives the
    rejection with confidence 0. *)
Theorem isProbablyPrice_confidence (doc : Document) (text : list N) (element : nat) :
  (0 <= confidence (isProbablyPrice doc text element) <= 100)%Z
  /\ (isPrice (isProbablyPrice doc text element) = true
      <-> (60 <= confidence (isProbablyPrice doc text element))%Z)
  /\ (truthy text = false \/ element_at doc element = None ->
      isProbablyPrice doc text element = mkValidation false 0 []).
Proof.
  unfold isProbablyPrice. cbv zeta.
  destruct (truthy text); cbn [negb].
  2: { cbn. repeat split; try lia; try discriminate. }
  destruct (element_at doc element) as [e |].
  2: { cbn. repeat split; try lia; try discriminate. }
  assert (forall r, (0 <= confidence (mkValidation false 0 r) <= 100)%Z
                    /\ (isPrice (mkValidation false 0 r) = true
                        <-> (60 <= confidence (mkValidation false 0 r))%Z)) as Hreject.
  { intros r. cbn. split; [lia | split; [discriminate | lia]]. }
  split; [| split]; try (intros [H | H]; discriminate).
  - destruct (test phoneNumberPattern _); [apply Hreject |].
    destruct (_ && _); [apply Hreject |].
    destruct (test productCodePattern _); [apply Hreject |].
    destruct (test dimensionPattern _); [apply Hreject |].
    cbn [confidence]. lia.
  - destruct (test phoneNumberPattern _); [apply Hreject |].
    destruct (_ && _); [apply Hreject |].
    destruct (test productCodePattern _); [apply Hreject |].
    destruct (test dimensionPattern _); [apply Hreject |].
    cbn [confidence isPrice]. rewrite Z.leb_le. lia.
Qed.

(** X7: the rule by which the selector-based pass skips an old price.
    The sale confidence lies between 0 and 100, and a candidate is an
    old price with a confidence above 50 exactly when it is struck
    through and has a sale keyword or a sale class, or has a sale
    keyword, a sale class and a discount in the text of its parent. *)
Theorem detectSalePrice_skip_rule (doc : Document) (element : nat) (e : Element) :
  (0 <= saleConfidence (detectSalePrice doc element e) <= 100)%Z
  /\ (isOldPrice (detectSalePrice doc element e)
      && (50 <? saleConfidence (detectSalePrice doc element e))%Z
      = (isStrikethrough e && (hasSaleKeywords doc element || hasSaleClass e))
        || (hasSaleKeywords doc element && hasSaleClass e
            && hasDiscountContext doc element)).
Proof.
  unfold detectSalePrice, isStrikethrough, hasSaleKeywords, hasDiscountContext,
    hasSaleClass, bonus.
  cbv zeta. cbn [saleConfidence isOldPrice].
  destruct (_ || _), (test saleKeywordsPattern _), (test saleClassPattern _),
    (test discountContextPattern _); cbn; split; (lia || reflexivity).
Qed.

(** X8: the visual score lies between 0 and 100; it is 0 for an element
    that is not visible, and at least 30 for one that is. *)
Theorem analyzeVisualContext_range (g : Globals) (e : Element) :
  (0 <= analyzeVisualContext g e <= 100)%Z
  /\ (isVisible e = false -> analyzeVisualContext g e = 0%Z)
  /\ (isVisible e = true -> (30 <= analyzeVisualContext g e)%Z).
Proof.
  unfold analyzeVisualContext, isVisible, bonus. cbv zeta.
  destruct (_ && _ && _ && _ && _); cbn [negb].
  - split; [lia |]. split; [discriminate | intros _]. split_ifs; lia.
  - split; [lia | split; [reflexivity | discriminate]].
Qed.

(** X9: the semantic score lies between 0 and 100, and it is 0 for an
    element with none of the attributes [itemprop], [itemtype],
    [aria-label], [data-price], [data-amount], [data-currency] and
    [role]. *)
Theorem analyzeSemanticHTML_range (doc : Document) (element : nat) (e : Element) :
  (0 <= analyzeSemanticHTML doc element e <= 100)%Z
  /\ (getAttribute e (js "itemprop") = None ->
      getAttribute e (js "itemtype") = None ->
      getAttribute e (js "aria-label") = None ->
      getAttribute e (js "data-price") = None ->
      getAttribute e (js "data-amount") = None ->
      getAttribute e (js "data-currency") = None ->
      getAttribute e (js "role") = None ->
      analyzeSemanticHTML doc element e = 0%Z).
Proof.
  unfold analyzeSemanticHTML, bonus. cbv zeta. split.
  - split_ifs; lia.
  - unfold attr_is, attr_includes. intros -> -> -> -> -> -> ->. reflexivity.
Qed.

(** ** The values of the scores *)

Lemma five_bonus (b : bool) (p : Z) : (5 | p)%Z -> (5 | bonus b p)%Z.
Proof. intros H. destruct b; [exact H | apply Z.divide_0_r]. Qed.

Lemma five_if (b : bool) (x y : Z) :
  (5 | x)%Z -> (5 | y)%Z -> (5 | if b then x else y)%Z.
Proof. now destruct b. Qed.

Lemma five_clamp (x : Z) : (5 | x)%Z -> (5 | Z.min 100 (Z.max 0 x))%Z.
Proof.
  intros H.
  destruct (Z.max_spec 0 x) as [[_ ->] | [_ ->]];
    [destruct (Z.min_spec 100 x) as [[_ ->] | [_ ->]]; [now exists 20%Z | exact H] |].
  now exists 0%Z.
Qed.

Lemma five_min (x : Z) : (5 | x)%Z -> (5 | Z.min 100 x)%Z.
Proof.
  intros H. destruct (Z.min_spec 100 x) as [[_ ->] | [_ ->]]; [now exists 20%Z | exact H].
Qed.

Ltac fives :=
  repeat first
    [ apply Z.divide_add_r
    | apply five_bonus
    | apply five_if
    | apply five_clamp
    | apply five_min
    | apply Z.divide_0_r
    | (apply Z.mod_divide; [discriminate | reflexivity]) ].

Lemma scoreValues_In (s : Z) : (0 <= s <= 100)%Z -> (5 | s)%Z -> In s scoreValues.
Proof.
  intros Hs [k ->]. unfold scoreValues. apply in_map_iff.
  exists (Z.to_nat k). split; [lia |]. apply in_seq. lia.
Qed.

Lemma bonus_nonneg (b : bool) (p : Z) : (0 <= p)%Z -> (0 <= bonus b p)%Z.
Proof. intros H. now destruct b. Qed.

Lemma analyzeVisualContext_value (g : Globals) (e : Element) :
  In (analyzeVisualContext g e) scoreValues.
Proof.
  unfold analyzeVisualContext. cbv zeta.
  destruct (negb _); [now left |].
  apply scoreValues_In; [lia | fives].
Qed.

Lemma analyzeSemanticHTML_value (doc : Document) (element : nat) (e : Element) :
  In (analyzeSemanticHTML doc element e) scoreValues.
Proof.
  unfold analyzeSemanticHTML. cbv zeta.
  apply scoreValues_In; [| fives].
  split; [| lia]. apply Z.min_glb; [lia |].
  repeat apply Z.add_nonneg_nonneg; now apply bonus_nonneg.
Qed.

Lemma rangeBonus_five (text : list N) : (5 | rangeBonus text)%Z.
Proof.
  unfold rangeBonus. destruct (exec numberPattern text); [| apply Z.divide_0_r].
  cbv zeta. fives.
Qed.

Lemma confidence_value (doc : Document) (text : list N) (element : nat) :
  In (confidence (isProbablyPrice doc text element)) scoreValues.
Proof.
  unfold isProbablyPrice. cbv zeta.
  destruct (negb (truthy text)); [now left |].
  destruct (element_at doc element) as [e |]; [| now left].
  destruct (test phoneNumberPattern _); [now left |].
  destruct (_ && _); [now left |].
  destruct (test productCodePattern _); [now left |].
  destruct (test dimensionPattern _); [now left |].
  cbn [confidence]. apply scoreValues_In; [lia |].
  apply five_clamp. repeat apply Z.divide_add_r; try apply rangeBonus_five; fives.
Qed.

Lemma contextScore_value (doc : Document) (element : nat) (e : Element) :
  In (contextScore doc element e) baseValues.
Proof.
  unfold contextScore, baseValues, bonus. cbv zeta.
  destruct (test buyContextPattern _), (test productClassPattern _); cbn; auto.
Qed.

Lemma structScore_value (doc : Document) (element : nat) (e : Element) :
  In (structScore doc element e) baseValues.
Proof.
  unfold structScore, baseValues, bonus. cbv zeta.
  destruct (existsb _ _), (match parentElement doc element with Some _ => _ | None => _ end);
    cbn; auto.
Qed.

(** ** The total *)

(** The floating-point sum, rounded, is [exactTotal] on all the values
    that the five scores take. *)
Lemma totals_exact :
  forallb (fun v => let a := PrimFloat.add zero (snd v) in
  forallb (fun vis => let b := PrimFloat.add a (snd vis) in
  forallb (fun sem => let c := PrimFloat.add b (snd sem) in
  forallb (fun ctx => let d := PrimFloat.add c (snd ctx) in
  forallb (fun str =>
             (round_Z (PrimFloat.add d (snd str))
              =? exactTotal (fst v) (fst vis) (fst sem) (fst ctx) (fst str))%Z)
          structuralProducts) contextualProducts) semanticProducts) visualProducts)
          validationProducts
  = true.
Proof. vm_compute. reflexivity. Qed.

Lemma products_In (values : list Z) (weight : string) (s : Z) :
  In s values -> In (s, weighted s weight) (products values weight).
Proof. intros H. unfold products. now apply (in_map (fun s => (s, weighted s weight))). Qed.

Lemma forallb_In {A : Type} (f : A -> bool) (l : list A) (x : A) :
  forallb f l = true -> In x l -> f x = true.
Proof. intros H. now apply forallb_forall. Qed.

Lemma weightedSum_exact (v vis sem ctx str : Z) :
  In v scoreValues -> In vis scoreValues -> In sem scoreValues ->
  In ctx baseValues -> In str baseValues ->
  round_Z (weightedSum v vis sem ctx str) = exactTotal v vis sem ctx str.
Proof.
  intros Hv Hvis Hsem Hctx Hstr.
  pose proof totals_exact as H.
  apply (fun H => forallb_In _ _ (v, weighted v "0.25") H (products_In _ _ _ Hv)) in H.
  cbv beta zeta in H.
  apply (fun H => forallb_In _ _ (vis, weighted vis "0.20") H (products_In _ _ _ Hvis)) in H.
  cbv beta zeta in H.
  apply (fun H => forallb_In _ _ (sem, weighted sem "0.25") H (products_In _ _ _ Hsem)) in H.
  cbv beta zeta in H.
  apply (fun H => forallb_In _ _ (ctx, weighted ctx "0.15") H (products_In _ _ _ Hctx)) in H.
  cbv beta zeta in H.
  apply (fun H => forallb_In _ _ (str, weighted str "0.15") H (products_In _ _ _ Hstr)) in H.
  cbv beta zeta in H.
  cbn [fst snd] in H. apply Z.eqb_eq in H. exact H.
Qed.

(** X10: the total score, which the program computes in floating point
    with the weights 0.25, 0.20, 0.25, 0.15 and 0.15, is exactly the
    weighted mean of the five scores rounded to the nearest integer.
    It lies between 15 and 100, and it is at most 50, below the
    threshold of the confidence gate, for a candidate whose validation
    and semantic scores are both 0. *)
Theorem scorePriceElement_exact (g : Globals) (doc : Document) (element : nat)
  (e : Element) (text : list N) :
  scorePriceElement g doc element e text
  = exactTotal (confidence (isProbablyPrice doc text element))
      (analyzeVisualContext g e) (analyzeSemanticHTML doc element e)
      (contextScore doc element e) (structScore doc element e)
  /\ (15 <= scorePriceElement g doc element e text <= 100)%Z
  /\ (confidence (isProbablyPrice doc text element) = 0%Z ->
      analyzeSemanticHTML doc element e = 0%Z ->
      (scorePriceElement g doc element e text <= 50)%Z).
Proof.
  unfold scorePriceElement.
  rewrite weightedSum_exact
    by first [ apply confidence_value | apply analyzeVisualContext_value
             | apply analyzeSemanticHTML_value | apply contextScore_value
             | apply structScore_value ].
  split; [reflexivity |].
  pose proof (confidence_value doc text element) as Hv.
  pose proof (analyzeVisualContext_value g e) as Hvis.
  pose proof (analyzeSemanticHTML_value doc element e) as Hsem.
  pose proof (contextScore_value doc element e) as Hctx.
  pose proof (structScore_value doc element e) as Hstr.
  assert (forall s, In s scoreValues -> (0 <= s <= 100)%Z) as Hrange.
  { intros s Hs. unfold scoreValues in Hs. apply in_map_iff in Hs.
    destruct Hs as (k & <- & Hk). apply in_seq in Hk. lia. }
  assert (forall s, In s baseValues -> (50 <= s <= 100)%Z) as Hbase.
  { intros s Hs. unfold baseValues in Hs. cbn in Hs. lia. }
  apply Hrange in Hv, Hvis, Hsem. apply Hbase in Hctx, Hstr.
  unfold exactTotal. split.
  - Z.div_mod_to_equations. lia.
  - intros -> ->. Z.div_mod_to_equations. lia.
Qed.

(* ===================================================================== *)
(** * Further properties of extractAmount *)
(* ===================================================================== *)

(** X11: the currency enters amount extraction only as the hint of the
    decimal comma.  Two currencies that are both in the European list,
    or both outside it, give the same amount for every text and
    element. *)
Theorem extractAmount_uses_currency_as_hint (doc : Document) (text c c' : list N)
  (element : option nat) :
  preferComma c = preferComma c' ->
  extractAmount doc text c element = extractAmount doc text c' element.
Proof. apply extractAmount_hint. Qed.

(** "1.234" reads the same for the dollar and the pound, and for the
    euro and the krona, and differently for the dollar and the euro. *)
Lemma extractAmount_uses_currency_as_hint_witness :
  extractAmount ∅ (js "1.234") (js "USD") None
  = extractAmount ∅ (js "1.234") (js "GBP") None
  /\ extractAmount ∅ (js "1.234") (js "EUR") None
     = extractAmount ∅ (js "1.234") (js "SEK") None
  /\ extractAmount ∅ (js "1.234") (js "USD") None
     <> extractAmount ∅ (js "1.234") (js "EUR") None.
Proof.
  split; [| split].
  - apply extractAmount_uses_currency_as_hint. vm_compute. reflexivity.
  - apply extractAmount_uses_currency_as_hint. vm_compute. reflexivity.
  - vm_compute. discriminate.
Defined.

Lemma amountScan_positive (patterns : list string) (text currency : list N) (r : float) :
  amountScan patterns text currency = Some r ->
  isNaN r = false /\ isFinite r = true /\ PrimFloat.ltb zero r = true.
Proof.
  induction patterns as [| lit rest IH]; cbn [amountScan]; [discriminate |].
  destruct (exec (RE lit) text) as [m |]; [| exact IH].
  destruct (amountText lit m) as [amountStr |]; [| exact IH].
  destruct (truthy amountStr); [| exact IH].
  destruct (negb (isNaN (cleanAmount amountStr currency))
            && isFinite (cleanAmount amountStr currency)
            && PrimFloat.ltb zero (cleanAmount amountStr currency)) eqn:E; [| exact IH].
  intros [= <-].
  apply andb_prop in E. destruct E as [E E3]. apply andb_prop in E. destruct E as [E1 E2].
  apply negb_true_iff in E1. auto.
Qed.

(** X12: outside the branch of the abbreviated amounts (as in "$5k"),
    an amount that [extractAmount] returns is a finite number above
    zero: never NaN, never infinite, never zero or negative.  (The
    abbreviated branch returns its product as it is: "$0k" gives 0.) *)
Theorem extractAmount_positive (doc : Document) (text currency : list N)
  (element : option nat) (r : float) :
  exec abbreviatedPattern (amountInput doc text element) = None ->
  extractAmount doc text currency element = Some r ->
  isNaN r = false /\ isFinite r = true /\ PrimFloat.ltb zero r = true.
Proof.
  intros Habbr. unfold extractAmount. cbv zeta.
  change (match element with
          | Some el => _
          | None => normalizePriceText text
          end) with (amountInput doc text element).
  rewrite Habbr. apply amountScan_positive.
Qed.

(** The amount of "$5", and that of "$0k". *)
Lemma extractAmount_positive_witness :
  extractAmount ∅ (js "$5") (js "USD") None = Some (num "5")
  /\ (isNaN (num "5") = false /\ isFinite (num "5") = true
      /\ PrimFloat.ltb zero (num "5") = true)
  /\ extractAmount ∅ (js "$0k") (js "USD") None = Some zero.
Proof.
  split; [vm_compute; reflexivity | split; [| vm_compute; reflexivity]].
  apply (extractAmount_positive ∅ (js "$5") (js "USD") None (num "5"));
    vm_compute; reflexivity.
Defined.

(* ===================================================================== *)
(** * Properties of applyConversion *)
(* ===================================================================== *)

(** ** The conversion data *)

Lemma keepsAttribute_setAttribute (n n' v : list N) :
  JsString.eqb n' n = false -> keepsAttribute n (fun e => setAttribute e n' v).
Proof. intros H e. now apply getAttribute_setAttribute_other. Qed.

Lemma keepsAttribute_setStyle (n p v : list N) :
  keepsAttribute n (fun e => setStyle e p v).
Proof. intros e. reflexivity. Qed.

Lemma keepsAttribute_applyStyles (n : list N) (styles : list (list N * list N)) :
  keepsAttribute n (applyStyles styles).
Proof.
  unfold applyStyles. intros e. revert e.
  induction styles as [| pv styles IH]; intros e; cbn [fold_left]; [reflexivity |].
  now rewrite IH.
Qed.

Lemma keepsAttribute_highlight (n : list N) (g : Globals) (width : string) :
  keepsAttribute n (highlight g width).
Proof. intros e. unfold highlight. now destruct (highlightPrices (settings g)). Qed.

Lemma keepsAttribute_setupPriceContextMenu (n : list N) (g : Globals) :
  keepsAttribute n (setupPriceContextMenu g).
Proof.
  intros e. unfold setupPriceContextMenu. now destruct (replacePrice (settings g)).
Qed.

(** The steps of [applyConversion] after the conversion data is stored
    keep every attribute but [title]. *)
Lemma applyConversion_unfold (g : Globals) (doc : Document) (element : nat)
  (amount : float) (sourceCurrency : list N) (convertedAmount : float)
  (targetCurrency : list N) (e0 : Element) (n : list N) :
  element_at doc element = Some e0 ->
  JsString.eqb (js "title") n = false ->
  exists e2 e',
    element_at (applyConversion g doc element amount sourceCurrency convertedAmount
                  targetCurrency) element = Some e'
    /\ getAttribute e' n = getAttribute e2 n
    /\ e2 = dataset_set (js "data-converted-text")
              (generateConvertedText (storedOriginal doc element e0) convertedAmount
                 targetCurrency)
              (dataset_set (js "data-target-amount") (toFixed convertedAmount 2)
                 (dataset_set (js "data-source-amount") (toString amount)
                    (dataset_set (js "data-source-currency") sourceCurrency
                       (dataset_set (js "data-converted") (js "true")
                          (if truthy_opt (getAttribute e0 (js "data-original-price"))
                           then e0
                           else dataset_set (js "data-original-price")
                                  (textContent doc element) e0))))).
Proof.
  intros He0 Hn. unfold applyConversion. rewrite He0. cbv zeta.
  fold (storedOriginal doc element e0).
  set (doc1 := if truthy_opt (getAttribute e0 (js "data-original-price")) then doc
               else update_element doc element _).
  set (e1 := if truthy_opt (getAttribute e0 (js "data-original-price")) then e0
             else dataset_set (js "data-original-price") (textContent doc element) e0).
  assert (element_at doc1 element = Some e1) as He1.
  { subst doc1 e1. destruct (truthy_opt _); [exact He0 |].
    now rewrite element_at_update_element, He0. }
  set (F := fun e => dataset_set (js "data-converted-text") _ _).
  assert (element_at (update_element doc1 element F) element = Some (F e1)) as He2
      by now rewrite element_at_update_element, He1.
  exists (F e1).
  rewrite element_at_update_element.
  destruct (replacePrice (settings g)).
  - rewrite element_at_update_element, element_at_set_textContent, He2.
    eexists. split; [reflexivity |]. split; [| reflexivity].
    rewrite keepsAttribute_setupPriceContextMenu. cbv beta zeta.
    destruct (highlightPrices (settings g)).
    + rewrite keepsAttribute_setStyle, keepsAttribute_applyStyles.
      now apply getAttribute_setAttribute_other.
    + rewrite keepsAttribute_applyStyles.
      now apply getAttribute_setAttribute_other.
  - rewrite element_at_update_element, He2.
    eexists. split; [reflexivity |]. split; [| reflexivity].
    rewrite keepsAttribute_setupPriceContextMenu. cbv beta zeta.
    rewrite keepsAttribute_highlight.
    destruct (showInlineConversion (settings g)); [| reflexivity].
    now apply getAttribute_setAttribute_other.
Qed.

(** What [applyConversion] stores on the element. *)
Lemma applyConversion_attributes (g : Globals) (doc : Document) (element : nat)
  (amount : float) (sourceCurrency : list N) (convertedAmount : float)
  (targetCurrency : list N) (e0 : Element) :
  element_at doc element = Some e0 ->
  exists e',
    element_at (applyConversion g doc element amount sourceCurrency convertedAmount
                  targetCurrency) element = Some e'
    /\ getAttribute e' (js "data-original-price") = Some (storedOriginal doc element e0)
    /\ getAttribute e' (js "data-converted") = Some (js "true")
    /\ getAttribute e' (js "data-source-currency") = Some sourceCurrency
    /\ getAttribute e' (js "data-source-amount") = Some (toString amount)
    /\ getAttribute e' (js "data-target-amount") = Some (toFixed convertedAmount 2)
    /\ getAttribute e' (js "data-converted-text")
       = Some (generateConvertedText (storedOriginal doc element e0) convertedAmount
                 targetCurrency).
Proof.
  intros He0.
  assert (forall n, JsString.eqb (js "title") n = false ->
                    exists e2 e', _) as H
      by (intros n; apply (applyConversion_unfold g doc element amount sourceCurrency
                             convertedAmount targetCurrency e0 n He0)).
  destruct (H (js "data-converted") ltac:(vm_compute; reflexivity)) as (e2 & e' & He' & _ & He2).
  exists e'. split; [exact He' |].
  assert (forall n, JsString.eqb (js "title") n = false ->
                    getAttribute e' n = getAttribute e2 n) as Hget.
  { intros n Hn. destruct (H n Hn) as (e2' & e'' & He'' & Hg & He2').
    rewrite He' in He''. injection He'' as <-. now rewrite Hg, He2, He2'. }
  rewrite !Hget by (vm_compute; reflexivity). rewrite He2. unfold dataset_set.
  repeat split.
  - rewrite !getAttribute_setAttribute_other by (vm_compute; reflexivity).
    unfold storedOriginal.
    destruct (getAttribute e0 (js "data-original-price")) as [s |] eqn:Es; cbn [truthy_opt].
    + destruct (truthy s); [now rewrite Es |]. apply getAttribute_setAttribute.
    + apply getAttribute_setAttribute.
  - rewrite !getAttribute_setAttribute_other by (vm_compute; reflexivity).
    apply getAttribute_setAttribute.
  - rewrite !getAttribute_setAttribute_other by (vm_compute; reflexivity).
    apply getAttribute_setAttribute.
  - rewrite !getAttribute_setAttribute_other by (vm_compute; reflexivity).
    apply getAttribute_setAttribute.
  - rewrite !getAttribute_setAttribute_other by (vm_compute; reflexivity).
    apply getAttribute_setAttribute.
  - apply getAttribute_setAttribute.
Qed.

(** X13: after [applyConversion] the element carries the conversion
    data: [data-converted] is "true", [data-source-currency] the source
    currency, [data-source-amount] the amount as text,
    [data-target-amount] the converted amount with two decimals,
    [data-converted-text] the text generated from the original price,
    and [data-original-price] the original price, which is the one
    stored before when there is one and else the text of the element. *)
Theorem applyConversion_dataset (g : Globals) (doc : Document) (element : nat)
  (amount : float) (sourceCurrency : list N) (convertedAmount : float)
  (targetCurrency : list N) (e0 : Element) :
  element_at doc element = Some e0 ->
  exists e',
    element_at (applyConversion g doc element amount sourceCurrency convertedAmount
                  targetCurrency) element = Some e'
    /\ getAttribute e' (js "data-original-price") = Some (storedOriginal doc element e0)
    /\ getAttribute e' (js "data-converted") = Some (js "true")
    /\ getAttribute e' (js "data-source-currency") = Some sourceCurrency
    /\ getAttribute e' (js "data-source-amount") = Some (toString amount)
    /\ getAttribute e' (js "data-target-amount") = Some (toFixed convertedAmount 2)
    /\ getAttribute e' (js "data-converted-text")
       = Some (generateConvertedText (storedOriginal doc element e0) convertedAmount
                 targetCurrency).
Proof. apply applyConversion_attributes. Qed.

(** The link [<a class="price">$100</a>], converted to 370 shekels. *)
Lemma applyConversion_dataset_witness :
  exists e',
    element_at (applyConversion shekelGlobals (pricePage "$100" "24px") 1 (num "100")
                  (js "USD") (num "370") (js "ILS")) 1 = Some e'
    /\ getAttribute e' (js "data-original-price")
       = Some (storedOriginal (pricePage "$100" "24px") 1 (priceLink "24px"))
    /\ getAttribute e' (js "data-converted") = Some (js "true")
    /\ getAttribute e' (js "data-source-currency") = Some (js "USD")
    /\ getAttribute e' (js "data-source-amount") = Some (toString (num "100"))
    /\ getAttribute e' (js "data-target-amount") = Some (toFixed (num "370") 2)
    /\ getAttribute e' (js "data-converted-text")
       = Some (generateConvertedText
                 (storedOriginal (pricePage "$100" "24px") 1 (priceLink "24px"))
                 (num "370") (js "ILS")).
Proof.
  apply (applyConversion_dataset shekelGlobals (pricePage "$100" "24px") 1 (num "100")
           (js "USD") (num "370") (js "ILS") (priceLink "24px")).
  vm_compute. reflexivity.
Defined.

(** X14: a conversion that is applied again starts from the original
    price.  When the original price of the element is not empty, after
    a second [applyConversion] (with any amounts, currencies and
    settings) [data-original-price] still is the price before the
    first one, and the converted text is generated from it. *)
Theorem applyConversion_again_keeps_original (g g' : Globals) (doc : Document)
  (element : nat) (e0 : Element)
  (amount : float) (sourceCurrency : list N) (convertedAmount : float)
  (targetCurrency : list N)
  (amount' : float) (sourceCurrency' : list N) (convertedAmount' : float)
  (targetCurrency' : list N) :
  element_at doc element = Some e0 ->
  truthy (storedOriginal doc element e0) = true ->
  exists e'',
    element_at
      (applyConversion g'
         (applyConversion g doc element amount sourceCurrency convertedAmount
            targetCurrency)
         element amount' sourceCurrency' convertedAmount' targetCurrency') element
    = Some e''
    /\ getAttribute e'' (js "data-original-price") = Some (storedOriginal doc element e0)
    /\ getAttribute e'' (js "data-converted-text")
       = Some (generateConvertedText (storedOriginal doc element e0) convertedAmount'
                 targetCurrency').
Proof.
  intros He0 Ht.
  destruct (applyConversion_attributes g doc element amount sourceCurrency convertedAmount
              targetCurrency e0 He0) as (e' & He' & Ho & _).
  destruct (applyConversion_attributes g' _ element amount' sourceCurrency' convertedAmount'
              targetCurrency' e' He') as (e'' & He'' & Ho' & _ & _ & _ & _ & Hc').
  assert (storedOriginal
            (applyConversion g doc element amount sourceCurrency convertedAmount
               targetCurrency) element e' = storedOriginal doc element e0) as Hs.
  { unfold storedOriginal at 1. rewrite Ho. cbn [truthy_opt default]. now rewrite Ht. }
  rewrite Hs in Ho', Hc'. now exists e''.
Qed.

(** The link [<a class="price">$100</a>], converted to shekels with the
    price replaced and then to euros: the original price still is
    "$100". *)
Lemma applyConversion_again_keeps_original_witness :
  exists e'',
    element_at
      (applyConversion replaceGlobals
         (applyConversion replaceGlobals (pricePage "$100" "24px") 1 (num "100")
            (js "USD") (num "370") (js "ILS"))
         1 (num "100") (js "USD") (num "92") (js "EUR")) 1
    = Some e''
    /\ getAttribute e'' (js "data-original-price")
       = Some (storedOriginal (pricePage "$100" "24px") 1 (priceLink "24px"))
    /\ getAttribute e'' (js "data-converted-text")
       = Some (generateConvertedText
                 (storedOriginal (pricePage "$100" "24px") 1 (priceLink "24px"))
                 (num "92") (js "EUR")).
Proof.
  apply (applyConversion_again_keeps_original replaceGlobals replaceGlobals
           (pricePage "$100" "24px") 1 (priceLink "24px"));
    vm_compute; reflexivity.
Defined.

(** ** The tree and the texts *)

Lemma sameTree_refl (doc : Document) : sameTree doc doc.
Proof. reflexivity. Qed.

Lemma sameTree_trans (a b c : Document) : sameTree a b -> sameTree b c -> sameTree a c.
Proof. unfold sameTree. congruence. Qed.

Lemma sameTree_update_element (doc : Document) (id : nat) (f : Element -> Element) :
  sameTree doc (update_element doc id f).
Proof.
  unfold sameTree, update_element.
  destruct (doc !! id) as [[p [d | e kids]] |] eqn:E; try reflexivity.
  rewrite fmap_insert. apply insert_id. now rewrite lookup_fmap, E.
Qed.

Lemma sameTree_lookup (doc doc' : Document) (id : nat) :
  sameTree doc doc' -> shape <$> (doc' !! id) = shape <$> (doc !! id).
Proof. intros H. rewrite <- !lookup_fmap. now rewrite H. Qed.

Lemma sameTree_size (doc doc' : Document) : sameTree doc doc' -> size doc' = size doc.
Proof.
  intros H. rewrite <- (map_size_fmap shape doc'), <- (map_size_fmap shape doc).
  now rewrite H.
Qed.

Lemma sameTree_childNodes (doc doc' : Document) (id : nat) :
  sameTree doc doc' -> childNodes doc' id = childNodes doc id.
Proof.
  intros H. apply (sameTree_lookup _ _ id) in H. unfold childNodes.
  destruct (doc' !! id) as [[p' [d' | e' kids']] |],
           (doc !! id) as [[p [d | e kids]] |]; unfold shape in H; cbn in H; congruence.
Qed.

Lemma sameTree_textContent_upto (doc doc' : Document) (fuel : nat) :
  sameTree doc doc' ->
  forall id, textContent_upto fuel doc' id = textContent_upto fuel doc id.
Proof.
  intros H. induction fuel as [| f IH]; intros id; [reflexivity |].
  cbn [textContent_upto].
  pose proof (sameTree_lookup _ _ id H) as Hid.
  destruct (doc' !! id) as [[p' [d' | e' kids']] |],
           (doc !! id) as [[p [d | e kids]] |]; unfold shape in Hid; cbn in Hid; try congruence.
  injection Hid as _ ->. clear - IH.
  induction kids as [| k kids IHk]; [reflexivity |].
  cbn [flat_map]. now rewrite IH, IHk.
Qed.

Lemma sameTree_textContent (doc doc' : Document) (id : nat) :
  sameTree doc doc' -> textContent doc' id = textContent doc id.
Proof.
  intros H. unfold textContent. rewrite (sameTree_size _ _ H).
  now apply sameTree_textContent_upto.
Qed.

Lemma applyConversion_sameTree (g : Globals) (doc : Document) (element : nat)
  (amount : float) (sourceCurrency : list N) (convertedAmount : float)
  (targetCurrency : list N) :
  replacePrice (settings g) = false ->
  sameTree doc (applyConversion g doc element amount sourceCurrency convertedAmount
                  targetCurrency).
Proof.
  intros Hr. unfold applyConversion.
  destruct (element_at doc element) as [e0 |]; [| apply sameTree_refl].
  cbv zeta. rewrite Hr.
  eapply sameTree_trans; [| apply sameTree_update_element].
  eapply sameTree_trans; [| apply sameTree_update_element].
  eapply sameTree_trans; [| apply sameTree_update_element].
  destruct (truthy_opt _); [apply sameTree_refl | apply sameTree_update_element].
Qed.

(** ** The other elements *)

Lemma element_at_update_element_other (doc : Document) (id k : nat)
  (f : Element -> Element) :
  k <> id -> element_at (update_element doc id f) k = element_at doc k.
Proof.
  intros Hk. unfold update_element, element_at.
  destruct (doc !! id) as [[p [d | e kids]] |]; try reflexivity.
  now rewrite lookup_insert_ne by congruence.
Qed.

Lemma element_at_detach (doc : Document) (id k : nat) :
  element_at (detach doc id) k = element_at doc k.
Proof.
  unfold detach, element_at.
  destruct (doc !! id) as [[p c] |] eqn:E; [| reflexivity].
  destruct (decide (k = id)) as [-> | Hk].
  - now rewrite lookup_insert_eq, E.
  - now rewrite lookup_insert_ne by congruence.
Qed.

Lemma element_at_fold_detach (kids : list nat) (k : nat) :
  forall doc, element_at (fold_left detach kids doc) k = element_at doc k.
Proof.
  induction kids as [| c kids IH]; intros doc; cbn [fold_left]; [reflexivity |].
  now rewrite IH, element_at_detach.
Qed.

Lemma element_at_insert_other (doc : Document) (id k : nat) (n : Node) :
  k <> id -> element_at (<[id := n]> doc) k = element_at doc k.
Proof. intros Hk. unfold element_at. now rewrite lookup_insert_ne by congruence. Qed.

Lemma element_at_set_textContent_other (doc : Document) (id k : nat) (s : list N) :
  k <> id -> element_at (set_textContent doc id s) k = element_at doc k.
Proof.
  intros Hk. unfold set_textContent.
  destruct (doc !! id) as [[p [d | e kids]] |] eqn:E; try reflexivity.
  cbv zeta. destruct s as [| c r].
  - now rewrite element_at_insert_other, element_at_fold_detach.
  - destruct (decide (k = fresh doc)) as [-> | Hf].
    + unfold element_at at 1. rewrite lookup_insert_eq.
      unfold element_at.
      destruct (doc !! fresh doc) as [n |] eqn:En; [| reflexivity].
      exfalso. now apply (fresh_not_key doc (fresh doc)); [rewrite En |].
    + now rewrite !element_at_insert_other, element_at_fold_detach.
Qed.

Lemma applyConversion_other (g : Globals) (doc : Document) (element k : nat)
  (amount : float) (sourceCurrency : list N) (convertedAmount : float)
  (targetCurrency : list N) :
  k <> element ->
  element_at (applyConversion g doc element amount sourceCurrency convertedAmount
                targetCurrency) k = element_at doc k.
Proof.
  intros Hk. unfold applyConversion.
  destruct (element_at doc element) as [e0 |]; [| reflexivity]. cbv zeta.
  rewrite element_at_update_element_other by exact Hk.
  assert (forall d, element_at
            (if truthy_opt (getAttribute e0 (js "data-original-price")) then d
             else update_element d element
                    (dataset_set (js "data-original-price") (textContent doc element))) k
          = element_at d k) as H1.
  { intros d. destruct (truthy_opt _); [reflexivity |].
    now apply element_at_update_element_other. }
  destruct (replacePrice (settings g)).
  - rewrite element_at_update_element_other, element_at_set_textContent_other,
      element_at_update_element_other by exact Hk.
    apply H1.
  - rewrite !element_at_update_element_other by exact Hk. apply H1.
Qed.

(** ** The displayed text *)

Lemma textContent_set_textContent (doc : Document) (id : nat) (s : list N) :
  is_Some (element_at doc id) -> textContent (set_textContent doc id s) id = s.
Proof.
  intros [e He]. unfold set_textContent. unfold element_at in He.
  destruct (doc !! id) as [[p [d | e' kids]] |] eqn:E; try discriminate.
  cbv zeta. destruct s as [| c r].
  - unfold textContent. cbn [textContent_upto]. now rewrite lookup_insert_eq.
  - assert (fresh doc <> id) as Hf by (apply fresh_not_key; now rewrite E).
    unfold textContent. cbn [textContent_upto].
    rewrite lookup_insert_ne by congruence. rewrite lookup_insert_eq.
    cbn [flat_map]. rewrite app_nil_r.
    set (doc' := <[fresh doc := _]> _).
    assert (size doc' <> 0%nat) as Hs.
    { apply (map_size_ne_0_lookup_2 _ (fresh doc)). subst doc'.
      now rewrite lookup_insert_eq. }
    destruct (size doc') as [| n]; [congruence |].
    cbn [textContent_upto]. subst doc'. now rewrite lookup_insert_eq.
Qed.

(** X15: when prices are replaced, after [applyConversion] the text of
    the element is the converted text that was generated from the
    original price, and its [title] is "Original: " followed by the
    original price with its white space collapsed and the source
    currency in brackets. *)
Theorem applyConversion_replaces_text (g : Globals) (doc : Document) (element : nat)
  (amount : float) (sourceCurrency : list N) (convertedAmount : float)
  (targetCurrency : list N) (e0 : Element) :
  replacePrice (settings g) = true ->
  element_at doc element = Some e0 ->
  textContent (applyConversion g doc element amount sourceCurrency convertedAmount
                 targetCurrency) element
  = generateConvertedText (storedOriginal doc element e0) convertedAmount targetCurrency
  /\ exists e',
       element_at (applyConversion g doc element amount sourceCurrency convertedAmount
                     targetCurrency) element = Some e'
       /\ getAttribute e' (js "title")
          = Some (js "Original: " ++ collapseSpaces (storedOriginal doc element e0)
                  ++ js " (" ++ sourceCurrency ++ js ")").
Proof.
  intros Hr He0. unfold applyConversion. rewrite He0. cbv zeta. rewrite Hr.
  fold (storedOriginal doc element e0).
  set (doc1 := if truthy_opt (getAttribute e0 (js "data-original-price")) then doc
               else update_element doc element _).
  assert (is_Some (element_at doc1 element)) as [e1 He1].
  { subst doc1. destruct (truthy_opt _); [now exists e0 |].
    rewrite element_at_update_element, He0. now eexists. }
  set (doc2 := update_element doc1 element _).
  assert (is_Some (element_at doc2 element)) as [e2 He2].
  { subst doc2. rewrite element_at_update_element, He1. now eexists. }
  split.
  - rewrite (sameTree_textContent _ _ _ (sameTree_update_element _ _ _)).
    rewrite (sameTree_textContent _ _ _ (sameTree_update_element _ _ _)).
    apply textContent_set_textContent. now rewrite He2.
  - rewrite !element_at_update_element, element_at_set_textContent, He2.
    eexists. split; [reflexivity |]. cbv beta zeta.
    rewrite keepsAttribute_setupPriceContextMenu.
    destruct (highlightPrices (settings g)).
    + rewrite keepsAttribute_setStyle, keepsAttribute_applyStyles.
      now rewrite getAttribute_setAttribute.
    + rewrite keepsAttribute_applyStyles. now rewrite getAttribute_setAttribute.
Qed.

(** The link [<a class="price">$100</a>] then reads "₪370.00". *)
Lemma applyConversion_replaces_text_witness :
  textContent (applyConversion replaceGlobals (pricePage "$100" "24px") 1 (num "100")
                 (js "USD") (num "370") (js "ILS")) 1
  = generateConvertedText (storedOriginal (pricePage "$100" "24px") 1 (priceLink "24px"))
      (num "370") (js "ILS")
  /\ generateConvertedText (storedOriginal (pricePage "$100" "24px") 1 (priceLink "24px"))
       (num "370") (js "ILS") = js "₪370.00".
Proof.
  split.
  - apply (applyConversion_replaces_text replaceGlobals (pricePage "$100" "24px") 1
             (num "100") (js "USD") (num "370") (js "ILS") (priceLink "24px"));
      vm_compute; reflexivity.
  - vm_compute. reflexivity.
Defined.

(* ===================================================================== *)
(** * What a scan keeps *)
(* ===================================================================== *)

(** A relation between states that holds from a state to itself, is
    transitive, and holds across every [applyConversion] of an element
    that is recorded, holds from the start of a scan to its end. *)
Section ScanInvariant.
Variable g : Globals.
Variable R : State -> State -> Prop.
Hypothesis R_refl : forall st, R st st.
Hypothesis R_trans : forall a b c, R a b -> R b c -> R a c.
Hypothesis R_apply :
  forall st element e amount sourceCurrency convertedAmount targetCurrency,
    element_at (document st) element = Some e ->
    R st (mark_processed st
            (applyConversion g (document st) element amount sourceCurrency
               convertedAmount targetCurrency) element).

Lemma convertCandidate_invariant (st : State) (element : nat)
  (text sourceCurrency : list N) :
  is_Some (element_at (document st) element) ->
  R st (fst (convertCandidate g st element text sourceCurrency)).
Proof using R_refl R_apply.
  intros [e He]. unfold convertCandidate. cbv zeta.
  destruct (implausible _); [apply R_refl |].
  destruct (extractAmount _ _ _ _) as [a |]; [| apply R_refl].
  destruct (calculateConversion _ _ _ _) as [convertedAmount |]; [| apply R_refl].
  destruct (truthy_num convertedAmount); [| apply R_refl].
  cbn [fst]. now apply (R_apply st element e).
Qed.

Lemma selectorStep_invariant (st : State) (element : nat) :
  R st (fst (selectorStep g st element)).
Proof using R_refl R_apply.
  unfold selectorStep.
  destruct (beforeGate g st element) as [r | e fragmented text] eqn:Hgate.
  - revert Hgate. unfold beforeGate. cbv zeta.
    destruct (decide _); [intros [= <-]; apply R_refl |].
    destruct (element_at _ _) as [e |]; [| intros [= <-]; apply R_refl].
    destruct (attr_is e _ _); [intros [= <-]; apply R_refl |].
    destruct (_ || _); [intros [= <-]; apply R_refl |].
    rewrite rangePath_none.
    destruct (negb (truthy _)); [intros [= <-]; apply R_refl | discriminate].
  - apply beforeGate_element in Hgate. destruct Hgate as (_ & He & _).
    unfold confidenceGate. destruct (negb fragmented && _); [apply R_refl |].
    unfold afterGate. cbv zeta.
    destruct (detectQuantityPricing (primaryText text)); [| apply R_refl |];
      (destruct (isShippingCost _ _ _); [apply R_refl |];
       destruct (isOldPrice _ && _); [apply R_refl |];
       destruct (detectCurrency _ _ _ _) as [c |]; [| apply R_refl];
       destruct (negb (truthy c)); [apply R_refl |];
       destruct (JsString.eqb c _); [apply R_refl |];
       apply convertCandidate_invariant; now rewrite He).
Qed.

Lemma textNodeStep_invariant (st : State) (textNode : nat) :
  R st (fst (textNodeStep g st textNode)).
Proof using R_refl R_apply.
  unfold textNodeStep. cbv zeta.
  destruct (parentElement (document st) textNode) as [parent |] eqn:Hp; [| apply R_refl].
  pose proof (parentElement_element _ _ _ Hp) as He.
  destruct (decide _); [apply R_refl |].
  destruct (match element_at _ _ with Some _ => _ | None => _ end); [apply R_refl |].
  rewrite textRangePath_none.
  destruct (detectCurrency _ _ _ _) as [c |]; [| apply R_refl].
  destruct (negb (truthy c)); [apply R_refl |].
  destruct (JsString.eqb c _); [apply R_refl |].
  now apply convertCandidate_invariant.
Qed.

Lemma selectorLoop_invariant (priceElements : list nat) :
  forall st converted skipped,
    R st (fst (fst (selectorLoop g st priceElements converted skipped))).
Proof using R_refl R_trans R_apply.
  induction priceElements as [| element rest IH]; intros st converted skipped;
    cbn [selectorLoop]; [apply R_refl |].
  pose proof (selectorStep_invariant st element) as H.
  destruct (selectorStep g st element) as [st' []]; cbn [fst] in H;
    try (eapply R_trans; [exact H | apply IH]).
  destruct (100 <=? S converted)%nat; [exact H |].
  eapply R_trans; [exact H | apply IH].
Qed.

Lemma textNodeLoop_invariant (textNodes : list nat) :
  forall st converted skipped,
    R st (fst (fst (textNodeLoop g st textNodes converted skipped))).
Proof using R_refl R_trans R_apply.
  induction textNodes as [| textNode rest IH]; intros st converted skipped;
    cbn [textNodeLoop]; [apply R_refl |].
  pose proof (textNodeStep_invariant st textNode) as H.
  destruct (textNodeStep g st textNode) as [st' []]; cbn [fst] in H;
    try (eapply R_trans; [exact H | apply IH]).
  destruct (100 <=? S converted)%nat; [exact H |].
  eapply R_trans; [exact H | apply IH].
Qed.

Lemma convertPrices_invariant (st : State) (priceElements : list nat) (body : nat)
  (converted skipped : nat) :
  R st (fst (fst (convertPrices g st priceElements body converted skipped))).
Proof using R_refl R_trans R_apply.
  unfold convertPrices.
  pose proof (selectorLoop_invariant priceElements st converted skipped) as H.
  destruct (selectorLoop g st priceElements converted skipped) as [[st1 c1] k1].
  cbn [fst] in H.
  destruct (c1 <? 100)%nat; [| exact H].
  eapply R_trans; [exact H | apply textNodeLoop_invariant].
Qed.
End ScanInvariant.

(** ** The loop bodies *)

Lemma textNodeStep_any_result (g : Globals) (st : State) (textNode : nat) :
  (fst (textNodeStep g st textNode) = st
   /\ (snd (textNodeStep g st textNode) = Ignored
       \/ snd (textNodeStep g st textNode) = Skipped))
  \/ exists parent,
      parentElement (document st) textNode = Some parent
      /\ stepResult st parent (textNodeStep g st textNode).
Proof.
  destruct (parentElement (document st) textNode) as [parent |] eqn:Hp.
  - right. exists parent. split; [reflexivity |]. now apply textNodeStep_result.
  - left. unfold textNodeStep. cbv zeta. rewrite Hp. cbn. auto.
Qed.

Lemma stepResult_outcome (st : State) (element : nat) (r : State * Outcome) :
  stepResult st element r ->
  snd r <> ConvertedRange /\ (snd r <> Converted -> fst r = st).
Proof.
  intros [[Hst [Ho | Ho]] | (Ho & _)]; rewrite Ho;
    split; try discriminate; try (intros _; exact Hst).
  intros Hc. now contradict Hc.
Qed.

Lemma textNodeStep_outcome (g : Globals) (st : State) (textNode : nat) :
  snd (textNodeStep g st textNode) <> ConvertedRange
  /\ (snd (textNodeStep g st textNode) <> Converted ->
      fst (textNodeStep g st textNode) = st).
Proof.
  destruct (textNodeStep_any_result g st textNode) as [[Hst [Ho | Ho]] | (p & _ & Hr)].
  - rewrite Ho. split; [discriminate | intros _; exact Hst].
  - rewrite Ho. split; [discriminate | intros _; exact Hst].
  - now apply (stepResult_outcome st p).
Qed.

(** X16: a candidate that is not converted is not touched.  Whenever
    the body of either loop ends without a conversion (the candidate
    is passed over or skipped), the document and the processed set are
    as before; and no candidate ends on the range path. *)
Theorem unconverted_candidate_untouched (g : Globals) (st : State) :
  (forall element,
      snd (selectorStep g st element) <> ConvertedRange
      /\ (snd (selectorStep g st element) <> Converted ->
          fst (selectorStep g st element) = st))
  /\ (forall textNode,
         snd (textNodeStep g st textNode) <> ConvertedRange
         /\ (snd (textNodeStep g st textNode) <> Converted ->
             fst (textNodeStep g st textNode) = st)).
Proof.
  split.
  - intros element. apply (stepResult_outcome st element), selectorStep_result.
  - apply textNodeStep_outcome.
Qed.

(** ** The counts *)

Lemma selectorLoop_counts (g : Globals) (priceElements : list nat) :
  forall st converted skipped,
    (converted <= snd (fst (selectorLoop g st priceElements converted skipped))
     <= Nat.max 100 (S converted))%nat
    /\ (skipped <= snd (selectorLoop g st priceElements converted skipped))%nat
    /\ ((converted < 100)%nat ->
        (snd (fst (selectorLoop g st priceElements converted skipped)) <= 100)%nat).
Proof.
  induction priceElements as [| element rest IH]; intros st converted skipped;
    cbn [selectorLoop]; [cbn; lia |].
  pose proof (selectorStep_result g st element) as Hr.
  destruct (selectorStep g st element) as [st' o].
  destruct o.
  - apply IH.
  - specialize (IH st' converted (S skipped)). lia.
  - destruct Hr as [[_ [Ho | Ho]] | (Ho & _)]; discriminate.
  - destruct (100 <=? S converted)%nat eqn:E.
    + cbn [fst snd]. apply Nat.leb_le in E. lia.
    + apply Nat.leb_gt in E. specialize (IH st' (S converted) skipped). lia.
Qed.

Lemma textNodeLoop_counts (g : Globals) (textNodes : list nat) :
  forall st converted skipped,
    (converted < 100)%nat ->
    (converted <= snd (fst (textNodeLoop g st textNodes converted skipped)) <= 100)%nat
    /\ (skipped <= snd (textNodeLoop g st textNodes converted skipped))%nat.
Proof.
  induction textNodes as [| textNode rest IH]; intros st converted skipped Hc;
    cbn [textNodeLoop]; [cbn; lia |].
  pose proof (proj1 (textNodeStep_outcome g st textNode)) as Hr.
  destruct (textNodeStep g st textNode) as [st' o].
  destruct o.
  - now apply IH.
  - specialize (IH st' converted (S skipped) Hc). lia.
  - now contradict Hr.
  - destruct (100 <=? S converted)%nat eqn:E.
    + cbn [fst snd]. lia.
    + apply Nat.leb_gt in E. specialize (IH st' (S converted) skipped). lia.
Qed.

(** X17: the counts of a scan.  Neither count ever decreases; a scan
    that starts below 100 conversions ends with at most 100, and one
    that starts at 100 or above adds at most one. *)
Theorem conversions_capped (g : Globals) (st : State) (priceElements : list nat)
  (body : nat) (converted skipped : nat) :
  (converted <= snd (fst (convertPrices g st priceElements body converted skipped))
   <= Nat.max 100 (S converted))%nat
  /\ (skipped <= snd (convertPrices g st priceElements body converted skipped))%nat
  /\ ((converted < 100)%nat ->
      (snd (fst (convertPrices g st priceElements body converted skipped)) <= 100)%nat).
Proof.
  unfold convertPrices.
  pose proof (selectorLoop_counts g priceElements st converted skipped) as H.
  destruct (selectorLoop g st priceElements converted skipped) as [[st1 c1] k1].
  cbn [fst snd] in H.
  destruct (c1 <? 100)%nat eqn:E.
  - apply Nat.ltb_lt in E.
    pose proof (textNodeLoop_counts g (collectTextNodes st1 body) st1 c1 k1 E) as H'.
    lia.
  - cbn [fst snd]. lia.
Qed.

(** ** The page *)

(** X18: in tooltip mode (prices are not replaced) a scan changes no
    text of the page and no child list: every node has the text
    content and the children that it had before. *)
Theorem tooltip_mode_keeps_page_text (g : Globals) (st : State)
  (priceElements : list nat) (body : nat) (converted skipped : nat) (node : nat) :
  replacePrice (settings g) = false ->
  textContent
    (document (fst (fst (convertPrices g st priceElements body converted skipped)))) node
  = textContent (document st) node
  /\ childNodes
       (document (fst (fst (convertPrices g st priceElements body converted skipped)))) node
     = childNodes (document st) node.
Proof.
  intros Hr.
  assert (sameTree (document st)
            (document (fst (fst (convertPrices g st priceElements body converted
                                   skipped))))) as H.
  { apply (convertPrices_invariant g (fun a b => sameTree (document a) (document b))).
    - intros a. apply sameTree_refl.
    - intros a b c. apply sameTree_trans.
    - intros a element e amount sourceCurrency convertedAmount targetCurrency _.
      cbn [mark_processed document]. now apply applyConversion_sameTree. }
  split; [now apply sameTree_textContent | now apply sameTree_childNodes].
Qed.

(** The scan of [<a class="price">$100</a>] converts the link and
    leaves its text. *)
Lemma tooltip_mode_keeps_page_text_witness :
  textContent (document (scanned (scan shekelGlobals (pricePage "$100" "24px") [1%nat])))
    1
  = textContent (pricePage "$100" "24px") 1
  /\ convertedCount (scan shekelGlobals (pricePage "$100" "24px") [1%nat]) = 1%nat.
Proof.
  split.
  - apply (tooltip_mode_keeps_page_text shekelGlobals
             (freshState (pricePage "$100" "24px")) [1%nat] 0 0 0 1).
    reflexivity.
  - vm_compute. reflexivity.
Defined.

(** X19: a scan changes no element that it does not record.  The
    processed set only grows, and every element outside the processed
    set of the end is as it was at the start. *)
Theorem scan_changes_only_recorded (g : Globals) (st : State)
  (priceElements : list nat) (body : nat) (converted skipped : nat) :
  processedElements st
    ⊆ processedElements (fst (fst (convertPrices g st priceElements body converted skipped)))
  /\ forall element,
       element ∉ processedElements
                   (fst (fst (convertPrices g st priceElements body converted skipped))) ->
       element_at
         (document (fst (fst (convertPrices g st priceElements body converted skipped)))) element
       = element_at (document st) element.
Proof.
  apply (convertPrices_invariant g
           (fun a b => processedElements a ⊆ processedElements b
                       /\ forall element, element ∉ processedElements b ->
                            element_at (document b) element = element_at (document a) element)).
  - intros a. split; [reflexivity | reflexivity].
  - intros a b c [Hab Eab] [Hbc Ebc]. split; [now transitivity (processedElements b) |].
    intros element Hc. rewrite Ebc by exact Hc. apply Eab.
    intros Hb. apply Hc. now apply Hbc.
  - intros a element e amount sourceCurrency convertedAmount targetCurrency _.
    cbn [mark_processed processedElements document]. split.
    + apply union_subseteq_r.
    + intros k Hk. apply applyConversion_other. intros ->. apply Hk.
      apply elem_of_union. left. now apply elem_of_singleton.
Qed.

(** ** The conversions *)

Lemma truthy_num_positive (a : float) :
  truthy_num a = true -> PrimFloat.leb a zero = false ->
  isNaN a = false /\ PrimFloat.ltb zero a = true.
Proof.
  unfold truthy_num, isNaN, is_zero, is_nan.
  rewrite !FloatAxioms.eqb_spec, FloatAxioms.leb_spec, FloatAxioms.ltb_spec.
  replace (Prim2SF zero) with (S754_zero false) by reflexivity.
  destruct (Prim2SF a) as [s | s | | s m e]; try destruct s; cbn; try discriminate; auto.
  intros H _. split; [| reflexivity]. now apply negb_true_iff in H.
Qed.

Lemma calculateConversion_finite (g : Globals) (amount : float)
  (sourceCurrency targetCurrency : list N) (r : float) :
  calculateConversion g amount sourceCurrency targetCurrency = Some r ->
  isFinite r = true.
Proof.
  unfold calculateConversion.
  destruct (_ || _); [discriminate |].
  destruct (exchangeRates g !! sourceCurrency) as [rs |]; [| discriminate].
  destruct (exchangeRates g !! targetCurrency) as [rt |]; [| discriminate].
  cbv zeta.
  destruct (isNaN _ || negb (isFinite (amount / rs * rt))) eqn:E; [discriminate |].
  intros [= <-]. apply orb_false_elim in E. destruct E as [_ E].
  now apply negb_false_iff in E.
Qed.

Lemma convertCandidate_plausible (g : Globals) (st : State) (element : nat)
  (text sourceCurrency : list N) :
  truthy sourceCurrency = true ->
  sourceCurrency <> defaultTargetCurrency (settings g) ->
  snd (convertCandidate g st element text sourceCurrency) = Converted ->
  plausibleConversion g st (fst (convertCandidate g st element text sourceCurrency))
    element.
Proof.
  intros Ht Hne. unfold convertCandidate. cbv zeta.
  destruct (extractAmount _ _ _ _) as [a |]; [| discriminate].
  cbn [implausible].
  destruct (negb (truthy_num a)) eqn:E1; [discriminate |].
  destruct (PrimFloat.leb a zero) eqn:E2; [discriminate |].
  destruct (PrimFloat.ltb (num "1000000000") a) eqn:E3; [discriminate |].
  cbn [orb].
  destruct (calculateConversion _ _ _ _) as [c |] eqn:Ec; [| discriminate].
  destruct (truthy_num c) eqn:E4; [| discriminate].
  intros _. cbn [fst]. apply negb_false_iff in E1.
  destruct (truthy_num_positive a E1 E2) as [Hnan Hpos].
  exists a, sourceCurrency, c.
  repeat (split; [assumption || (now apply (calculateConversion_finite _ _ _ _ _ Ec)) |]).
  reflexivity.
Qed.

Lemma selectorStep_conversion (g : Globals) (st : State) (element : nat) :
  snd (selectorStep g st element) = Converted ->
  (element ∉ processedElements st)
  /\ markedConverted (document st) element = false
  /\ is_Some (element_at (document st) element)
  /\ plausibleConversion g st (fst (selectorStep g st element)) element.
Proof.
  unfold selectorStep.
  destruct (beforeGate g st element) as [r | e fragmented text] eqn:Hgate.
  - revert Hgate. unfold beforeGate. cbv zeta.
    destruct (decide _); [intros [= <-]; discriminate |].
    destruct (element_at _ _) as [e |]; [| intros [= <-]; discriminate].
    destruct (attr_is e _ _); [intros [= <-]; discriminate |].
    destruct (_ || _); [intros [= <-]; discriminate |].
    rewrite rangePath_none.
    destruct (negb (truthy _)); [intros [= <-]; discriminate | discriminate].
  - apply beforeGate_element in Hgate. destruct Hgate as (Hnew & He & Hmark).
    intros H. split; [exact Hnew |]. split; [exact Hmark |].
    split; [now rewrite He |]. revert H.
    unfold confidenceGate. destruct (negb fragmented && _); [discriminate |].
    unfold afterGate. cbv zeta.
    destruct (detectQuantityPricing (primaryText text)); [| discriminate |];
      (destruct (isShippingCost _ _ _); [discriminate |];
       destruct (isOldPrice _ && _); [discriminate |];
       destruct (detectCurrency _ _ _ _) as [c |]; [| discriminate];
       destruct (truthy c) eqn:Ht; [| discriminate]; cbn [negb];
       destruct (JsString.eqb c _) eqn:Ec; [discriminate |];
       apply convertCandidate_plausible; [exact Ht |];
       intros ->; now rewrite eqb_refl in Ec).
Qed.

Lemma textNodeStep_conversion (g : Globals) (st : State) (textNode : nat) :
  snd (textNodeStep g st textNode) = Converted ->
  exists parent,
    parentElement (document st) textNode = Some parent
    /\ (parent ∉ processedElements st)
    /\ markedConverted (document st) parent = false
    /\ is_Some (element_at (document st) parent)
    /\ plausibleConversion g st (fst (textNodeStep g st textNode)) parent.
Proof.
  unfold textNodeStep. cbv zeta.
  destruct (parentElement (document st) textNode) as [parent |] eqn:Hp; [| discriminate].
  pose proof (parentElement_element _ _ _ Hp) as He.
  destruct (decide _) as [| Hnew]; [discriminate |].
  destruct (match element_at _ _ with Some _ => _ | None => _ end) eqn:Hmark;
    [discriminate |].
  rewrite textRangePath_none.
  destruct (detectCurrency _ _ _ _) as [c |]; [| discriminate].
  destruct (truthy c) eqn:Ht; [| discriminate]. cbn [negb].
  destruct (JsString.eqb c _) eqn:Ec; [discriminate |].
  intros H. exists parent. split; [reflexivity |]. split; [exact Hnew |].
  split; [exact Hmark |]. split; [exact He |].
  apply convertCandidate_plausible; [exact Ht | | exact H].
  intros ->. now rewrite eqb_refl in Ec.
Qed.

(** X20: every conversion that a loop body makes is a plausible one.
    When the body of the selector loop or of the text-node loop ends
    with a conversion, the amount is a number above zero and not above
    a billion, the source currency is not empty and is not the target,
    the converted amount is finite and not zero, and the new state is
    the old one with the conversion applied to the element (the parent
    of the text node) and the element recorded. *)
Theorem conversions_are_plausible (g : Globals) (st : State) :
  (forall element,
      snd (selectorStep g st element) = Converted ->
      plausibleConversion g st (fst (selectorStep g st element)) element)
  /\ (forall textNode,
         snd (textNodeStep g st textNode) = Converted ->
         exists parent,
           parentElement (document st) textNode = Some parent
           /\ plausibleConversion g st (fst (textNodeStep g st textNode)) parent).
Proof.
  split.
  - intros element H.
    now destruct (selectorStep_conversion g st element H) as (_ & _ & _ & Hp).
  - intros textNode H.
    destruct (textNodeStep_conversion g st textNode H) as (p & Hp & _ & _ & _ & Hc).
    now exists p.
Qed.

(* ===================================================================== *)
(** * What a run records *)
(* ===================================================================== *)

Lemma runKeeps_refl (g : Globals) (st : State) : runKeeps g st st 0.
Proof.
  split; [reflexivity |]. split; [lia |]. split; [intros e H1 H2; contradiction |].
  split; [reflexivity | reflexivity].
Qed.

Lemma runKeeps_trans (g : Globals) (a b c : State) (n m : nat) :
  runKeeps g a b n -> runKeeps g b c m -> runKeeps g a c (n + m).
Proof.
  intros (Sab & Nab & Mab & Kab & Zab) (Sbc & Nbc & Mbc & Kbc & Zbc).
  split; [now transitivity (processedElements b) |].
  split; [lia |].
  split.
  { intros e Hc Ha. destruct (decide (e ∈ processedElements b)) as [Hb | Hb].
    - destruct (Mab e Hb Ha) as (Hm & src & Hs & Ht & Hne).
      assert (element_at (document c) e = element_at (document b) e) as He
          by (apply Kbc; now left).
      unfold markedConverted, attributeOf in *. rewrite He.
      split; [exact Hm | now exists src].
    - now apply Mbc. }
  split.
  { intros e H. rewrite <- (Kab e H). apply Kbc.
    destruct H as [H | H]; [left; now apply Sab |].
    right. unfold markedConverted in *. now rewrite (Kab e (or_intror H)). }
  intros Hz. assert (n = 0 /\ m = 0)%nat as [Hn Hm] by lia.
  rewrite (Zbc Hm). now apply Zab.
Qed.

(** A conversion of an element that was neither recorded nor marked. *)
Lemma conversion_runKeeps (g : Globals) (st st' : State) (element : nat) :
  element ∉ processedElements st ->
  markedConverted (document st) element = false ->
  is_Some (element_at (document st) element) ->
  plausibleConversion g st st' element ->
  runKeeps g st st' 1.
Proof.
  intros Hnew Hmark [e0 He0]
    (amount & src & converted & Ht & Hne & _ & _ & _ & _ & _ & _ & ->).
  unfold runKeeps, attributeOf, mark_processed. cbn [processedElements document].
  split; [apply union_subseteq_r |].
  split.
  { rewrite size_union by now apply disjoint_singleton_l.
    rewrite size_singleton. lia. }
  split.
  { intros e He Hn.
    apply elem_of_union in He. destruct He as [He | He]; [| contradiction].
    apply elem_of_singleton in He. subst e. split.
    - apply applyConversion_marks. now rewrite He0.
    - destruct (applyConversion_attributes g (document st) element amount src converted
                  (defaultTargetCurrency (settings g)) e0 He0)
        as (e' & He' & _ & _ & Hs & _).
      exists src. now rewrite He'. }
  split.
  { intros e He. apply applyConversion_other. intros ->.
    destruct He as [He | He]; [contradiction | congruence]. }
  discriminate.
Qed.

Lemma selectorStep_runKeeps (g : Globals) (st : State) (element : nat) :
  (snd (selectorStep g st element) = Converted
   /\ runKeeps g st (fst (selectorStep g st element)) 1)
  \/ (snd (selectorStep g st element) <> Converted
      /\ snd (selectorStep g st element) <> ConvertedRange
      /\ fst (selectorStep g st element) = st).
Proof.
  destruct (stepResult_outcome st element _ (selectorStep_result g st element))
    as [Hr Hs].
  destruct (snd (selectorStep g st element)) eqn:Ho;
    try (right; split; [discriminate |]; split; [discriminate |];
         apply Hs; discriminate).
  - now contradict Hr.
  - left. split; [reflexivity |].
    destruct (selectorStep_conversion g st element Ho) as (H1 & H2 & H3 & H4).
    now apply (conversion_runKeeps g st _ element).
Qed.

Lemma textNodeStep_runKeeps (g : Globals) (st : State) (textNode : nat) :
  (snd (textNodeStep g st textNode) = Converted
   /\ runKeeps g st (fst (textNodeStep g st textNode)) 1)
  \/ (snd (textNodeStep g st textNode) <> Converted
      /\ snd (textNodeStep g st textNode) <> ConvertedRange
      /\ fst (textNodeStep g st textNode) = st).
Proof.
  destruct (textNodeStep_outcome g st textNode) as [Hr Hs].
  destruct (snd (textNodeStep g st textNode)) eqn:Ho;
    try (right; split; [discriminate |]; split; [discriminate |];
         apply Hs; discriminate).
  - now contradict Hr.
  - left. split; [reflexivity |].
    destruct (textNodeStep_conversion g st textNode Ho) as (p & _ & H1 & H2 & H3 & H4).
    now apply (conversion_runKeeps g st _ p).
Qed.

(** ** The loops *)

Lemma selectorLoop_runKeeps (g : Globals) (priceElements : list nat) :
  forall st converted skipped,
    (converted <= snd (fst (selectorLoop g st priceElements converted skipped)))%nat
    /\ runKeeps g st (fst (fst (selectorLoop g st priceElements converted skipped)))
         (snd (fst (selectorLoop g st priceElements converted skipped)) - converted).
Proof.
  induction priceElements as [| element rest IH]; intros st converted skipped;
    cbn [selectorLoop].
  { cbn [fst snd]. split; [lia |]. rewrite Nat.sub_diag. apply runKeeps_refl. }
  destruct (selectorStep_runKeeps g st element) as [[Ho Hk] | (Hc & Hr & Hs)];
    destruct (selectorStep g st element) as [st' o]; cbn [fst snd] in *; subst.
  - destruct (100 <=? S converted)%nat.
    + cbn [fst snd]. split; [lia |].
      now replace (S converted - converted)%nat with 1%nat by lia.
    + destruct (IH st' (S converted) skipped) as [Hle Hrun]. split; [lia |].
      replace (snd (fst (selectorLoop g st' rest (S converted) skipped)) - converted)%nat
        with (1 + (snd (fst (selectorLoop g st' rest (S converted) skipped))
                   - S converted))%nat by lia.
      now apply (runKeeps_trans g st st').
  - destruct o; try contradiction; apply IH.
Qed.

Lemma textNodeLoop_runKeeps (g : Globals) (textNodes : list nat) :
  forall st converted skipped,
    (converted <= snd (fst (textNodeLoop g st textNodes converted skipped)))%nat
    /\ runKeeps g st (fst (fst (textNodeLoop g st textNodes converted skipped)))
         (snd (fst (textNodeLoop g st textNodes converted skipped)) - converted).
Proof.
  induction textNodes as [| textNode rest IH]; intros st converted skipped;
    cbn [textNodeLoop].
  { cbn [fst snd]. split; [lia |]. rewrite Nat.sub_diag. apply runKeeps_refl. }
  destruct (textNodeStep_runKeeps g st textNode) as [[Ho Hk] | (Hc & Hr & Hs)];
    destruct (textNodeStep g st textNode) as [st' o]; cbn [fst snd] in *; subst.
  - destruct (100 <=? S converted)%nat.
    + cbn [fst snd]. split; [lia |].
      now replace (S converted - converted)%nat with 1%nat by lia.
    + destruct (IH st' (S converted) skipped) as [Hle Hrun]. split; [lia |].
      replace (snd (fst (textNodeLoop g st' rest (S converted) skipped)) - converted)%nat
        with (1 + (snd (fst (textNodeLoop g st' rest (S converted) skipped))
                   - S converted))%nat by lia.
      now apply (runKeeps_trans g st st').
  - destruct o; try contradiction; apply IH.
Qed.

Lemma convertPrices_runKeeps (g : Globals) (st : State) (priceElements : list nat)
  (body : nat) (converted skipped : nat) :
  (converted <= convertedCount (convertPrices g st priceElements body converted skipped))%nat
  /\ runKeeps g st (scanned (convertPrices g st priceElements body converted skipped))
       (convertedCount (convertPrices g st priceElements body converted skipped)
        - converted).
Proof.
  unfold convertPrices, scanned, convertedCount.
  destruct (selectorLoop_runKeeps g priceElements st converted skipped) as [Hle Hrun].
  destruct (selectorLoop g st priceElements converted skipped) as [[st1 c1] k1].
  cbn [fst snd] in *.
  destruct (c1 <? 100)%nat; [| now split].
  destruct (textNodeLoop_runKeeps g (collectTextNodes st1 body) st1 c1 k1) as [Hle' Hrun'].
  split; [lia |].
  replace (snd (fst (textNodeLoop g st1 (collectTextNodes st1 body) c1 k1)) - converted)%nat
    with ((c1 - converted)
          + (snd (fst (textNodeLoop g st1 (collectTextNodes st1 body) c1 k1)) - c1))%nat
    by lia.
  now apply (runKeeps_trans g st st1).
Qed.

(* ===================================================================== *)
(** * Properties of the scan: a candidate in the target currency *)
(* ===================================================================== *)

(** C7, the claim as stated fails: in
    [<body><a class="price">₪50 (€12)</a></body>] with the shekel as
    the target, the selector-based pass reads the primary price, finds
    the shekel and skips the link, without recording it; the text-node
    pass then reads the whole text, finds the euro first, and converts
    the link as 50 euros: one conversion and one skip are counted, and
    the link is marked and carries the converted amount 201.09. *)
Lemma same_currency_converted_by_text_pass :
  (let st := freshState (pricePage "₪50 (€12)" "24px") in
   selectorStep euroRateGlobals st 1 = (st, Skipped)
   /\ detectCurrency euroRateGlobals (document st) (js "₪50 (€12)") (Some 1%nat)
      = Some (js "EUR")
   /\ snd (textNodeStep euroRateGlobals st 2) = Converted)
  /\ (let result := scan euroRateGlobals (pricePage "₪50 (€12)" "24px") [1%nat] in
      (convertedCount result, skippedCount result,
       attributeOf (scanned result) 1 "data-converted",
       attributeOf (scanned result) 1 "data-source-currency",
       attributeOf (scanned result) 1 "data-source-amount",
       attributeOf (scanned result) 1 "data-target-amount",
       attributeOf (scanned result) 1 "title")
      = (1%nat, 1%nat, Some (js "true"), Some (js "EUR"), Some (js "50"),
         Some (js "201.09"), Some (js "₪201.09 ILS"))).
Proof. vm_compute. repeat split; reflexivity. Qed.

(** C7 (amended): a candidate for which a pass detects the target
    currency is skipped by that pass, the selector-based one and the
    text-node one alike: the count of skipped elements goes up by one,
    and the document and the set of processed elements stay as they
    are.  And no conversion is from the target currency to itself:
    every element that a run of the two passes adds to the processed
    set carries a source currency that is not empty and is not the
    target. *)
Theorem same_currency_skipped (g : Globals) (st : State) :
  (forall element e fragmented text,
      beforeGate g st element = ReachesGate e fragmented text ->
      detectCurrency g (document st) (pricePart text) (Some element)
      = Some (defaultTargetCurrency (settings g)) ->
      selectorStep g st element = (st, Skipped)
      /\ forall rest converted skipped,
          selectorLoop g st (element :: rest) converted skipped
          = selectorLoop g st rest converted (S skipped))
  /\ (forall textNode parent,
         parentElement (document st) textNode = Some parent ->
         parent ∉ processedElements st ->
         markedConverted (document st) parent = false ->
         detectCurrency g (document st) (trim (textContent (document st) textNode))
           (Some parent)
         = Some (defaultTargetCurrency (settings g)) ->
         textNodeStep g st textNode = (st, Skipped)
         /\ forall rest converted skipped,
             textNodeLoop g st (textNode :: rest) converted skipped
             = textNodeLoop g st rest converted (S skipped))
  /\ (forall priceElements body converted skipped element,
         let result := convertPrices g st priceElements body converted skipped in
         element ∈ processedElements (scanned result) ->
         element ∉ processedElements st ->
         exists sourceCurrency,
           attributeOf (scanned result) element "data-source-currency"
           = Some sourceCurrency
           /\ truthy sourceCurrency = true
           /\ sourceCurrency <> defaultTargetCurrency (settings g)).
Proof.
  split; [| split].
  - intros element e fragmented text Hgate Hcur.
    assert (selectorStep g st element = (st, Skipped)) as Hstep.
    { unfold selectorStep. rewrite Hgate. unfold confidenceGate.
      destruct (negb fragmented && _); [reflexivity |].
      now apply afterGate_same_currency. }
    split; [exact Hstep |].
    intros rest converted skipped. cbn [selectorLoop]. now rewrite Hstep.
  - intros textNode parent Hparent Hnew Hmark Hcur.
    pose proof (detectCurrency_truthy _ _ _ _ _ Hcur) as Ht.
    assert (textNodeStep g st textNode = (st, Skipped)) as Hstep.
    { unfold textNodeStep. cbv zeta. rewrite Hparent.
      destruct (decide (parent ∈ processedElements st)); [contradiction |].
      unfold markedConverted in Hmark. rewrite Hmark.
      now rewrite textRangePath_none, Hcur, Ht, eqb_refl. }
    split; [exact Hstep |].
    intros rest converted skipped. cbn [textNodeLoop]. now rewrite Hstep.
  - intros priceElements body converted skipped element result Hin Hnew.
    destruct (convertPrices_runKeeps g st priceElements body converted skipped)
      as (_ & _ & _ & Hm & _).
    now destruct (Hm element Hin Hnew).
Qed.

(** [<a class="price">₪50</a>] with the shekel as the target: the link
    is skipped by both passes, and the scan leaves the page as it is,
    with two skips counted. *)
Lemma same_currency_skipped_witness :
  selectorStep shekelGlobals (freshState (pricePage "₪50" "24px")) 1
  = (freshState (pricePage "₪50" "24px"), Skipped)
  /\ textNodeStep shekelGlobals (freshState (pricePage "₪50" "24px")) 2
     = (freshState (pricePage "₪50" "24px"), Skipped)
  /\ scan shekelGlobals (pricePage "₪50" "24px") [1%nat]
     = (freshState (pricePage "₪50" "24px"), 0%nat, 2%nat).
Proof.
  split; [| split].
  - eapply (proj1 (same_currency_skipped shekelGlobals
                     (freshState (pricePage "₪50" "24px")))).
    + vm_compute. reflexivity.
    + vm_compute. reflexivity.
  - eapply (proj1 (proj2 (same_currency_skipped shekelGlobals
                            (freshState (pricePage "₪50" "24px"))))).
    + reflexivity.
    + apply not_elem_of_empty.
    + vm_compute. reflexivity.
    + vm_compute. reflexivity.
  - vm_compute. reflexivity.
Defined.

(* ===================================================================== *)
(** * Properties of the scan: the record of the converted elements *)
(* ===================================================================== *)


(** The same below the cap.  The walker of the text-node pass collects
    at most 100 text nodes: on the page of 99 links [<a>Chapter 1</a>]
    followed by two links [<a>$5</a>], none of them a candidate of the
    selector-based pass, the first run collects the 99 chapters and
    the first price and converts that price alone; the second run
    collects the second price in its place and converts it. *)
Lemma second_run_converts_past_walker_limit :
  (let first := scan shekelGlobals chaptersAndPrices [] in
   let second := convertPrices shekelGlobals (scanned first) [] 0 0 0 in
   (length (collectTextNodes (freshState chaptersAndPrices) 0),
    convertedCount first,
    attributeOf (scanned first) 100 "data-converted",
    attributeOf (scanned first) 101 "data-converted",
    convertedCount second,
    attributeOf (scanned second) 101 "data-converted"))
  = (100%nat, 1%nat, Some (js "true"), None, 1%nat, Some (js "true")).
Proof. vm_compute. reflexivity. Qed.


